(** * ClawMates backend: the HTTP handlers of [src/index.ts] over a model of
    the store.

    The handlers are thin: each reads a few properties of the JSON request
    body, applies the JavaScript operators [||], [??] and [?.] to them, calls
    one or two ORM operations and answers with JSON.  The embedding follows
    that layering:

    - JavaScript values and the three operators;
    - the tables and the ORM operations the handlers call (the schema file is
      not part of the sources, what it has to say is marked where it is used);
    - the handlers, one definition per route, in the order of the source;
    - the properties. *)

From Stdlib Require Import ZArith QArith Qround String Ascii List Bool Lia Permutation Sorted.
From stdpp Require Import gmap strings list fin_maps sorting.
Import ListNotations.

Open Scope string_scope.
Open Scope list_scope.
Open Scope Z_scope.

(** ** JavaScript values *)

(** What a handler can hold in a variable: the JSON values of a request body
    and [Date] objects.  Numbers are the finite JSON numbers, kept as
    rationals (the handlers only compare them and test them against zero).
    [undefined] is not a value of this type: a property read yields a
    [jsval], and [None] is [undefined]. *)
#[warnings="-register-all"]
Inductive value : Type :=
| VNull
| VBool (b : bool)
| VNum (q : Q)
| VStr (s : string)
| VDate (ms : Z)
| VArr (items : list value)
| VObj (fields : list (string * value)).

Definition jsval : Type := option value.

(** The own properties of a parsed JSON object, in source order. *)
Definition obj : Type := list (string * value).

Definition null : jsval := Some VNull.
Definition str (s : string) : jsval := Some (VStr s).
Definition num (z : Z) : jsval := Some (VNum (inject_Z z)).

(** ToBoolean. *)
Definition truthy (v : jsval) : bool :=
  match v with
  | None => false
  | Some VNull => false
  | Some (VBool b) => b
  | Some (VNum q) => negb (Qeq_bool q 0)
  | Some (VStr s) => negb (String.eqb s "")
  | Some (VDate _) => true
  | Some (VArr _) => true
  | Some (VObj _) => true
  end.

(** [a || b] *)
Definition js_or (a b : jsval) : jsval := if truthy a then a else b.

Definition nullish (v : jsval) : bool :=
  match v with
  | None => true
  | Some VNull => true
  | Some _ => false
  end.

(** [a ?? b] *)
Definition js_coalesce (a b : jsval) : jsval := if nullish a then b else a.

Fixpoint lookup_field (k : string) (fs : obj) : jsval :=
  match fs with
  | [] => None
  | (k', v) :: rest => if String.eqb k k' then Some v else lookup_field k rest
  end.

(** [o.k] for an object [o].  The handlers read request bodies, which
    [express.json()] hands over as an object (an array body has none of the
    names the handlers read and behaves as the object without fields). *)
Definition prop (o : obj) (k : string) : jsval := lookup_field k o.

(** [v?.k].  The names read this way are the ten trait names, which no
    string, number, boolean, date or array has as a property. *)
Definition opt_prop (v : jsval) (k : string) : jsval :=
  match v with
  | Some (VObj fs) => lookup_field k fs
  | _ => None
  end.

Declare Scope js_scope.
Delimit Scope js_scope with js.
Notation "o @. k" := (prop o k) (at level 9, k at level 0, format "o @. k") : js_scope.
Notation "v ?. k" := (opt_prop v k) (at level 9, k at level 0, format "v ?. k") : js_scope.
Notation "a || b" := (js_or a b) (at level 50, left associativity) : js_scope.
Notation "a ?? b" := (js_coalesce a b) (at level 50, left associativity) : js_scope.

(** What a thrown value can be, as far as the [catch] blocks look at it: an
    ORM error with its code, a validation error of the ORM (no code), or a
    [TypeError] of the language. *)
Inductive exn : Type :=
| P2002          (* unique constraint failed *)
| P2003          (* foreign key constraint failed *)
| P2025          (* record to update not found *)
| ValidationError
| TypeError.

Definition is_P2002 (e : exn) : bool :=
  match e with P2002 => true | _ => false end.

Inductive outcome (A : Type) : Type :=
| Ok (a : A)
| Throw (e : exn).
Arguments Ok {A} a.
Arguments Throw {A} e.

(** [res.json(a)] answers 200; [res.status(c).json({ error })] answers [c]. *)
Inductive response (A : Type) : Type :=
| Json (a : A)
| Status (code : nat) (error : string).
Arguments Json {A} a.
Arguments Status {A} code error.

(** ** The tables *)

(** An agent row keeps its columns by name, [id] among them: the handlers
    copy some twenty columns from the request without looking inside. *)
Abbreviation Agent := (gmap string value).

(** Modelled from the spec: the schema file is missing from the sources; the
    columns of the other five tables and their types are those of the data
    model (section 3): identifiers, labels and text are strings, scores are
    numbers, flags are booleans, timestamps are dates (milliseconds). *)
Record Relationship : Type := mkRelationship {
  rel_id : string;
  rel_agent1Id : string;
  rel_agent2Id : string;
  rel_compatibilityScore : Q;
  rel_status : string;
  rel_healthScore : Q;
  rel_createdAt : Z;
  rel_updatedAt : Z;
  rel_endedAt : option Z
}.

Record Conversation : Type := mkConversation {
  conv_id : string;
  conv_relationshipId : string;
  conv_lastMessageAt : Z;
  conv_dramaScore : Q;
  conv_viralPotential : Q
}.

Record Message : Type := mkMessage {
  msg_id : string;
  msg_conversationId : string;
  msg_fromId : string;
  msg_toId : string;
  msg_content : string;
  msg_sentiment : option string;
  msg_createdAt : Z
}.

Record Event : Type := mkEvent {
  ev_id : string;
  ev_type : string;
  ev_agentsInvolved : list string;
  ev_relationshipId : option string;
  ev_description : string;
  ev_dramaScore : Q;
  ev_isPublic : bool;
  ev_isFeatured : bool;
  ev_createdAt : Z
}.

Record WaitlistEntry : Type := mkWaitlistEntry {
  wl_id : string;
  wl_email : string;
  wl_createdAt : Z
}.

(** Agents are keyed by their primary key; the other tables are kept in
    insertion order, which is the order a query without [orderBy] (and an
    [orderBy] among equal keys) is taken to answer in. *)
Record DB : Type := mkDB {
  agents : gmap string (gmap string value);
  relationships : list Relationship;
  conversations : list Conversation;
  messages : list Message;
  events : list Event;
  waitlist : list WaitlistEntry
}.

Definition set_agents (d : DB) (a : gmap string (gmap string value)) : DB :=
  mkDB a (relationships d) (conversations d) (messages d) (events d) (waitlist d).
Definition set_relationships (d : DB) (r : list Relationship) : DB :=
  mkDB (agents d) r (conversations d) (messages d) (events d) (waitlist d).
Definition set_conversations (d : DB) (c : list Conversation) : DB :=
  mkDB (agents d) (relationships d) c (messages d) (events d) (waitlist d).
Definition set_messages (d : DB) (m : list Message) : DB :=
  mkDB (agents d) (relationships d) (conversations d) m (events d) (waitlist d).
Definition set_waitlist (d : DB) (w : list WaitlistEntry) : DB :=
  mkDB (agents d) (relationships d) (conversations d) (messages d) (events d) w.

(** What [include] adds to a row. *)
Record RelationshipWithAgents : Type := mkRelationshipWithAgents {
  rwa_relationship : Relationship;
  rwa_agent1 : option Agent;
  rwa_agent2 : option Agent
}.

Record AgentWithRelationships : Type := mkAgentWithRelationships {
  awr_agent : Agent;
  awr_relationshipsAsAgent1 : list Relationship;
  awr_relationshipsAsAgent2 : list Relationship
}.

Record EventWithRelationship : Type := mkEventWithRelationship {
  ewr_event : Event;
  ewr_relationship : option RelationshipWithAgents
}.

Record MessageWithAgents : Type := mkMessageWithAgents {
  mwa_message : Message;
  mwa_from : option Agent;
  mwa_to : option Agent
}.

Record ConversationWithRelationship : Type := mkConversationWithRelationship {
  cwr_conversation : Conversation;
  cwr_relationship : option Relationship
}.

Record MessageWithContext : Type := mkMessageWithContext {
  mwc_message : Message;
  mwc_from : option Agent;
  mwc_to : option Agent;
  mwc_conversation : option ConversationWithRelationship
}.

(** The envelope [{ type, data, timestamp }] of feed items and of the
    "new-message" and "new-event" broadcasts. *)
Record Envelope (A : Type) : Type := mkEnvelope {
  env_type : string;
  env_data : A;
  env_timestamp : Z
}.
Arguments mkEnvelope {A} _ _ _.
Arguments env_type {A} _.
Arguments env_data {A} _.
Arguments env_timestamp {A} _.

Inductive FeedData : Type :=
| FeedEvent (e : EventWithRelationship)
| FeedMessage (m : MessageWithContext).

(** What the handlers of the claims emit on a socket namespace. *)
Inductive Payload : Type :=
| PRelationship (r : RelationshipWithAgents)
| PMessage (m : Envelope MessageWithAgents).

Record Emission : Type := mkEmission {
  em_namespace : string;
  em_event : string;
  em_payload : Payload
}.

(** The state a request runs against: the store and what has gone out on the
    sockets so far. *)
Record World : Type := mkWorld {
  db : DB;
  emitted : list Emission
}.

(** The part of the missing schema that the agent routes and the creation of
    a relationship depend on and the spec does not fix, taken as a
    parameter: what a new agent row holds in the columns the request leaves
    out, which argument objects the ORM accepts for an agent ([create] and
    [update] are validated before anything is written), and the health score
    of a new relationship. *)
Record Schema : Type := mkSchema {
  agent_defaults : Z -> gmap string value;
  agent_create_ok : gmap string value -> bool;
  agent_update_ok : gmap string value -> bool;
  healthScore_default : Q
}.

(** ** Language and ORM helpers *)

(** A stable sort: [ok a b] says that [a] may stay in front of [b].  Both
    [Array.prototype.sort] and, among rows with equal keys, [orderBy] are
    taken to keep the order they are given. *)
Fixpoint insert_by {A : Type} (ok : A -> A -> bool) (x : A) (l : list A) : list A :=
  match l with
  | [] => [x]
  | y :: l' => if ok x y then x :: y :: l' else y :: insert_by ok x l'
  end.

Fixpoint sort_by {A : Type} (ok : A -> A -> bool) (l : list A) : list A :=
  match l with
  | [] => []
  | x :: l' => insert_by ok x (sort_by ok l')
  end.

(** [arr.sort(cmp)]: [a] stays in front of [b] unless [cmp(a, b) > 0]. *)
Definition js_sort {A : Type} (cmp : A -> A -> Z) (l : list A) : list A :=
  sort_by (fun a b => cmp a b <=? 0) l.

(** [orderBy: { k: "desc" }] for a date column and for a number column. *)
Definition order_by_desc {A : Type} (key : A -> Z) (l : list A) : list A :=
  sort_by (fun a b => key b <=? key a) l.

Definition order_by_desc_num {A : Type} (key : A -> Q) (l : list A) : list A :=
  sort_by (fun a b => Qle_bool (key b) (key a)) l.

(** [take: n] of a query: the first [n] rows, and for a negative [n] the
    last [-n] rows, in the order of the query. *)
Definition prisma_take {A : Type} (n : Z) (l : list A) : list A :=
  if 0 <=? n then firstn (Z.to_nat n) l
  else skipn (length l - Z.to_nat (- n)) l.

(** [arr.slice(0, n)]: a negative [n] counts from the end. *)
Definition js_slice0 {A : Type} (n : Z) (l : list A) : list A :=
  if 0 <=? n then firstn (Z.to_nat n) l
  else firstn (length l - Z.to_nat (- n)) l.

(** A string of the model holds the UTF-8 bytes of the JavaScript string:
    an ASCII character is one byte, and the white space outside ASCII that
    [parseInt] skips takes two or three. *)

(** The numbers [parseInt] can give: [NaN], an integer that is a double,
    and the two infinities ([-0] is [Finite 0]: both are falsy). *)
Inductive number : Type :=
| NaN
| Finite (z : Z)
| Infinite (negative : bool).

(** The double nearest to the integer [n >= 0], ties to even: an integer
    below 2^53 is a double; a larger one keeps its 53 leading bits, rounded
    on the bits it drops; what rounds to 2^1024 or more is [Infinity]. *)
Definition to_double (n : Z) : number :=
  if n <? 2 ^ 53 then Finite n
  else
    let e := Z.log2 n - 52 in
    let q := Z.shiftr n e in
    let r := n - Z.shiftl q e in
    let half := Z.shiftl 1 (e - 1) in
    let q' :=
      if r <? half then q
      else if half <? r then q + 1
      else if Z.even q then q else q + 1 in
    let m := Z.shiftl q' e in
    if m <? 2 ^ 1024 then Finite m else Infinite false.

Definition negate (x : number) : number :=
  match x with
  | NaN => NaN
  | Finite z => Finite (- z)
  | Infinite negative => Infinite (negb negative)
  end.

(** White space and line terminators of the language: TAB, LF, VT, FF, CR
    and SP in one byte; U+00A0 in two; U+1680, U+2000 to U+200A, U+2028,
    U+2029, U+202F, U+205F, U+3000 and U+FEFF in three. *)
Definition is_space (c : ascii) : bool :=
  let n := Z.of_nat (nat_of_ascii c) in
  ((9 <=? n) && (n <=? 13)) || (n =? 32).

Definition is_space2 (a b : ascii) : bool :=
  (Z.of_nat (nat_of_ascii a) =? 194) && (Z.of_nat (nat_of_ascii b) =? 160).

Definition is_space3 (a b c : ascii) : bool :=
  let x := Z.of_nat (nat_of_ascii a) in
  let y := Z.of_nat (nat_of_ascii b) in
  let z := Z.of_nat (nat_of_ascii c) in
  ((x =? 225) && (y =? 154) && (z =? 128))
  || ((x =? 226) && (y =? 128)
      && (((128 <=? z) && (z <=? 138)) || (z =? 168) || (z =? 169) || (z =? 175)))
  || ((x =? 226) && (y =? 129) && (z =? 159))
  || ((x =? 227) && (y =? 128) && (z =? 128))
  || ((x =? 239) && (y =? 187) && (z =? 191)).

Fixpoint skip_spaces (s : string) : string :=
  match s with
  | String a s1 =>
      if is_space a then skip_spaces s1
      else
        match s1 with
        | String b s2 =>
            if is_space2 a b then skip_spaces s2
            else
              match s2 with
              | String c s3 => if is_space3 a b c then skip_spaces s3 else s
              | EmptyString => s
              end
        | EmptyString => s
        end
  | EmptyString => s
  end.

Definition digit_value (radix : Z) (c : ascii) : option Z :=
  let n := Z.of_nat (nat_of_ascii c) in
  let d :=
    if (48 <=? n) && (n <=? 57) then n - 48
    else if (97 <=? n) && (n <=? 122) then n - 87
    else if (65 <=? n) && (n <=? 90) then n - 55
    else 36 in
  if d <? radix then Some d else None.

Fixpoint read_digits (radix : Z) (s : string) (acc : option Z) : option Z :=
  match s with
  | String c s' =>
      match digit_value radix c with
      | Some d => read_digits radix s' (Some (radix * default 0 acc + d))
      | None => acc
      end
  | EmptyString => acc
  end.

Definition strip_sign (s : string) : bool * string :=
  match s with
  | String "-" s' => (true, s')
  | String "+" s' => (false, s')
  | _ => (false, s)
  end.

Definition strip_hex_prefix (s : string) : Z * string :=
  match s with
  | String "0" (String "x" s') => (16, s')
  | String "0" (String "X" s') => (16, s')
  | _ => (10, s)
  end.

(** [parseInt(x)] with no radix, for [x] a string or [undefined] (which is
    read as the string "undefined"): leading white space is skipped, then
    an optional sign, then an optional [0x] prefix, then the longest run of
    digits of the radix; no digit gives [NaN]; the integer read is rounded
    to a double and takes the sign. *)
Definition parseInt (x : option string) : number :=
  let input := match x with Some s => s | None => "undefined" end in
  let '(negative, s1) := strip_sign (skip_spaces input) in
  let '(radix, s2) := strip_hex_prefix s1 in
  match read_digits radix s2 None with
  | Some n => if negative then negate (to_double n) else to_double n
  | None => NaN
  end.

(** [n || dflt] for a number: [NaN] and 0 are falsy. *)
Definition number_or (n : number) (dflt : Z) : number :=
  match n with
  | NaN => Finite dflt
  | Finite z => if z =? 0 then Finite dflt else n
  | Infinite _ => n
  end.

(** [s.includes(t)] on strings. *)
Fixpoint string_includes (t s : string) : bool :=
  String.prefix t s ||
  match s with
  | String _ s' => string_includes t s'
  | EmptyString => false
  end.

(** [v.includes("@")] for a truthy JSON value [v]: the method of strings and
    the method of arrays (which looks for an item equal to the string);
    anything else has no such method and the call throws. *)
Definition includes_at (v : value) : outcome bool :=
  match v with
  | VStr s => Ok (string_includes "@" s)
  | VArr items =>
      Ok (existsb (fun x => match x with VStr s => String.eqb s "@" | _ => false end) items)
  | _ => Throw TypeError
  end.

(** An argument object of the ORM: a property that is [undefined] is as good
    as absent. *)
Definition strip (args : list (string * jsval)) : gmap string value :=
  list_to_map (omap (fun '(k, v) => match v with Some x => Some (k, x) | None => None end) args).

(** ** Queries *)

Definition include_agents (d : DB) (r : Relationship) : RelationshipWithAgents :=
  mkRelationshipWithAgents r (agents d !! rel_agent1Id r) (agents d !! rel_agent2Id r).

Definition find_relationship (id : string) (d : DB) : option Relationship :=
  find (fun r => String.eqb (rel_id r) id) (relationships d).

Definition find_conversation (id : string) (d : DB) : option Conversation :=
  find (fun c => String.eqb (conv_id c) id) (conversations d).

Definition include_relationship (d : DB) (e : Event) : EventWithRelationship :=
  mkEventWithRelationship e
    (match ev_relationshipId e with
     | Some rid => option_map (include_agents d) (find_relationship rid d)
     | None => None
     end).

Definition include_context (d : DB) (m : Message) : MessageWithContext :=
  mkMessageWithContext m
    (agents d !! msg_fromId m)
    (agents d !! msg_toId m)
    (option_map
       (fun c => mkConversationWithRelationship c (find_relationship (conv_relationshipId c) d))
       (find_conversation (msg_conversationId m) d)).

(** [GET /api/agents/:id] *)
Definition get_agent (id : string) (d : DB) : response AgentWithRelationships :=
  match agents d !! id with
  | Some agent =>
      Json (mkAgentWithRelationships agent
              (List.filter (fun r => String.eqb (rel_agent1Id r) id) (relationships d))
              (List.filter (fun r => String.eqb (rel_agent2Id r) id) (relationships d)))
  | None => Status 404 "Agent not found"
  end.

(** [status: { in: ["talking", "coupled"] }] *)
Definition status_in (labels : list string) (r : Relationship) : bool :=
  existsb (String.eqb (rel_status r)) labels.

(** [GET /api/relationships] *)
Definition get_relationships (d : DB) : response (list RelationshipWithAgents) :=
  Json (map (include_agents d)
          (order_by_desc rel_updatedAt
             (List.filter (status_in ["talking"; "coupled"]) (relationships d)))).

Definition event_item (e : EventWithRelationship) : Envelope FeedData :=
  mkEnvelope "event" (FeedEvent e) (ev_createdAt (ewr_event e)).

Definition message_item (m : MessageWithContext) : Envelope FeedData :=
  mkEnvelope "message" (FeedMessage m) (msg_createdAt (mwc_message m)).

(** [GET /api/villa-feed]; [query_limit] is [req.query.limit].  The ORM is
    a library outside the sources: [take_ok n] says whether it takes the
    integer [n] as [take] (it throws on a number that is beyond its
    integers, and on an infinity, which is no integer at all); both queries
    are given the same [take], so both throw or neither does, and the
    [catch] answers 500. *)
Definition get_villa_feed (take_ok : Z -> bool) (query_limit : option string) (d : DB)
  : response (list (Envelope FeedData)) :=
  match number_or (parseInt query_limit) 50 with
  | Finite limit =>
      if take_ok limit then
        let events :=
          map (include_relationship d)
            (prisma_take limit (order_by_desc ev_createdAt (List.filter ev_isPublic (events d)))) in
        let recentMessages :=
          map (include_context d)
            (prisma_take limit (order_by_desc msg_createdAt (messages d))) in
        let feed :=
          js_sort (fun a b => env_timestamp b - env_timestamp a)
            (map event_item events ++ map message_item recentMessages) in
        Json (js_slice0 limit feed)
      else Status 500 "Failed to fetch villa feed"
  | _ => Status 500 "Failed to fetch villa feed"
  end.

(** [OR: [{ isFeatured: true }, { dramaScore: { gte: 75 } }]] *)
Definition is_highlight (e : Event) : bool :=
  ev_isFeatured e || Qle_bool 75 (ev_dramaScore e).

(** [GET /api/highlights] *)
Definition get_highlights (d : DB) : response (list EventWithRelationship) :=
  Json (map (include_relationship d)
          (prisma_take 20 (order_by_desc_num ev_dramaScore (List.filter is_highlight (events d))))).

(** ** Writes *)

(** The body of [{ success: true, count, agents }] and of
    [{ success: true, id }]. *)
Record BulkResult : Type := mkBulkResult {
  bulk_success : bool;
  bulk_count : nat;
  bulk_agents : list Agent
}.

Record WaitlistResult : Type := mkWaitlistResult {
  wr_success : bool;
  wr_id : string
}.

(** The [update] object of [POST /api/agents]. *)
Definition agent_update_data (data : obj) : list (string * jsval) :=
  [ ("name", data@."name" || str "");
    ("gender", data@."gender");
    ("pronouns", data@."pronouns");
    ("datingPreference", data@."datingPreference");
    ("bio", data@."bio");
    ("interests", data@."interests");
    ("dealBreakers", data@."dealBreakers");
    ("idealPartner", data@."idealPartner");
    ("openness", data@."openness" ?? (data@."bigFive")?."openness");
    ("conscientiousness", data@."conscientiousness" ?? (data@."bigFive")?."conscientiousness");
    ("extraversion", data@."extraversion" ?? (data@."bigFive")?."extraversion");
    ("agreeableness", data@."agreeableness" ?? (data@."bigFive")?."agreeableness");
    ("neuroticism", data@."neuroticism" ?? (data@."bigFive")?."neuroticism");
    ("flirtatiousness", data@."flirtatiousness" ?? (data@."romance")?."flirtatiousness");
    ("jealousy", data@."jealousy" ?? (data@."romance")?."jealousy");
    ("commitment", data@."commitment" ?? (data@."romance")?."commitment");
    ("emotionalExpression", data@."emotionalExpression" ?? (data@."romance")?."emotionalExpression");
    ("playfulness", data@."playfulness" ?? (data@."romance")?."playfulness");
    ("attachmentStyle", data@."attachmentStyle");
    ("loveLanguage", data@."loveLanguage");
    ("status", data@."status" || str "single") ]%js.

(** Its [create] object: the same with the id in front. *)
Definition agent_create_data (data : obj) : list (string * jsval) :=
  ("id", data@."id")%js :: agent_update_data data.

(** The [update] object of [POST /api/agents/bulk]. *)
Definition bulk_update_data (data : obj) : list (string * jsval) :=
  [ ("name", data@."name" || str "");
    ("gender", data@."gender");
    ("pronouns", data@."pronouns");
    ("datingPreference", data@."datingPreference");
    ("bio", data@."bio");
    ("interests", data@."interests");
    ("dealBreakers", data@."dealBreakers");
    ("idealPartner", data@."idealPartner");
    ("openness", (data@."bigFive")?."openness" ?? data@."openness");
    ("conscientiousness", (data@."bigFive")?."conscientiousness" ?? data@."conscientiousness");
    ("extraversion", (data@."bigFive")?."extraversion" ?? data@."extraversion");
    ("agreeableness", (data@."bigFive")?."agreeableness" ?? data@."agreeableness");
    ("neuroticism", (data@."bigFive")?."neuroticism" ?? data@."neuroticism");
    ("flirtatiousness", (data@."romance")?."flirtatiousness" ?? data@."flirtatiousness");
    ("jealousy", (data@."romance")?."jealousy" ?? data@."jealousy");
    ("commitment", (data@."romance")?."commitment" ?? data@."commitment");
    ("emotionalExpression", (data@."romance")?."emotionalExpression" ?? data@."emotionalExpression");
    ("playfulness", (data@."romance")?."playfulness" ?? data@."playfulness");
    ("attachmentStyle", data@."attachmentStyle");
    ("loveLanguage", data@."loveLanguage") ]%js.

Definition bulk_create_data (data : obj) : list (string * jsval) :=
  ("id", data@."id")%js :: bulk_update_data data.

(** The item of [for (const data of agents)] as the object its properties
    are read from: reading a property of [null] throws, any other value that
    is not an object has none of the names read. *)
Definition item_fields (item : value) : outcome obj :=
  match item with
  | VNull => Throw TypeError
  | VObj fs => Ok fs
  | _ => Ok []
  end.

(** Modelled from the spec: the uniqueness constraint of the relationship
    table, which the missing schema declares.  Section 3 has it over the
    unordered pair: "at most one relationship per unordered agent pair
    (enforced by a uniqueness constraint over the pair, checked in both
    orderings on create)". *)
Definition same_pair (a1 a2 : string) (r : Relationship) : bool :=
  (String.eqb (rel_agent1Id r) a1 && String.eqb (rel_agent2Id r) a2)
  || (String.eqb (rel_agent1Id r) a2 && String.eqb (rel_agent2Id r) a1).

Definition pair_taken (a1 a2 : string) (rels : list Relationship) : bool :=
  existsb (same_pair a1 a2) rels.

(** Modelled from the spec: the waitlist keeps unique emails (section 3). *)
Definition email_taken (email : string) (entries : list WaitlistEntry) : bool :=
  existsb (fun w => String.eqb (wl_email w) email) entries.

(** Modelled from the spec: the references the missing schema declares
    (section 3): a relationship links two agents, a message belongs to a
    conversation and has a from-agent and a to-agent.  A create that names
    a row which is not there fails on the reference. *)
Definition agent_exists (id : string) (d : DB) : bool :=
  match agents d !! id with Some _ => true | None => false end.

Definition conversation_exists (id : string) (d : DB) : bool :=
  match find_conversation id d with Some _ => true | None => false end.

(** Modelled from the spec: "all timestamps are server-assigned on write"
    (section 3).  A new relationship is stamped as created and updated at the
    time of the write and has no end time; its health score, which the
    request cannot give, is the default of the schema.  An update that
    writes at least one column stamps the update time, which no request
    property names; an update with an empty [data] writes nothing, and
    stamps nothing.  A new message and a new waitlist entry get the time of
    the write as their creation time in the same way. *)
Definition new_relationship (schema : Schema) (now : Z) (id agent1Id agent2Id : string)
    (compatibilityScore : Q) (status : string) : Relationship :=
  mkRelationship id agent1Id agent2Id compatibilityScore status (healthScore_default schema)
    now now None.

Definition stamp_updatedAt (now : Z) (r : Relationship) : Relationship :=
  mkRelationship (rel_id r) (rel_agent1Id r) (rel_agent2Id r) (rel_compatibilityScore r)
    (rel_status r) (rel_healthScore r) (rel_createdAt r) now (rel_endedAt r).

(** A condition [{ column: v }] of a [where]: an [undefined] value puts no
    condition on the column (the [catch] that asks runs after a create that
    got as far as the constraint, so with two strings). *)
Definition where_eq (v : jsval) (column : string) : bool :=
  match v with
  | None => true
  | Some (VStr s) => String.eqb column s
  | Some _ => false
  end.

(** [findFirst({ where: { OR: [{ agent1Id: a, agent2Id: b },
    { agent1Id: b, agent2Id: a }] } })] *)
Definition find_first_pair (a b : jsval) (d : DB) : option Relationship :=
  find (fun r =>
          (where_eq a (rel_agent1Id r) && where_eq b (rel_agent2Id r))
          || (where_eq b (rel_agent1Id r) && where_eq a (rel_agent2Id r)))
    (relationships d).

(** Replace the first row that satisfies [p]. *)
Fixpoint update_first {A : Type} (p : A -> bool) (f : A -> A) (l : list A) : list A :=
  match l with
  | [] => []
  | x :: l' => if p x then f x :: l' else x :: update_first p f l'
  end.

(** The [data] object of [PUT /api/relationships/:id] once built: a key that
    was not assigned is [None]; [rud_endedAt] holds the [Date] made from the
    request value, [Some None] when that date is invalid. *)
Record RelationshipUpdateData : Type := mkRelationshipUpdateData {
  rud_status : jsval;
  rud_healthScore : jsval;
  rud_endedAt : option (option Z)
}.

(** [data] is still [{}]. *)
Definition rud_empty (data : RelationshipUpdateData) : bool :=
  match rud_status data, rud_healthScore data, rud_endedAt data with
  | None, None, None => true
  | _, _, _ => false
  end.

(** The clock of the server, which the store reads when it stamps a new
    row and the handler reads with [new Date()]: the time it shows, and the
    time that passes from each reading to the next (none once the list is
    used up); it does not run backwards. *)
Record Clock : Type := mkClock {
  clock_time : Z;
  clock_waits : list N
}.

Definition read_clock (c : Clock) : Z * Clock :=
  (clock_time c,
   match clock_waits c with
   | [] => c
   | wait :: rest => mkClock (clock_time c + Z.of_N wait) rest
   end).

Section Handlers.

(** The missing schema, and the [Date] constructor applied to a JSON value
    ([None] is the invalid date). *)
Context (schema : Schema) (new_Date : value -> option Z).

(** [prisma.agent.upsert({ where: { id }, update, create })] at time [now]:
    both argument objects are validated first; an existing row takes the
    properties of [update] that are not [undefined] and keeps the rest, a new
    row takes those of [create] over the column defaults. *)
Definition agent_upsert (now : Z) (id : jsval) (update create : list (string * jsval)) (d : DB)
  : outcome Agent * DB :=
  match id with
  | Some (VStr key) =>
      if agent_create_ok schema (strip create) && agent_update_ok schema (strip update) then
        match agents d !! key with
        | Some old =>
            let agent := strip update ∪ old in
            (Ok agent, set_agents d (<[key := agent]> (agents d)))
        | None =>
            let agent := strip create ∪ agent_defaults schema now in
            (Ok agent, set_agents d (<[key := agent]> (agents d)))
        end
      else (Throw ValidationError, d)
  | _ => (Throw ValidationError, d)
  end.

(** [prisma.agent.update({ where: { id }, data })] *)
Definition agent_update (id : string) (data : list (string * jsval)) (d : DB)
  : outcome Agent * DB :=
  if agent_update_ok schema (strip data) then
    match agents d !! id with
    | Some old =>
        let agent := strip data ∪ old in
        (Ok agent, set_agents d (<[id := agent]> (agents d)))
    | None => (Throw P2025, d)
    end
  else (Throw ValidationError, d).

(** [POST /api/agents] *)
Definition post_agents (now : Z) (data : obj) (d : DB) : response Agent * DB :=
  match agent_upsert now (data@."id")%js (agent_update_data data) (agent_create_data data) d with
  | (Ok agent, d') => (Json agent, d')
  | (Throw _, d') => (Status 500 "Failed to upsert agent", d')
  end.

(** The loop of [POST /api/agents/bulk]; [results] is the array pushed to. *)
Fixpoint bulk_loop (now : Z) (items : list value) (results : list Agent) (d : DB)
  : outcome (list Agent) * DB :=
  match items with
  | [] => (Ok results, d)
  | item :: rest =>
      match item_fields item with
      | Ok data =>
          match agent_upsert now (data@."id")%js (bulk_update_data data) (bulk_create_data data) d with
          | (Ok agent, d') => bulk_loop now rest (results ++ [agent]) d'
          | (Throw e, d') => (Throw e, d')
          end
      | Throw e => (Throw e, d)
      end
  end.

(** [POST /api/agents/bulk] *)
Definition post_agents_bulk (now : Z) (body : obj) (d : DB) : response BulkResult * DB :=
  match (body@."agents")%js with
  | Some (VArr items) =>
      match bulk_loop now items [] d with
      | (Ok results, d') => (Json (mkBulkResult true (length results) results), d')
      | (Throw _, d') => (Status 500 "Failed to bulk sync agents", d')
      end
  | _ => (Status 400 "agents must be an array", d)
  end.

(** [PUT /api/agents/:id/status]; [now] is [new Date()]. *)
Definition put_agent_status (now : Z) (id : string) (body : obj) (d : DB) : response Agent * DB :=
  let status := (body@."status")%js in
  let currentPartner := (body@."currentPartner")%js in
  match agent_update id
          [ ("status", status);
            ("currentPartner", (currentPartner || null)%js);
            ("lastActive", Some (VDate now)) ] d with
  | (Ok agent, d') => (Json agent, d')
  | (Throw _, d') => (Status 500 "Failed to update agent status", d')
  end.

(** [prisma.relationship.create({ data })] at time [now]; [fresh] is the id
    the store gives the new row. *)
Definition relationship_create (now : Z) (fresh : string)
    (agent1Id agent2Id compatibilityScore status : jsval) (d : DB)
  : outcome Relationship * DB :=
  match agent1Id, agent2Id, compatibilityScore, status with
  | Some (VStr a1), Some (VStr a2), Some (VNum score), Some (VStr st) =>
      if pair_taken a1 a2 (relationships d) then (Throw P2002, d)
      else if agent_exists a1 d && agent_exists a2 d then
        let r := new_relationship schema now fresh a1 a2 score st in
        (Ok r, set_relationships d (relationships d ++ [r]))
      else (Throw P2003, d)
  | _, _, _, _ => (Throw ValidationError, d)
  end.

(** [POST /api/relationships] *)
Definition post_relationships (now : Z) (fresh : string) (body : obj) (d : DB)
  : response (option RelationshipWithAgents) * DB :=
  let agent1Id := (body@."agent1Id")%js in
  let agent2Id := (body@."agent2Id")%js in
  let compatibilityScore := (body@."compatibilityScore")%js in
  let status := (body@."status")%js in
  match relationship_create now fresh agent1Id agent2Id
          (compatibilityScore || num 50)%js (status || str "talking")%js d with
  | (Ok relationship, d') => (Json (Some (include_agents d' relationship)), d')
  | (Throw e, d') =>
      if is_P2002 e then
        let existing := find_first_pair (body@."agent1Id")%js (body@."agent2Id")%js d' in
        (Json (option_map (include_agents d') existing), d')
      else (Status 500 "Failed to create relationship", d')
  end.

(** [prisma.relationship.update({ where: { id }, data })] at time [now]: the
    keys of [data] are written, the others are kept; the update time is
    stamped unless [data] is empty. *)
Definition relationship_update (now : Z) (id : string) (data : RelationshipUpdateData) (d : DB)
  : outcome Relationship * DB :=
  let status_ok :=
    match rud_status data with None | Some (VStr _) => true | Some _ => false end in
  let healthScore_ok :=
    match rud_healthScore data with None | Some (VNum _) => true | Some _ => false end in
  let endedAt_ok :=
    match rud_endedAt data with Some None => false | _ => true end in
  if status_ok && healthScore_ok && endedAt_ok then
    match find_relationship id d with
    | Some old =>
        let row :=
          mkRelationship (rel_id old) (rel_agent1Id old) (rel_agent2Id old)
            (rel_compatibilityScore old)
            (match rud_status data with Some (VStr s) => s | _ => rel_status old end)
            (match rud_healthScore data with Some (VNum q) => q | _ => rel_healthScore old end)
            (rel_createdAt old)
            (rel_updatedAt old)
            (match rud_endedAt data with Some t => t | None => rel_endedAt old end) in
        let r := if rud_empty data then row else stamp_updatedAt now row in
        (Ok r, set_relationships d
                 (update_first (fun x => String.eqb (rel_id x) id) (fun _ => r) (relationships d)))
    | None => (Throw P2025, d)
    end
  else (Throw ValidationError, d).

(** The three [if (x !== undefined) data.x = ...] of
    [PUT /api/relationships/:id]. *)
Definition relationship_update_data (body : obj) : RelationshipUpdateData :=
  let status := (body@."status")%js in
  let healthScore := (body@."healthScore")%js in
  let endedAt := (body@."endedAt")%js in
  mkRelationshipUpdateData
    (match status with Some _ => status | None => None end)
    (match healthScore with Some _ => healthScore | None => None end)
    (match endedAt with Some v => Some (new_Date v) | None => None end).

(** [PUT /api/relationships/:id] *)
Definition put_relationship (now : Z) (id : string) (body : obj) (w : World)
  : response RelationshipWithAgents * World :=
  match relationship_update now id (relationship_update_data body) (db w) with
  | (Ok r, d') =>
      let relationship := include_agents d' r in
      (Json relationship,
       mkWorld d' (emitted w ++ [mkEmission "/villa-feed" "relationship-update" (PRelationship relationship)]))
  | (Throw _, d') => (Status 500 "Failed to update relationship", mkWorld d' (emitted w))
  end.

(** [prisma.message.create({ data })]; [fresh] is the id and [created] the
    creation time the store gives the new row. *)
Definition message_create (created : Z) (fresh : string)
    (conversationId fromId toId content sentiment : jsval) (d : DB)
  : outcome Message * DB :=
  match conversationId, fromId, toId, content with
  | Some (VStr c), Some (VStr f), Some (VStr t), Some (VStr text) =>
      let label :=
        match sentiment with
        | None => Some None
        | Some VNull => Some None
        | Some (VStr s) => Some (Some s)
        | Some _ => None
        end in
      match label with
      | Some sentiment' =>
          if conversation_exists c d && agent_exists f d && agent_exists t d then
            let m := mkMessage fresh c f t text sentiment' created in
            (Ok m, set_messages d (messages d ++ [m]))
          else (Throw P2003, d)
      | None => (Throw ValidationError, d)
      end
  | _, _, _, _ => (Throw ValidationError, d)
  end.

(** [prisma.conversation.update({ where: { id }, data: { lastMessageAt } })] *)
Definition conversation_touch (id : jsval) (lastMessageAt : Z) (d : DB)
  : outcome Conversation * DB :=
  match id with
  | Some (VStr key) =>
      match find_conversation key d with
      | Some old =>
          let c :=
            mkConversation (conv_id old) (conv_relationshipId old) lastMessageAt
              (conv_dramaScore old) (conv_viralPotential old) in
          (Ok c, set_conversations d
                   (update_first (fun x => String.eqb (conv_id x) key) (fun _ => c) (conversations d)))
      | None => (Throw P2025, d)
      end
  | _ => (Throw ValidationError, d)
  end.

(** [POST /api/messages]: the store reads the clock when it creates the
    message, and the handler reads it again, with [new Date()], once the
    message is there. *)
Definition post_messages (clock : Clock) (fresh : string) (body : obj) (w : World)
  : response MessageWithAgents * World :=
  let conversationId := (body@."conversationId")%js in
  let fromId := (body@."fromId")%js in
  let toId := (body@."toId")%js in
  let content := (body@."content")%js in
  let sentiment := (body@."sentiment")%js in
  let '(created, clock1) := read_clock clock in
  match message_create created fresh conversationId fromId toId content
          (sentiment || null)%js (db w) with
  | (Ok m, d1) =>
      let message := mkMessageWithAgents m (agents d1 !! msg_fromId m) (agents d1 !! msg_toId m) in
      let '(now, _) := read_clock clock1 in
      match conversation_touch conversationId now d1 with
      | (Ok _, d2) =>
          (Json message,
           mkWorld d2
             (emitted w ++
              [mkEmission "/villa-feed" "new-message"
                 (PMessage (mkEnvelope "message" message (msg_createdAt m)))]))
      | (Throw _, d2) => (Status 500 "Failed to create message", mkWorld d2 (emitted w))
      end
  | (Throw _, d1) => (Status 500 "Failed to create message", mkWorld d1 (emitted w))
  end.

(** [prisma.waitlistEntry.create({ data: { email } })] *)
Definition waitlist_create (now : Z) (fresh : string) (email : jsval) (d : DB)
  : outcome WaitlistEntry * DB :=
  match email with
  | Some (VStr e) =>
      if email_taken e (waitlist d) then (Throw P2002, d)
      else
        let entry := mkWaitlistEntry fresh e now in
        (Ok entry, set_waitlist d (waitlist d ++ [entry]))
  | _ => (Throw ValidationError, d)
  end.

(** The [catch] of [POST /api/waitlist]. *)
Definition waitlist_catch (e : exn) : response WaitlistResult :=
  if is_P2002 e then Status 400 "Email already registered"
  else Status 500 "Failed to add to waitlist".

(** [POST /api/waitlist] *)
Definition post_waitlist (now : Z) (fresh : string) (body : obj) (d : DB)
  : response WaitlistResult * DB :=
  let email := (body@."email")%js in
  match email with
  | Some v =>
      if truthy email then
        match includes_at v with
        | Ok true =>
            match waitlist_create now fresh email d with
            | (Ok entry, d') => (Json (mkWaitlistResult true (wl_id entry)), d')
            | (Throw e, d') => (waitlist_catch e, d')
            end
        | Ok false => (Status 400 "Invalid email", d)
        | Throw e => (waitlist_catch e, d)
        end
      else (Status 400 "Invalid email", d)
  | None => (Status 400 "Invalid email", d)
  end.

End Handlers.

(** ** The routes and socket handlers the claims leave out *)

(** What these emit on a socket namespace. *)
Inductive Notice : Type :=
| NClientCount (n : Z)
| NConversation (c : Conversation)
| NEvent (e : Envelope Event).

Record Broadcast : Type := mkBroadcast {
  bc_namespace : string;
  bc_event : string;
  bc_payload : Notice
}.

(** The two counters of the process, [villaFeedClients] and
    [conversationsClients]; both start at 0. *)
Record Clients : Type := mkClients {
  villaFeedClients : Z;
  conversationsClients : Z
}.

Definition clients_start : Clients := mkClients 0 0.

Inductive Namespace : Type := VillaFeed | Conversations.

(** What happens on a namespace: a socket connects, or a socket that had
    connected disconnects. *)
Inductive SocketEvent : Type :=
| Connection (ns : Namespace)
| Disconnect (ns : Namespace).

(** [villaFeed.on("connection", ...)] and the [disconnect] handler it
    installs: the counter moves and its new value goes out as
    "client-count". *)
Definition villaFeed_connection (c : Clients) : Clients * list Broadcast :=
  let c' := mkClients (villaFeedClients c + 1) (conversationsClients c) in
  (c', [mkBroadcast "/villa-feed" "client-count" (NClientCount (villaFeedClients c'))]).

Definition villaFeed_disconnect (c : Clients) : Clients * list Broadcast :=
  let c' := mkClients (villaFeedClients c - 1) (conversationsClients c) in
  (c', [mkBroadcast "/villa-feed" "client-count" (NClientCount (villaFeedClients c'))]).

(** [conversations.on("connection", ...)] and its [disconnect] handler: the
    counter moves, nothing goes out. *)
Definition conversations_connection (c : Clients) : Clients * list Broadcast :=
  (mkClients (villaFeedClients c) (conversationsClients c + 1), []).

Definition conversations_disconnect (c : Clients) : Clients * list Broadcast :=
  (mkClients (villaFeedClients c) (conversationsClients c - 1), []).

Definition socket_step (c : Clients) (e : SocketEvent) : Clients * list Broadcast :=
  match e with
  | Connection VillaFeed => villaFeed_connection c
  | Disconnect VillaFeed => villaFeed_disconnect c
  | Connection Conversations => conversations_connection c
  | Disconnect Conversations => conversations_disconnect c
  end.

(** The handlers run one after the other, in the order the events come. *)
Fixpoint socket_run (c : Clients) (es : list SocketEvent) : Clients * list Broadcast :=
  match es with
  | [] => (c, [])
  | e :: es' =>
      let '(c1, out1) := socket_step c e in
      let '(c2, out2) := socket_run c1 es' in
      (c2, out1 ++ out2)
  end.

(** The body of [GET /api/ws-status], [{ connected: { villaFeed,
    conversations, total } }]. *)
Record WsStatus : Type := mkWsStatus {
  ws_villaFeed : Z;
  ws_conversations : Z;
  ws_total : Z
}.

(** [GET /api/ws-status] *)
Definition get_ws_status (c : Clients) : response WsStatus :=
  Json (mkWsStatus (villaFeedClients c) (conversationsClients c)
          (villaFeedClients c + conversationsClients c)).

(** Modelled from the spec: an agent row has a creation timestamp (section
    3), which the list of agents is ordered by; the schema parameter puts it
    in a new row, and 0 stands in for a row that has none. *)
Definition agent_createdAt (a : gmap string value) : Z :=
  match a !! "createdAt" with
  | Some (VDate t) => t
  | _ => 0
  end.

(** [GET /api/agents] *)
Definition get_agents (d : DB) : response (list Agent) :=
  Json (order_by_desc agent_createdAt (map snd (map_to_list (agents d)))).

(** The part of the missing schema that the creation of a conversation
    depends on, taken as a parameter: what a new conversation holds in the
    columns the request cannot give. *)
Record ConversationDefaults : Type := mkConversationDefaults {
  lastMessageAt_default : Z -> Z;
  dramaScore_default : Q;
  viralPotential_default : Q
}.

(** Modelled from the spec: a conversation belongs to a relationship, and an
    event may reference one (section 3); a create that names a relationship
    which is not there fails on the reference.  The agents an event is
    connected to must be there as well. *)
Definition relationship_exists (id : string) (d : DB) : bool :=
  match find_relationship id d with Some _ => true | None => false end.

Definition set_events (d : DB) (e : list Event) : DB :=
  mkDB (agents d) (relationships d) (conversations d) (messages d) e (waitlist d).

(** The strings of an array of strings. *)
Fixpoint strings_of (items : list value) : option (list string) :=
  match items with
  | [] => Some []
  | VStr s :: rest =>
      match strings_of rest with
      | Some l => Some (s :: l)
      | None => None
      end
  | _ :: _ => None
  end.

(** [agentsInvolved ? agentsInvolved.map((id) => ({ id })) : []]: the ids to
    connect.  A truthy value that is not an array has no [map]. *)
Definition connect_agents (agentsInvolved : jsval) : outcome (list value) :=
  if truthy agentsInvolved then
    match agentsInvolved with
    | Some (VArr items) => Ok items
    | _ => Throw TypeError
    end
  else Ok [].

Section OtherHandlers.

Context (conversation_defaults : ConversationDefaults).

(** [prisma.conversation.create({ data: { relationshipId } })] at time
    [now]; [fresh] is the id the store gives the new row. *)
Definition conversation_create (now : Z) (fresh : string) (relationshipId : jsval) (d : DB)
  : outcome Conversation * DB :=
  match relationshipId with
  | Some (VStr r) =>
      if relationship_exists r d then
        let c :=
          mkConversation fresh r (lastMessageAt_default conversation_defaults now)
            (dramaScore_default conversation_defaults)
            (viralPotential_default conversation_defaults) in
        (Ok c, set_conversations d (conversations d ++ [c]))
      else (Throw P2003, d)
  | _ => (Throw ValidationError, d)
  end.

(** [POST /api/conversations]; the third component is what goes out on the
    sockets. *)
Definition post_conversations (now : Z) (fresh : string) (body : obj) (d : DB)
  : response Conversation * DB * list Broadcast :=
  let relationshipId := (body@."relationshipId")%js in
  match conversation_create now fresh relationshipId d with
  | (Ok conversation, d') =>
      (Json conversation, d',
       [mkBroadcast "/conversations" "new-conversation" (NConversation conversation)])
  | (Throw _, d') => (Status 500 "Failed to create conversation", d', [])
  end.

(** [prisma.conversation.update({ where: { id }, data: { dramaScore,
    viralPotential } })]: a key that is [undefined] is not written. *)
Definition conversation_update_drama (id : string) (dramaScore viralPotential : jsval) (d : DB)
  : outcome Conversation * DB :=
  let dramaScore_ok :=
    match dramaScore with None | Some (VNum _) => true | Some _ => false end in
  let viralPotential_ok :=
    match viralPotential with None | Some (VNum _) => true | Some _ => false end in
  if dramaScore_ok && viralPotential_ok then
    match find_conversation id d with
    | Some old =>
        let c :=
          mkConversation (conv_id old) (conv_relationshipId old) (conv_lastMessageAt old)
            (match dramaScore with Some (VNum q) => q | _ => conv_dramaScore old end)
            (match viralPotential with Some (VNum q) => q | _ => conv_viralPotential old end) in
        (Ok c, set_conversations d
                 (update_first (fun x => String.eqb (conv_id x) id) (fun _ => c) (conversations d)))
    | None => (Throw P2025, d)
    end
  else (Throw ValidationError, d).

(** [PUT /api/conversations/:id/drama] *)
Definition put_conversation_drama (id : string) (body : obj) (d : DB)
  : response Conversation * DB :=
  let dramaScore := (body@."dramaScore")%js in
  let viralPotential := (body@."viralPotential")%js in
  match conversation_update_drama id
          (dramaScore ?? None)%js (viralPotential ?? None)%js d with
  | (Ok conversation, d') => (Json conversation, d')
  | (Throw _, d') => (Status 500 "Failed to update conversation drama", d')
  end.

(** [prisma.event.create({ data })] at time [now]; [fresh] is the id the
    store gives the new row, [connect] the ids of [agents: { connect }]. *)
Definition event_create (now : Z) (fresh : string)
    (type agentsInvolved description dramaScore isPublic isFeatured relationshipId : jsval)
    (connect : list value) (d : DB)
  : outcome Event * DB :=
  match type, agentsInvolved, description, dramaScore, isPublic, isFeatured with
  | Some (VStr ty), Some (VArr involved), Some (VStr text), Some (VNum score),
    Some (VBool public), Some (VBool featured) =>
      let reference :=
        match relationshipId with
        | None => Some None
        | Some VNull => Some None
        | Some (VStr r) => Some (Some r)
        | Some _ => None
        end in
      match strings_of involved, strings_of connect, reference with
      | Some names, Some ids, Some relationshipId' =>
          if forallb (fun id => agent_exists id d) ids then
            if match relationshipId' with
               | Some r => relationship_exists r d
               | None => true
               end
            then
              let e := mkEvent fresh ty names relationshipId' text score public featured now in
              (Ok e, set_events d (events d ++ [e]))
            else (Throw P2003, d)
          else (Throw P2025, d)
      | _, _, _ => (Throw ValidationError, d)
      end
  | _, _, _, _, _, _ => (Throw ValidationError, d)
  end.

(** [POST /api/events]; the third component is what goes out on the
    sockets. *)
Definition post_events (now : Z) (fresh : string) (body : obj) (d : DB)
  : response Event * DB * list Broadcast :=
  let type := (body@."type")%js in
  let agentsInvolved := (body@."agentsInvolved")%js in
  let relationshipId := (body@."relationshipId")%js in
  let description := (body@."description")%js in
  let dramaScore := (body@."dramaScore")%js in
  let isPublic := (body@."isPublic")%js in
  let isFeatured := (body@."isFeatured")%js in
  match connect_agents agentsInvolved with
  | Ok connectAgents =>
      match event_create now fresh
              type
              (agentsInvolved || Some (VArr []))%js
              description
              (dramaScore || num 50)%js
              (match isPublic with Some _ => isPublic | None => Some (VBool true) end)
              (isFeatured || Some (VBool false))%js
              (relationshipId || null)%js
              connectAgents d with
      | (Ok event, d') =>
          (Json event, d',
           [mkBroadcast "/villa-feed" "new-event"
              (NEvent (mkEnvelope "event" event (ev_createdAt event)))])
      | (Throw _, d') => (Status 500 "Failed to create event", d', [])
      end
  | Throw _ => (Status 500 "Failed to create event", d, [])
  end.

End OtherHandlers.

(** ** A store and a schema to run the handlers on *)

(** Modelled from the spec: one schema that fits the data model, used where
    a handler is evaluated on a concrete request: text columns hold strings,
    trait columns numbers, the two list columns arrays, the partner
    reference a string or null; a new agent is single, has no partner and is
    stamped with the time of its creation. *)
Definition sample_column_ok (k : string) (v : value) : bool :=
  if existsb (String.eqb k)
       ["id"; "name"; "gender"; "pronouns"; "datingPreference"; "bio"; "idealPartner";
        "attachmentStyle"; "loveLanguage"; "status"]
  then match v with VStr _ => true | _ => false end
  else if existsb (String.eqb k)
       ["openness"; "conscientiousness"; "extraversion"; "agreeableness"; "neuroticism";
        "flirtatiousness"; "jealousy"; "commitment"; "emotionalExpression"; "playfulness"]
  then match v with VNum _ => true | _ => false end
  else if existsb (String.eqb k) ["interests"; "dealBreakers"]
  then match v with VArr _ => true | _ => false end
  else if String.eqb k "currentPartner"
  then match v with VStr _ | VNull => true | _ => false end
  else if String.eqb k "lastActive"
  then match v with VDate _ => true | _ => false end
  else false.

Definition sample_args_ok (args : gmap string value) : bool :=
  forallb (fun '(k, v) => sample_column_ok k v) (map_to_list args).

Definition sample_schema : Schema :=
  mkSchema
    (fun now => list_to_map
       [("status", VStr "single"); ("currentPartner", VNull);
        ("createdAt", VDate now); ("lastActive", VDate now)])
    sample_args_ok
    sample_args_ok
    (inject_Z 100).

(** A [Date] constructor that knows one date string, reads a number as
    milliseconds and null as the epoch. *)
Definition sample_Date (v : value) : option Z :=
  match v with
  | VStr s => if String.eqb s "2026-03-01T00:00:00.000Z" then Some 1772323200000 else None
  | VNum q => Some (if Qle_bool 0 q then Qfloor q else Qceiling q)
  | VNull => Some 0
  | _ => None
  end.

Definition ada : gmap string value :=
  list_to_map
    [("id", VStr "ada"); ("name", VStr "Ada"); ("status", VStr "coupled");
     ("currentPartner", VStr "bob"); ("openness", VNum (inject_Z 80));
     ("createdAt", VDate 1000); ("lastActive", VDate 1000)].

Definition bob : gmap string value :=
  list_to_map
    [("id", VStr "bob"); ("name", VStr "Bob"); ("status", VStr "coupled");
     ("currentPartner", VStr "ada");
     ("createdAt", VDate 1100); ("lastActive", VDate 1100)].

Definition cyd : gmap string value :=
  list_to_map
    [("id", VStr "cyd"); ("name", VStr "Cyd"); ("status", VStr "single");
     ("currentPartner", VNull);
     ("createdAt", VDate 1200); ("lastActive", VDate 1200)].

Definition eve : gmap string value :=
  list_to_map
    [("id", VStr "eve"); ("name", VStr "Eve"); ("status", VStr "single");
     ("currentPartner", VNull);
     ("createdAt", VDate 1300); ("lastActive", VDate 1300)].

Definition sample_db : DB :=
  mkDB
    (list_to_map [("ada", ada); ("bob", bob); ("cyd", cyd); ("eve", eve)])
    [ mkRelationship "r1" "ada" "bob" (inject_Z 90) "coupled" (inject_Z 70) 2000 5000 None;
      mkRelationship "r2" "bob" "cyd" (inject_Z 40) "ended" (inject_Z 10) 2100 6000 (Some 6000);
      mkRelationship "r3" "cyd" "ada" (inject_Z 55) "talking" (inject_Z 60) 2200 7000 None ]
    [ mkConversation "c1" "r1" 3000 (inject_Z 10) (inject_Z 5) ]
    [ mkMessage "m1" "c1" "ada" "bob" "hello" None 3000;
      mkMessage "m2" "c1" "bob" "ada" "hi" (Some "warm") 3500 ]
    [ mkEvent "e1" "date" ["ada"; "bob"] (Some "r1") "first date" (inject_Z 60) true false 3200;
      mkEvent "e2" "fight" ["ada"; "bob"] (Some "r1") "a row" (inject_Z 90) true false 3600;
      mkEvent "e3" "secret" ["cyd"] None "a secret" (inject_Z 20) false true 3700 ]
    [ mkWaitlistEntry "w1" "zed@example.org" 900 ].

Definition sample_world : World := mkWorld sample_db [].

(** An ORM whose integers have 64 bits. *)
Definition sample_take_ok (n : Z) : bool := (- 2 ^ 63 <=? n) && (n <? 2 ^ 63).

(** A profile for a new agent: one trait given flat and nested, one only
    nested, no name and no status. *)
Definition dee_profile : obj :=
  [ ("id", VStr "dee"); ("gender", VStr "f");
    ("openness", VNum (inject_Z 7));
    ("bigFive", VObj [("openness", VNum (inject_Z 5)); ("neuroticism", VNum (inject_Z 3))]) ].

(** A bulk request: the new profile, and Ada again with a status. *)
Definition sample_bulk : obj :=
  [ ("agents",
     VArr [ VObj dee_profile;
            VObj [("id", VStr "ada"); ("name", VStr "Ada L."); ("status", VStr "single")] ]) ].

(** Ada's profile without a status, alone and as a bulk request. *)
Definition ada_profile : obj := [("id", VStr "ada"); ("name", VStr "Ada")].

Definition ada_bulk : obj := [("agents", VArr [VObj ada_profile])].

(** A body that ends a relationship. *)
Definition ending : obj :=
  [("status", VStr "ended"); ("endedAt", VStr "2026-03-01T00:00:00.000Z")].

(** A message from Ada to Bob in their conversation. *)
Definition see_you : obj :=
  [ ("conversationId", VStr "c1"); ("fromId", VStr "ada"); ("toId", VStr "bob");
    ("content", VStr "see you"); ("sentiment", VStr "fond") ].

(** ** Vocabulary of the properties *)

(** What the feed says of an item: the tag names the kind of its data and
    the timestamp is the creation time of that row. *)
Definition tagged (item : Envelope FeedData) : Prop :=
  match env_data item with
  | FeedEvent e => env_type item = "event" /\ env_timestamp item = ev_createdAt (ewr_event e)
  | FeedMessage m => env_type item = "message" /\ env_timestamp item = msg_createdAt (mwc_message m)
  end.

(** What an argument object writes in column [k]: the value of its
    property [k], [None] when it has none or an [undefined] one. *)
Fixpoint written (k : string) (args : list (string * jsval)) : jsval :=
  match args with
  | [] => None
  | (k', v) :: rest =>
      if String.eqb k k' then
        match v with
        | Some x => Some x
        | None => written k rest
        end
      else written k rest
  end.

(** The ten trait columns with the nested object each can come from, and
    the nine columns copied as they are. *)
Definition trait_fields : list (string * string) :=
  [ ("openness", "bigFive"); ("conscientiousness", "bigFive"); ("extraversion", "bigFive");
    ("agreeableness", "bigFive"); ("neuroticism", "bigFive");
    ("flirtatiousness", "romance"); ("jealousy", "romance"); ("commitment", "romance");
    ("emotionalExpression", "romance"); ("playfulness", "romance") ].

Definition plain_fields : list string :=
  [ "gender"; "pronouns"; "datingPreference"; "bio"; "interests"; "dealBreakers";
    "idealPartner"; "attachmentStyle"; "loveLanguage" ].

(** The row a new agent starts from, or the stored row of an agent that
    exists. *)
Definition row_before (schema : Schema) (now : Z) (id : string) (d : DB) : gmap string value :=
  default (agent_defaults schema now) (agents d !! id).

(** An item of a bulk request that the loop can upsert: its properties can
    be read, its id is a string and the schema accepts both argument
    objects. *)
Definition bulk_item_ok (schema : Schema) (item : value) : bool :=
  match item_fields item with
  | Ok data =>
      match prop data "id" with
      | Some (VStr _) =>
          agent_create_ok schema (strip (bulk_create_data data))
          && agent_update_ok schema (strip (bulk_update_data data))
      | _ => false
      end
  | Throw _ => false
  end.

(** The optional properties of a [POST /api/relationships] body, once
    defaulted, are a number and a string. *)
Definition rel_options_ok (body : obj) : bool :=
  match js_or (prop body "compatibilityScore") (num 50),
        js_or (prop body "status") (str "talking") with
  | Some (VNum _), Some (VStr _) => true
  | _, _ => false
  end.

(** The three properties of a [PUT /api/relationships/:id] body, where
    present, are a string, a number and a value that makes a valid date. *)
Definition rel_update_ok (new_Date : value -> option Z) (body : obj) : bool :=
  match prop body "status" with None | Some (VStr _) => true | Some _ => false end
  && match prop body "healthScore" with None | Some (VNum _) => true | Some _ => false end
  && match prop body "endedAt" with
     | None => true
     | Some v => match new_Date v with Some _ => true | None => false end
     end.

(** The sentiment of a [POST /api/messages] body, once defaulted, is null
    or a string. *)
Definition sentiment_ok (body : obj) : bool :=
  match js_or (prop body "sentiment") null with
  | Some VNull | Some (VStr _) => true
  | _ => false
  end.

(** Counting the events of one kind in a run of the sockets. *)
Definition is_event (e e' : SocketEvent) : bool :=
  match e, e' with
  | Connection VillaFeed, Connection VillaFeed => true
  | Connection Conversations, Connection Conversations => true
  | Disconnect VillaFeed, Disconnect VillaFeed => true
  | Disconnect Conversations, Disconnect Conversations => true
  | _, _ => false
  end.

Definition occurrences (e : SocketEvent) (es : list SocketEvent) : nat :=
  length (List.filter (is_event e) es).

Definition on_villa_feed (e : SocketEvent) : bool :=
  match e with
  | Connection VillaFeed | Disconnect VillaFeed => true
  | _ => false
  end.

(** A run in which only sockets that are connected disconnect: [vf] and [cv]
    are the numbers of sockets connected to the two namespaces when the run
    starts. *)
Fixpoint balanced (vf cv : nat) (es : list SocketEvent) : bool :=
  match es with
  | [] => true
  | Connection VillaFeed :: rest => balanced (S vf) cv rest
  | Connection Conversations :: rest => balanced vf (S cv) rest
  | Disconnect VillaFeed :: rest =>
      match vf with
      | O => false
      | S n => balanced n cv rest
      end
  | Disconnect Conversations :: rest =>
      match cv with
      | O => false
      | S n => balanced vf n rest
      end
  end.

(** The count a "client-count" broadcast carries. *)
Definition client_count (b : Broadcast) : option Z :=
  match bc_payload b with
  | NClientCount n => Some n
  | _ => None
  end.

(** Two villa-feed sockets and one conversations socket come and go. *)
Definition sample_run : list SocketEvent :=
  [ Connection VillaFeed; Connection Conversations; Connection VillaFeed;
    Disconnect VillaFeed; Disconnect Conversations ].

(** The id a bulk item names, when it names one. *)
Definition item_id (item : value) : option string :=
  match item_fields item with
  | Ok data =>
      match prop data "id" with
      | Some (VStr id) => Some id
      | _ => None
      end
  | Throw _ => None
  end.

(** A bulk request whose second item has no id. *)
Definition broken_bulk : obj :=
  [ ("agents",
     VArr ([VObj dee_profile] ++ VObj [("name", VStr "Nobody")] :: [VObj ada_profile])) ].

(** No two stored relationships are of the same pair, in either order. *)
Fixpoint pairs_unique (rels : list Relationship) : bool :=
  match rels with
  | [] => true
  | r :: rest =>
      negb (pair_taken (rel_agent1Id r) (rel_agent2Id r) rest) && pairs_unique rest
  end.

(** Every stored relationship names two stored agents. *)
Definition agents_referenced (d : DB) : bool :=
  forallb (fun r => agent_exists (rel_agent1Id r) d && agent_exists (rel_agent2Id r) d)
    (relationships d).

(** A first request for Ada and Eve. *)
Definition ada_eve : obj := [("agent1Id", VStr "ada"); ("agent2Id", VStr "eve")].

(** The two scores of a [PUT /api/conversations/:id/drama] body are, each,
    absent, null or a number. *)
Definition drama_ok (body : obj) : bool :=
  match prop body "dramaScore" with None | Some VNull | Some (VNum _) => true | Some _ => false end
  && match prop body "viralPotential" with
     | None | Some VNull | Some (VNum _) => true
     | Some _ => false
     end.

(** Defaults for a new conversation, to run the handlers on. *)
Definition sample_conversation_defaults : ConversationDefaults :=
  mkConversationDefaults (fun now => now) (inject_Z 0) (inject_Z 0).

(** A body that rates a conversation and leaves its viral potential alone. *)
Definition rating : obj := [("dramaScore", VNum (inject_Z 88)); ("viralPotential", VNull)].

(** A private event with a drama score of 0 and a public one. *)
Definition whisper : obj :=
  [ ("type", VStr "whisper"); ("description", VStr "something quiet");
    ("agentsInvolved", VArr [VStr "cyd"]); ("dramaScore", VNum (inject_Z 0));
    ("isPublic", VBool false) ].

Definition breakup : obj :=
  [ ("type", VStr "breakup"); ("description", VStr "it is over");
    ("agentsInvolved", VArr [VStr "ada"; VStr "bob"]); ("relationshipId", VStr "r1");
    ("dramaScore", VNum (inject_Z 95)) ].

(** A [POST /api/events] body the store takes: type and description are
    strings; the drama score, the two flags and the relationship, once
    defaulted, are a number, two booleans and null or a stored relationship;
    the agents involved are nothing, or an array of ids of stored agents. *)
Definition event_body_ok (d : DB) (body : obj) : bool :=
  match prop body "type", prop body "description" with
  | Some (VStr _), Some (VStr _) =>
      match js_or (prop body "dramaScore") (num 50) with
      | Some (VNum _) => true
      | _ => false
      end
      && match prop body "isPublic" with
         | None | Some (VBool _) => true
         | Some _ => false
         end
      && match js_or (prop body "isFeatured") (Some (VBool false)) with
         | Some (VBool _) => true
         | _ => false
         end
      && match js_or (prop body "relationshipId") null with
         | Some VNull => true
         | Some (VStr r) => relationship_exists r d
         | _ => false
         end
      && (if truthy (prop body "agentsInvolved") then
            match prop body "agentsInvolved" with
            | Some (VArr items) =>
                match strings_of items with
                | Some ids => forallb (fun id => agent_exists id d) ids
                | None => false
                end
            | _ => false
            end
          else true)
  | _, _ => false
  end.

(** The waitlist as the route keeps it: no email twice, every email with
    an "@". *)
Definition waitlist_sound (d : DB) : Prop :=
  List.NoDup (map wl_email (waitlist d))
  /\ List.Forall (fun w => string_includes "@" (wl_email w) = true) (waitlist d).

(** A request to join the waitlist. *)
Definition amy : obj := [("email", VStr "amy@example.org")].

(** A status report that names a partner. *)
Definition coupled_with_cyd : obj :=
  [("status", VStr "coupled"); ("currentPartner", VStr "cyd")].

(** What the clock shows at the second reading from now. *)
Definition second_reading (c : Clock) : Z := fst (read_clock (snd (read_clock c))).

(** A clock at 9000 on which two units pass before the second reading. *)
Definition sample_clock : Clock := mkClock 9000 [2%N; 3%N].

(** The columns the agent routes take from a request, the id apart. *)
Definition agent_columns : list string :=
  "name" :: "status" :: map fst trait_fields ++ plain_fields.

(** A profile with a name and a status, one trait given as null beside a
    nested value, and a nested object that is not an object. *)
Definition fay_profile : obj :=
  [ ("id", VStr "ada"); ("name", VStr "Fay"); ("status", VStr "talking");
    ("jealousy", VNull); ("romance", VObj [("jealousy", VNum (inject_Z 4))]);
    ("openness", VNull); ("bigFive", VStr "none") ].

(** ** Properties of the helpers *)

Section Sorting.

Context {A : Type} (ok : A -> A -> bool).
Hypothesis ok_total : forall a b, ok a b = false -> ok b a = true.
Hypothesis ok_trans : forall a b c, ok a b = true -> ok b c = true -> ok a c = true.

Lemma insert_by_perm (x : A) (l : list A) : Permutation (insert_by ok x l) (x :: l).
Proof.
  induction l as [|y l IH]; simpl; [reflexivity|].
  destruct (ok x y); [reflexivity|].
  rewrite IH. apply perm_swap.
Qed.

Lemma sort_by_perm (l : list A) : Permutation (sort_by ok l) l.
Proof.
  induction l as [|x l IH]; simpl; [reflexivity|].
  rewrite insert_by_perm. now constructor.
Qed.

Lemma sort_by_length (l : list A) : length (sort_by ok l) = length l.
Proof. apply Permutation_length, sort_by_perm. Qed.

Lemma insert_by_sorted (x : A) (l : list A) :
  StronglySorted (fun a b => ok a b = true) l ->
  StronglySorted (fun a b => ok a b = true) (insert_by ok x l).
Proof.
  induction 1 as [|y l Hl IH Hy]; simpl.
  - repeat constructor.
  - destruct (ok x y) eqn:Hxy.
    + constructor; [now constructor|].
      constructor; [exact Hxy|].
      eapply Forall_impl; [exact Hy|].
      intros z Hz. simpl in Hz. now apply ok_trans with y.
    + constructor; [exact IH|].
      rewrite insert_by_perm. constructor; [now apply ok_total|exact Hy].
Qed.

Lemma sort_by_sorted (l : list A) :
  StronglySorted (fun a b => ok a b = true) (sort_by ok l).
Proof.
  induction l as [|x l IH]; simpl; [constructor|].
  now apply insert_by_sorted.
Qed.

(** The first [n] rows of a sorted query: they are [n] of the rows (all of
    them when there are fewer), in order, and none of the rows left out
    would have to come before one of them. *)
Lemma sort_by_top (n : nat) (l : list A) :
  let top := firstn n (sort_by ok l) in
  let rest := skipn n (sort_by ok l) in
  Permutation (top ++ rest) l
  /\ length top = Nat.min n (length l)
  /\ StronglySorted (fun a b => ok a b = true) top
  /\ (forall x y, In x top -> In y rest -> ok x y = true).
Proof.
  intros top rest. subst top rest.
  pose proof (sort_by_sorted l) as Hs.
  rewrite <- (firstn_skipn n (sort_by ok l)) in Hs.
  apply StronglySorted_app in Hs. destruct Hs as (Hcross & Htop & _).
  split; [rewrite firstn_skipn; apply sort_by_perm|].
  split; [rewrite length_firstn, sort_by_length; reflexivity|].
  split; [exact Htop|].
  intros x y Hx Hy. apply Hcross; now apply list_elem_of_In.
Qed.

End Sorting.

Lemma firstn_sorted {A : Type} (R : A -> A -> Prop) (n : nat) (l : list A) :
  StronglySorted R l -> StronglySorted R (firstn n l).
Proof.
  intros Hs. rewrite <- (firstn_skipn n l) in Hs.
  now apply StronglySorted_app_1_l in Hs.
Qed.

Lemma sorted_impl {A : Type} (R R' : A -> A -> Prop) (l : list A) :
  (forall a b, R a b -> R' a b) -> StronglySorted R l -> StronglySorted R' l.
Proof.
  intros HR. induction 1 as [|x l Hl IH Hx]; constructor; [exact IH|].
  eapply Forall_impl; [exact Hx|]. intros y. apply HR.
Qed.

Lemma map_sorted {A B : Type} (R : A -> A -> Prop) (R' : B -> B -> Prop) (f : A -> B) (l : list A) :
  (forall a b, R a b -> R' (f a) (f b)) ->
  StronglySorted R l -> StronglySorted R' (map f l).
Proof.
  intros Hf. induction 1 as [|x l Hl IH Hx]; simpl; constructor; [exact IH|].
  apply List.Forall_forall. intros y Hy. apply in_map_iff in Hy.
  destruct Hy as (a & <- & Ha). apply Hf.
  rewrite List.Forall_forall in Hx. now apply Hx.
Qed.

Lemma date_order_total (A : Type) (key : A -> Z) (a b : A) :
  (key b <=? key a) = false -> (key a <=? key b) = true.
Proof. rewrite Z.leb_gt, Z.leb_le. lia. Qed.

Lemma date_order_trans (A : Type) (key : A -> Z) (a b c : A) :
  (key b <=? key a) = true -> (key c <=? key b) = true -> (key c <=? key a) = true.
Proof. rewrite !Z.leb_le. lia. Qed.

Lemma num_order_total (A : Type) (key : A -> Q) (a b : A) :
  Qle_bool (key b) (key a) = false -> Qle_bool (key a) (key b) = true.
Proof.
  intros H. apply Qle_bool_iff.
  destruct (Qlt_le_dec (key a) (key b)) as [Hlt|Hle]; [now apply Qlt_le_weak|].
  apply Qle_bool_iff in Hle. congruence.
Qed.

Lemma num_order_trans (A : Type) (key : A -> Q) (a b c : A) :
  Qle_bool (key b) (key a) = true -> Qle_bool (key c) (key b) = true ->
  Qle_bool (key c) (key a) = true.
Proof. rewrite !Qle_bool_iff. intros H1 H2. now apply Qle_trans with (key b). Qed.

Lemma status_in_active (r : Relationship) :
  status_in ["talking"; "coupled"] r = true <->
  rel_status r = "talking" \/ rel_status r = "coupled".
Proof.
  unfold status_in. simpl. rewrite !orb_true_iff, !String.eqb_eq.
  intuition discriminate.
Qed.

Lemma prisma_take_pos {A : Type} (n : Z) (l : list A) :
  0 <= n -> prisma_take n l = firstn (Z.to_nat n) l.
Proof. intros H. unfold prisma_take. now rewrite (proj2 (Z.leb_le 0 n) H). Qed.

Lemma js_slice0_pos {A : Type} (n : Z) (l : list A) :
  0 <= n -> js_slice0 n l = firstn (Z.to_nat n) l.
Proof. intros H. unfold js_slice0. now rewrite (proj2 (Z.leb_le 0 n) H). Qed.

Lemma number_or_nonzero (n dflt : Z) : n <> 0 -> number_or (Finite n) dflt = Finite n.
Proof. intros H. unfold number_or. now rewrite (proj2 (Z.eqb_neq n 0) H). Qed.

(** ** The read routes *)

(** C8. [GET /api/relationships] answers with exactly the stored
    relationships whose status is "talking" or "coupled" (so none that is
    "ended"), the most recently updated first, each carrying the agent rows
    that its two agent ids name. *)
Theorem get_relationships_active (d : DB) :
  exists rs,
    get_relationships d = Json rs
    /\ Forall (fun r => rel_status (rwa_relationship r) = "talking"
                        \/ rel_status (rwa_relationship r) = "coupled") rs
    /\ Forall (fun r => rel_status (rwa_relationship r) <> "ended") rs
    /\ StronglySorted
         (fun a b => rel_updatedAt (rwa_relationship b) <= rel_updatedAt (rwa_relationship a)) rs
    /\ Forall (fun r => rwa_agent1 r = agents d !! rel_agent1Id (rwa_relationship r)
                        /\ rwa_agent2 r = agents d !! rel_agent2Id (rwa_relationship r)) rs
    /\ Permutation (map rwa_relationship rs)
         (List.filter (status_in ["talking"; "coupled"]) (relationships d)).
Proof.
  eexists. split; [reflexivity|].
  set (active := List.filter (status_in ["talking"; "coupled"]) (relationships d)).
  assert (Hperm : Permutation (order_by_desc rel_updatedAt active) active)
    by apply sort_by_perm.
  assert (Hact : forall r, In r (order_by_desc rel_updatedAt active) ->
                           rel_status r = "talking" \/ rel_status r = "coupled").
  { intros r Hr. apply (Permutation_in _ Hperm) in Hr.
    apply filter_In in Hr. now apply status_in_active. }
  repeat split.
  - apply List.Forall_forall. intros r Hr. apply in_map_iff in Hr.
    destruct Hr as (x & <- & Hx). simpl. now apply Hact.
  - apply List.Forall_forall. intros r Hr. apply in_map_iff in Hr.
    destruct Hr as (x & <- & Hx). simpl.
    destruct (Hact x Hx) as [-> | ->]; discriminate.
  - apply map_sorted with (R := fun a b => (rel_updatedAt b <=? rel_updatedAt a) = true).
    + intros a b Hab. simpl. now apply Z.leb_le.
    + apply sort_by_sorted.
      * intros a b. apply date_order_total.
      * intros a b c. apply date_order_trans.
  - apply List.Forall_forall. intros r Hr. apply in_map_iff in Hr.
    destruct Hr as (x & <- & Hx). simpl. split; reflexivity.
  - rewrite map_map. simpl. rewrite map_id. exact Hperm.
Qed.

(** C6. [GET /api/highlights] answers with stored events that are featured
    or have a drama score of at least 75, at most 20 of them, the highest
    drama score first; when more than 20 qualify, none of those left out
    scores higher than one that is returned. *)
Theorem get_highlights_top (d : DB) :
  exists hs,
    get_highlights d = Json hs
    /\ Forall (fun h => ev_isFeatured (ewr_event h) = true
                        \/ (75 <= ev_dramaScore (ewr_event h))%Q) hs
    /\ (length hs <= 20)%nat
    /\ StronglySorted
         (fun a b => (ev_dramaScore (ewr_event b) <= ev_dramaScore (ewr_event a))%Q) hs
    /\ Forall (fun h => In (ewr_event h) (events d)
                        /\ h = include_relationship d (ewr_event h)) hs
    /\ length hs = Nat.min 20 (length (List.filter is_highlight (events d)))
    /\ exists rest,
         Permutation (map ewr_event hs ++ rest) (List.filter is_highlight (events d))
         /\ forall h e, In h hs -> In e rest ->
                        (ev_dramaScore e <= ev_dramaScore (ewr_event h))%Q.
Proof.
  eexists. split; [reflexivity|].
  set (cands := List.filter is_highlight (events d)).
  destruct (sort_by_top (fun a b => Qle_bool (ev_dramaScore b) (ev_dramaScore a))
              (fun a b => num_order_total _ ev_dramaScore a b)
              (fun a b c => num_order_trans _ ev_dramaScore a b c)
              20 cands) as (Hperm & Hlen & Hsorted & Hcross).
  rewrite prisma_take_pos by lia.
  change (Z.to_nat 20) with 20%nat.
  fold (order_by_desc_num ev_dramaScore cands) in Hperm, Hlen, Hsorted, Hcross.
  set (top := firstn 20 (order_by_desc_num ev_dramaScore cands)) in *.
  assert (Hin : forall e, In e top -> In e cands).
  { intros e He. apply (Permutation_in _ Hperm). apply in_or_app. now left. }
  split; [|split; [|split; [|split; [|split]]]].
  - apply List.Forall_forall. intros h Hh. apply in_map_iff in Hh.
    destruct Hh as (e & <- & He). simpl.
    apply Hin, filter_In in He. destruct He as [_ He].
    unfold is_highlight in He. apply orb_true_iff in He.
    destruct He as [He|He]; [now left|right; now apply Qle_bool_iff].
  - rewrite length_map, Hlen. lia.
  - apply map_sorted with
      (R := fun a b => Qle_bool (ev_dramaScore b) (ev_dramaScore a) = true).
    + intros a b Hab. simpl. now apply Qle_bool_iff.
    + exact Hsorted.
  - apply List.Forall_forall. intros h Hh. apply in_map_iff in Hh.
    destruct Hh as (e & <- & He). simpl. split; [|reflexivity].
    apply Hin, filter_In in He. tauto.
  - now rewrite length_map.
  - exists (skipn 20 (order_by_desc_num ev_dramaScore cands)).
    rewrite map_map. simpl. rewrite map_id. split; [exact Hperm|].
    intros h e Hh He. apply in_map_iff in Hh. destruct Hh as (x & <- & Hx).
    simpl. apply Qle_bool_iff. now apply Hcross.
Qed.

(** C5, as stated, fails for the limit 0: [parseInt("0") || 50] is 50, and
    the store below has four items to show. *)
Lemma get_villa_feed_limit_zero :
  parseInt (Some "0") = Finite 0
  /\ exists feed,
       get_villa_feed sample_take_ok (Some "0") sample_db = Json feed
       /\ length feed = 4%nat
       /\ map env_timestamp feed = [3600; 3500; 3200; 3000].
Proof. split; [reflexivity|]. eexists. repeat split; vm_compute; reflexivity. Qed.

(** C5, amended. For a limit that [parseInt] reads as a positive number [N]
    (the double nearest to the digits) which the ORM takes as [take]: the
    route takes the [N] most recent public events (all when there are
    fewer) and the [N] most recent messages, wraps each with its tag and
    creation time, and answers with the [N] most recent of the two together
    (all when there are fewer), most recent first.  When the ORM does not
    take [N], a number beyond its integers, the answer is 500. *)
Theorem get_villa_feed_recent (take_ok : Z -> bool) (q : option string) (N : Z) (d : DB) :
  parseInt q = Finite N -> 0 < N ->
  (take_ok N = true ->
   exists evs older_evs msgs older_msgs feed dropped,
     get_villa_feed take_ok q d = Json feed
     /\ Permutation (evs ++ older_evs) (List.filter ev_isPublic (events d))
     /\ length evs = Nat.min (Z.to_nat N) (length (List.filter ev_isPublic (events d)))
     /\ (forall e e', In e evs -> In e' older_evs -> ev_createdAt e' <= ev_createdAt e)
     /\ Permutation (msgs ++ older_msgs) (messages d)
     /\ length msgs = Nat.min (Z.to_nat N) (length (messages d))
     /\ (forall m m', In m msgs -> In m' older_msgs -> msg_createdAt m' <= msg_createdAt m)
     /\ Permutation (feed ++ dropped)
          (map event_item (map (include_relationship d) evs)
           ++ map message_item (map (include_context d) msgs))
     /\ Forall tagged feed
     /\ StronglySorted (fun a b => env_timestamp b <= env_timestamp a) feed
     /\ (forall a b, In a feed -> In b dropped -> env_timestamp b <= env_timestamp a)
     /\ length feed = Nat.min (Z.to_nat N) (length evs + length msgs)
     /\ Z.of_nat (length feed) <= N)
  /\ (take_ok N = false ->
      get_villa_feed take_ok q d = Status 500 "Failed to fetch villa feed").
Proof.
  intros Hparse HN. split; intros Htake;
    unfold get_villa_feed; rewrite Hparse, number_or_nonzero, Htake by lia;
    [|reflexivity].
  rewrite !prisma_take_pos, js_slice0_pos by lia.
  set (n := Z.to_nat N).
  set (public := List.filter ev_isPublic (events d)).
  destruct (sort_by_top (fun a b => ev_createdAt b <=? ev_createdAt a)
              (fun a b => date_order_total _ ev_createdAt a b)
              (fun a b c => date_order_trans _ ev_createdAt a b c)
              n public) as (He1 & He2 & _ & He4).
  destruct (sort_by_top (fun a b => msg_createdAt b <=? msg_createdAt a)
              (fun a b => date_order_total _ msg_createdAt a b)
              (fun a b c => date_order_trans _ msg_createdAt a b c)
              n (messages d)) as (Hm1 & Hm2 & _ & Hm4).
  fold (order_by_desc ev_createdAt public) in He1, He2, He4.
  fold (order_by_desc msg_createdAt (messages d)) in Hm1, Hm2, Hm4.
  set (evs := firstn n (order_by_desc ev_createdAt public)) in *.
  set (msgs := firstn n (order_by_desc msg_createdAt (messages d))) in *.
  set (merged := map event_item (map (include_relationship d) evs)
                 ++ map message_item (map (include_context d) msgs)).
  unfold js_sort.
  set (newer := fun a b : Envelope FeedData => env_timestamp b - env_timestamp a <=? 0).
  assert (Htot : forall a b, newer a b = false -> newer b a = true).
  { intros a b. unfold newer. rewrite Z.leb_gt, Z.leb_le. lia. }
  assert (Htr : forall a b c, newer a b = true -> newer b c = true -> newer a c = true).
  { intros a b c. unfold newer. rewrite !Z.leb_le. lia. }
  destruct (sort_by_top newer Htot Htr n merged) as (Hf1 & Hf2 & Hf3 & Hf4).
  exists evs, (skipn n (order_by_desc ev_createdAt public)).
  exists msgs, (skipn n (order_by_desc msg_createdAt (messages d))).
  exists (firstn n (sort_by newer merged)), (skipn n (sort_by newer merged)).
  assert (Hlen : length merged = (length evs + length msgs)%nat).
  { unfold merged. now rewrite length_app, !length_map. }
  split; [reflexivity|].
  split; [exact He1|]. split; [exact He2|].
  split; [intros e e' H1 H2; apply Z.leb_le; now apply He4|].
  split; [exact Hm1|]. split; [exact Hm2|].
  split; [intros m m' H1 H2; apply Z.leb_le; now apply Hm4|].
  split; [exact Hf1|].
  split.
  { apply List.Forall_forall. intros item Hitem.
    assert (Hin : In item merged).
    { apply (Permutation_in _ Hf1). apply in_or_app. now left. }
    unfold merged in Hin. apply in_app_or in Hin.
    destruct Hin as [Hin|Hin]; apply in_map_iff in Hin;
      destruct Hin as (x & <- & _); split; reflexivity. }
  split.
  { eapply sorted_impl; [|exact Hf3].
    intros a b Hab. simpl in Hab. unfold newer in Hab. apply Z.leb_le in Hab. lia. }
  split.
  { intros a b Ha Hb. specialize (Hf4 a b Ha Hb).
    unfold newer in Hf4. apply Z.leb_le in Hf4. lia. }
  split; [now rewrite Hf2, Hlen|].
  rewrite Hf2. unfold n. lia.
Qed.

Lemma get_villa_feed_recent_witness :
  (parseInt (Some "3") = Finite 3 /\ 0 < 3 /\ sample_take_ok 3 = true
   /\ parseInt (Some "99999999999999999999") = Finite 100000000000000000000
   /\ sample_take_ok 100000000000000000000 = false)
  /\ (exists evs older_evs msgs older_msgs feed dropped,
        get_villa_feed sample_take_ok (Some "3") sample_db = Json feed
        /\ map env_type feed = ["event"; "message"; "event"]
        /\ map env_timestamp feed = [3600; 3500; 3200]
        /\ Permutation (evs ++ older_evs) (List.filter ev_isPublic (events sample_db))
        /\ Permutation (msgs ++ older_msgs) (messages sample_db)
        /\ Permutation (feed ++ dropped)
             (map event_item (map (include_relationship sample_db) evs)
              ++ map message_item (map (include_context sample_db) msgs))
        /\ Forall tagged feed
        /\ StronglySorted (fun a b => env_timestamp b <= env_timestamp a) feed
        /\ (forall a b, In a feed -> In b dropped -> env_timestamp b <= env_timestamp a)
        /\ Z.of_nat (length feed) <= 3)
  /\ get_villa_feed sample_take_ok (Some "99999999999999999999") sample_db
     = Status 500 "Failed to fetch villa feed".
Proof.
  split; [repeat split; vm_compute; reflexivity|].
  split.
  - destruct (proj1 (get_villa_feed_recent sample_take_ok (Some "3") 3 sample_db
                       eq_refl eq_refl) eq_refl)
      as (evs & older_evs & msgs & older_msgs & feed & dropped
          & Hfeed & He & _ & _ & Hm & _ & _ & Hmerge & Htag & Hsorted & Hdrop & _ & Hlen).
    exists evs, older_evs, msgs, older_msgs, feed, dropped.
    assert (Htypes :
              match get_villa_feed sample_take_ok (Some "3") sample_db with
              | Json f => map env_type f
              | Status _ _ => []
              end = ["event"; "message"; "event"]) by (vm_compute; reflexivity).
    assert (Htimes :
              match get_villa_feed sample_take_ok (Some "3") sample_db with
              | Json f => map env_timestamp f
              | Status _ _ => []
              end = [3600; 3500; 3200]) by (vm_compute; reflexivity).
    rewrite Hfeed in Htypes, Htimes.
    split; [exact Hfeed|]. split; [exact Htypes|]. split; [exact Htimes|].
    repeat (split; [assumption|]). assumption.
  - apply (proj2 (get_villa_feed_recent sample_take_ok (Some "99999999999999999999")
                    100000000000000000000 sample_db
                    ltac:(vm_compute; reflexivity) eq_refl)).
    vm_compute; reflexivity.
Defined.

(** A limit that is absent, not a number or 0 counts as 50. *)
Remark get_villa_feed_default (take_ok : Z -> bool) (q : option string) (d : DB) :
  parseInt q = NaN \/ parseInt q = Finite 0 ->
  get_villa_feed take_ok q d = get_villa_feed take_ok (Some "50") d.
Proof. intros [H|H]; unfold get_villa_feed; rewrite H; reflexivity. Qed.

(** A run of digits that is read as an infinity is answered 500. *)
Remark get_villa_feed_infinite (take_ok : Z -> bool) (q : option string) (d : DB) (negative : bool) :
  parseInt q = Infinite negative ->
  get_villa_feed take_ok q d = Status 500 "Failed to fetch villa feed".
Proof. intros H. unfold get_villa_feed. now rewrite H. Qed.

(** [parseInt] rounds as the language does and skips its white space: the
    no-break space U+00A0 is the two bytes 194 and 160. *)
Remark parseInt_examples :
  parseInt (Some "9007199254740993") = Finite 9007199254740992
  /\ parseInt (Some "9007199254740995") = Finite 9007199254740996
  /\ parseInt (Some "-0x1f") = Finite (-31)
  /\ parseInt (Some "12px") = Finite 12
  /\ parseInt (Some "") = NaN
  /\ parseInt None = NaN
  /\ parseInt (Some (String (ascii_of_nat 194) (String (ascii_of_nat 160) "7"))) = Finite 7.
Proof. repeat split; vm_compute; reflexivity. Qed.

(** ** The waitlist *)

Lemma email_taken_app (e : string) (l1 l2 : list WaitlistEntry) :
  email_taken e (l1 ++ l2) = email_taken e l1 || email_taken e l2.
Proof. unfold email_taken. apply existsb_app. Qed.

Lemma includes_truthy (s : string) :
  string_includes "@" s = true -> truthy (str s) = true.
Proof. destruct s; [discriminate | reflexivity]. Qed.

(** C7. [POST /api/waitlist] answers 400 "Invalid email" and writes nothing
    when the email is missing (or falsy otherwise) or is a string without
    "@".  For a string with
    "@" that is not registered it appends one entry with that email and
    answers with the id of the entry; from then on a request with the same
    email is answered 400 "Email already registered" and writes nothing. *)
Theorem post_waitlist_once (now : Z) (fresh : string) (body : obj) (d : DB) :
  ((prop body "email" = None
    \/ truthy (prop body "email") = false
    \/ exists s, prop body "email" = str s /\ string_includes "@" s = false) ->
   post_waitlist now fresh body d = (Status 400 "Invalid email", d))
  /\ (forall e,
        prop body "email" = str e -> string_includes "@" e = true ->
        email_taken e (waitlist d) = false ->
        exists entry d',
          post_waitlist now fresh body d = (Json (mkWaitlistResult true (wl_id entry)), d')
          /\ entry = mkWaitlistEntry fresh e now
          /\ d' = set_waitlist d (waitlist d ++ [entry])
          /\ forall now' fresh' body',
               prop body' "email" = str e ->
               post_waitlist now' fresh' body' d' = (Status 400 "Email already registered", d')).
Proof.
  split.
  - intros [Habsent | [Hfalsy | (s & Hs & Hno)]]; unfold post_waitlist; simpl.
    + now rewrite Habsent.
    + rewrite Hfalsy. now destruct (prop body "email").
    + rewrite Hs. unfold str. simpl. rewrite Hno.
      now destruct (negb (s =? ""))%string.
  - intros e He Hat Hfree.
    exists (mkWaitlistEntry fresh e now). eexists.
    split; [|split; [reflexivity|split; [reflexivity|]]].
    + unfold post_waitlist. simpl. rewrite He.
      rewrite (includes_truthy e Hat). unfold str. simpl. rewrite Hat, Hfree.
      reflexivity.
    + intros now' fresh' body' He'.
      unfold post_waitlist. simpl. rewrite He'.
      rewrite (includes_truthy e Hat). unfold str. simpl. rewrite Hat.
      rewrite email_taken_app. simpl. rewrite String.eqb_refl, orb_true_r.
      reflexivity.
Qed.

Lemma post_waitlist_once_witness :
  post_waitlist 9000 "w2" [("email", VStr "no-at-sign")] sample_db
    = (Status 400 "Invalid email", sample_db)
  /\ exists entry d',
       post_waitlist 9000 "w2" [("email", VStr "amy@example.org")] sample_db
         = (Json (mkWaitlistResult true (wl_id entry)), d')
       /\ entry = mkWaitlistEntry "w2" "amy@example.org" 9000
       /\ d' = set_waitlist sample_db (waitlist sample_db ++ [entry])
       /\ forall now' fresh' body',
            prop body' "email" = str "amy@example.org" ->
            post_waitlist now' fresh' body' d' = (Status 400 "Email already registered", d').
Proof.
  split.
  - apply (proj1 (post_waitlist_once 9000 "w2" [("email", VStr "no-at-sign")] sample_db)).
    right. right. exists "no-at-sign". split; reflexivity.
  - apply (proj2 (post_waitlist_once 9000 "w2" [("email", VStr "amy@example.org")] sample_db)
             "amy@example.org"); reflexivity.
Defined.

(** An email that is neither a string nor an array has no [includes]: the
    call throws and the answer is 500. *)
Remark post_waitlist_number (now : Z) (fresh : string) (d : DB) :
  post_waitlist now fresh [("email", VNum (inject_Z 5))] d
  = (Status 500 "Failed to add to waitlist", d).
Proof. reflexivity. Qed.

(** ** The agent routes *)

Lemma strip_lookup (args : list (string * jsval)) (k : string) :
  strip args !! k = written k args.
Proof.
  unfold strip. induction args as [|[k' [x|]] rest IH]; simpl.
  - apply lookup_empty.
  - rewrite lookup_insert. destruct (String.eqb_spec k k') as [->|Hne].
    + now rewrite decide_True.
    + rewrite decide_False by congruence. exact IH.
  - destruct (String.eqb_spec k k') as [->|Hne]; exact IH.
Qed.

Lemma written_lookup (args : list (string * jsval)) (old : gmap string value) (k : string) :
  (strip args ∪ old) !! k =
  match written k args with
  | Some v => Some v
  | None => old !! k
  end.
Proof.
  rewrite lookup_union, strip_lookup.
  destruct (written k args), (old !! k); reflexivity.
Qed.

Lemma js_or_default (a : jsval) (v : value) :
  exists x, js_or a (Some v) = Some x.
Proof. unfold js_or. destruct (truthy a) eqn:Ha; [|eauto]. destruct a; [eauto|discriminate]. Qed.

(** [each_of Hin] splits a membership in one of the column lists into its
    cases; [read_written lit] reads a column off the object literal [lit]. *)
Ltac each_of Hin :=
  simpl in Hin;
  repeat (destruct Hin as [Hin|Hin]; [inversion Hin; subst|]);
  try contradiction.

Ltac read_written lit :=
  unfold lit; simpl;
  match goal with
  | |- match ?v with _ => _ end = _ => destruct v; reflexivity
  end.

Lemma trait_not_id (k g : string) : In (k, g) trait_fields -> k <> "id".
Proof. intros Hin. unfold trait_fields in Hin. each_of Hin; discriminate. Qed.

Lemma plain_not_id (k : string) : In k plain_fields -> k <> "id".
Proof. intros Hin. unfold plain_fields in Hin. each_of Hin; discriminate. Qed.

Lemma written_name (data : obj) :
  written "name" (agent_update_data data) = js_or (prop data "name") (str "").
Proof.
  unfold agent_update_data. simpl.
  destruct (js_or_default (prop data "name") (VStr "")) as (x & Hx).
  unfold str. now rewrite Hx.
Qed.

Lemma written_status (data : obj) :
  written "status" (agent_update_data data) = js_or (prop data "status") (str "single").
Proof.
  unfold agent_update_data. simpl.
  destruct (js_or_default (prop data "status") (VStr "single")) as (x & Hx).
  unfold str. now rewrite Hx.
Qed.

Lemma written_trait (data : obj) (k g : string) :
  In (k, g) trait_fields ->
  written k (agent_update_data data)
  = js_coalesce (prop data k) (opt_prop (prop data g) k).
Proof.
  intros Hin. unfold trait_fields in Hin. each_of Hin; read_written agent_update_data.
Qed.

Lemma written_plain (data : obj) (k : string) :
  In k plain_fields -> written k (agent_update_data data) = prop data k.
Proof.
  intros Hin. unfold plain_fields in Hin. each_of Hin; read_written agent_update_data.
Qed.

Lemma written_cons (k k' : string) (v : jsval) (rest : list (string * jsval)) :
  written k ((k', v) :: rest)
  = if String.eqb k k' then match v with Some x => Some x | None => written k rest end
    else written k rest.
Proof. reflexivity. Qed.

Lemma written_create (data : obj) (k : string) :
  k <> "id" -> written k (agent_create_data data) = written k (agent_update_data data).
Proof.
  intros Hk. unfold agent_create_data. rewrite written_cons.
  now rewrite (proj2 (String.eqb_neq k "id") Hk).
Qed.

Lemma post_agents_result (schema : Schema) (now : Z) (data : obj) (d : DB) (id : string) :
  prop data "id" = str id ->
  agent_create_ok schema (strip (agent_create_data data)) = true ->
  agent_update_ok schema (strip (agent_update_data data)) = true ->
  exists agent,
    post_agents schema now data d = (Json agent, set_agents d (<[id := agent]> (agents d)))
    /\ forall k, k <> "id" ->
         agent !! k =
         match written k (agent_update_data data) with
         | Some v => Some v
         | None => row_before schema now id d !! k
         end.
Proof.
  intros Hid Hc Hu. unfold post_agents, agent_upsert, row_before.
  rewrite Hid. unfold str. rewrite Hc, Hu. cbn [andb].
  destruct (agents d !! id) as [old|]; cbn [default]; eexists; (split; [reflexivity|]);
    intros k Hk; rewrite written_lookup; [reflexivity|].
  now rewrite written_create.
Qed.

Lemma written_absent (k : string) (args : list (string * jsval)) :
  ~ In k (map fst args) -> written k args = None.
Proof.
  induction args as [|[k' v] rest IH]; intros Hk; [reflexivity|].
  rewrite written_cons. destruct (String.eqb_spec k k') as [->|Hne].
  - exfalso. apply Hk. now left.
  - apply IH. intros Hin. apply Hk. now right.
Qed.

Lemma written_other (data : obj) (k : string) :
  ~ In k agent_columns -> written k (agent_update_data data) = None.
Proof.
  intros Hk. apply written_absent. intros Hin. apply Hk. clear Hk.
  unfold agent_update_data in Hin. cbn [map fst] in Hin.
  unfold agent_columns, trait_fields, plain_fields. cbn [map fst app].
  repeat (destruct Hin as [<- | Hin]; [repeat ((left; reflexivity) || right)|]).
  destruct Hin.
Qed.

(** What [a ?? v?.k] of a trait is, read off the request. *)
Lemma written_trait_flat (data : obj) (k g : string) (v : value) :
  In (k, g) trait_fields -> prop data k = Some v -> v <> VNull ->
  written k (agent_update_data data) = Some v.
Proof.
  intros Hin Hflat Hv. rewrite (written_trait data k g Hin), Hflat.
  unfold js_coalesce. destruct v; simpl; congruence.
Qed.

Lemma written_trait_nested (data : obj) (k g : string) :
  In (k, g) trait_fields ->
  prop data k = None \/ prop data k = Some VNull ->
  written k (agent_update_data data)
  = match prop data g with
    | Some (VObj fs) => prop fs k
    | _ => None
    end.
Proof.
  intros Hin Hflat. rewrite (written_trait data k g Hin).
  destruct Hflat as [-> | ->]; reflexivity.
Qed.



(** C10. [PUT /api/agents/:id/status] for an agent that exists, with a body
    whose [currentPartner] is absent or falsy: the stored row gets
    [currentPartner] null whatever it held, the status of the body (the
    stored one when the body has none) and [lastActive] at the time of the
    request; its other columns stay as they were. *)
Theorem put_agent_status_clears_partner
    (schema : Schema) (now : Z) (id : string) (body : obj) (d : DB) (old : gmap string value) :
  agents d !! id = Some old ->
  truthy (prop body "currentPartner") = false ->
  agent_update_ok schema
    (strip [ ("status", prop body "status"); ("currentPartner", null);
             ("lastActive", Some (VDate now)) ]) = true ->
  exists agent d',
    put_agent_status schema now id body d = (Json agent, d')
    /\ d' = set_agents d (<[id := agent]> (agents d))
    /\ agents d' !! id = Some agent
    /\ agent !! "currentPartner" = Some VNull
    /\ (forall v, prop body "status" = Some v -> agent !! "status" = Some v)
    /\ (prop body "status" = None -> agent !! "status" = old !! "status")
    /\ agent !! "lastActive" = Some (VDate now)
    /\ (forall k, k <> "status" -> k <> "currentPartner" -> k <> "lastActive" ->
          agent !! k = old !! k).
Proof.
  intros Hold Hfalsy Hok.
  unfold put_agent_status, agent_update, js_or. rewrite Hfalsy, Hok, Hold.
  eexists. eexists. split; [reflexivity|]. split; [reflexivity|].
  split; [simpl; apply lookup_insert_eq|].
  split; [rewrite written_lookup; simpl; now destruct (prop body "status")|].
  split; [intros v Hv; rewrite written_lookup; simpl; now rewrite Hv|].
  split; [intros Hv; rewrite written_lookup; simpl; now rewrite Hv|].
  split; [rewrite written_lookup; simpl; now destruct (prop body "status")|].
  intros k H1 H2 H3. rewrite written_lookup, !written_cons.
  rewrite (proj2 (String.eqb_neq k "status") H1).
  rewrite (proj2 (String.eqb_neq k "currentPartner") H2).
  rewrite (proj2 (String.eqb_neq k "lastActive") H3).
  reflexivity.
Qed.

Lemma put_agent_status_clears_partner_witness :
  (agents sample_db !! "ada" = Some ada
   /\ ada !! "currentPartner" = Some (VStr "bob")
   /\ truthy (prop [("status", VStr "single")] "currentPartner") = false
   /\ agent_update_ok sample_schema
        (strip [ ("status", prop [("status", VStr "single")] "status"); ("currentPartner", null);
                 ("lastActive", Some (VDate 9000)) ]) = true)
  /\ exists agent d',
       put_agent_status sample_schema 9000 "ada" [("status", VStr "single")] sample_db
         = (Json agent, d')
       /\ d' = set_agents sample_db (<["ada" := agent]> (agents sample_db))
       /\ agents d' !! "ada" = Some agent
       /\ agent !! "currentPartner" = Some VNull
       /\ (forall v, prop [("status", VStr "single")] "status" = Some v ->
             agent !! "status" = Some v)
       /\ (prop [("status", VStr "single")] "status" = None ->
             agent !! "status" = ada !! "status")
       /\ agent !! "lastActive" = Some (VDate 9000)
       /\ (forall k, k <> "status" -> k <> "currentPartner" -> k <> "lastActive" ->
             agent !! k = ada !! k).
Proof.
  split; [repeat split; vm_compute; reflexivity|].
  apply (put_agent_status_clears_partner sample_schema 9000 "ada"
           [("status", VStr "single")] sample_db ada);
    vm_compute; reflexivity.
Defined.

(** Without a string id nothing is written and the answer is 500. *)
Remark post_agents_without_id (schema : Schema) (now : Z) (data : obj) (d : DB) :
  (forall id, prop data "id" <> str id) ->
  post_agents schema now data d = (Status 500 "Failed to upsert agent", d).
Proof.
  intros Hid. unfold post_agents, agent_upsert.
  destruct (prop data "id") as [[| | |id| | |]|]; try reflexivity.
  now destruct (Hid id).
Qed.

(** ** The bulk route *)

Lemma bulk_written_name (data : obj) :
  written "name" (bulk_update_data data) = js_or (prop data "name") (str "").
Proof.
  unfold bulk_update_data. simpl.
  destruct (js_or_default (prop data "name") (VStr "")) as (x & Hx).
  unfold str. now rewrite Hx.
Qed.

Lemma bulk_written_status (data : obj) : written "status" (bulk_update_data data) = None.
Proof. reflexivity. Qed.

Lemma bulk_written_trait (data : obj) (k g : string) :
  In (k, g) trait_fields ->
  written k (bulk_update_data data)
  = js_coalesce (opt_prop (prop data g) k) (prop data k).
Proof.
  intros Hin. unfold trait_fields in Hin. each_of Hin; read_written bulk_update_data.
Qed.

Lemma bulk_written_plain (data : obj) (k : string) :
  In k plain_fields -> written k (bulk_update_data data) = prop data k.
Proof.
  intros Hin. unfold plain_fields in Hin. each_of Hin; read_written bulk_update_data.
Qed.

Lemma bulk_written_create (data : obj) (k : string) :
  k <> "id" -> written k (bulk_create_data data) = written k (bulk_update_data data).
Proof.
  intros Hk. unfold bulk_create_data. rewrite written_cons.
  now rewrite (proj2 (String.eqb_neq k "id") Hk).
Qed.

(** One turn of the loop on an item it can upsert. *)
Lemma bulk_step (schema : Schema) (now : Z) (item : value) (d : DB) :
  bulk_item_ok schema item = true ->
  exists data id agent,
    item_fields item = Ok data
    /\ prop data "id" = str id
    /\ agent_upsert schema now (prop data "id") (bulk_update_data data) (bulk_create_data data) d
       = (Ok agent, set_agents d (<[id := agent]> (agents d)))
    /\ forall k, k <> "id" ->
         agent !! k =
         match written k (bulk_update_data data) with
         | Some v => Some v
         | None => row_before schema now id d !! k
         end.
Proof.
  unfold bulk_item_ok. intros Hok.
  destruct (item_fields item) as [data|]; [|discriminate].
  destruct (prop data "id") as [[| | |id| | |]|] eqn:Hid; try discriminate.
  exists data, id. unfold agent_upsert, row_before. rewrite Hid, Hok.
  destruct (agents d !! id) as [old|]; cbn [default]; eexists;
    (split; [reflexivity|split; [reflexivity|split; [reflexivity|]]]);
    intros k Hk; rewrite written_lookup; [reflexivity|].
  now rewrite bulk_written_create.
Qed.

Lemma row_before_insert (schema : Schema) (now : Z) (id key : string)
    (agent : gmap string value) (d : DB) :
  row_before schema now id (set_agents d (<[key := agent]> (agents d)))
  = if decide (key = id) then agent else row_before schema now id d.
Proof.
  unfold row_before. simpl. rewrite lookup_insert.
  destruct (decide (key = id)); reflexivity.
Qed.

Lemma bulk_loop_spec (schema : Schema) (now : Z) (items : list value) :
  forallb (bulk_item_ok schema) items = true ->
  forall (results : list (gmap string value)) (d : DB),
  exists added d',
    bulk_loop schema now items results d = (Ok (results ++ added), d')
    /\ Forall2
         (fun item agent =>
            exists data id,
              item_fields item = Ok data
              /\ prop data "id" = str id
              /\ agent !! "status" = row_before schema now id d !! "status"
              /\ (forall k v, written k (bulk_update_data data) = Some v -> k <> "id" ->
                    agent !! k = Some v))
         items added
    /\ (forall id, row_before schema now id d' !! "status" = row_before schema now id d !! "status").
Proof.
  induction items as [|item rest IH]; intros Hall results d.
  - exists [], d. cbn [bulk_loop]. rewrite app_nil_r. repeat split. constructor.
  - cbn [forallb] in Hall. apply andb_true_iff in Hall. destruct Hall as [Hitem Hrest].
    destruct (bulk_step schema now item d Hitem) as (data & id & agent & Hf & Hid & Hup & Hcols).
    set (d1 := set_agents d (<[id := agent]> (agents d))) in *.
    assert (Hkept : forall id', row_before schema now id' d1 !! "status"
                                = row_before schema now id' d !! "status").
    { intros id'. unfold d1. rewrite row_before_insert.
      destruct (decide (id = id')) as [<-|]; [|reflexivity].
      rewrite Hcols by discriminate. now rewrite bulk_written_status. }
    destruct (IH Hrest (results ++ [agent]) d1) as (added & d' & Hloop & Hall & Hst).
    exists (agent :: added), d'. split; [|split].
    + cbn [bulk_loop]. rewrite Hf, Hup, Hloop. now rewrite <- app_assoc.
    + constructor.
      * exists data, id. split; [exact Hf|]. split; [exact Hid|].
        split; [rewrite Hcols by discriminate; now rewrite bulk_written_status|].
        intros k v Hw Hk. rewrite Hcols by assumption. now rewrite Hw.
      * eapply Forall2_impl; [exact Hall|].
        intros item' agent' (data' & id' & Hf' & Hid' & Hst' & Hw').
        exists data', id'. split; [exact Hf'|]. split; [exact Hid'|].
        split; [now rewrite Hst', Hkept|exact Hw'].
    + intros id'. now rewrite Hst, Hkept.
Qed.


(** What [v?.k ?? a] of a trait is, read off the item. *)
Lemma bulk_written_trait_nested (data : obj) (k g : string) (fs : obj) (v : value) :
  In (k, g) trait_fields ->
  prop data g = Some (VObj fs) -> prop fs k = Some v -> v <> VNull ->
  written k (bulk_update_data data) = Some v.
Proof.
  intros Hin Hg Hnested Hv. rewrite (bulk_written_trait data k g Hin), Hg.
  cbn [opt_prop]. fold (prop fs k). rewrite Hnested.
  unfold js_coalesce. destruct v; simpl; congruence.
Qed.

Lemma bulk_written_trait_flat (data : obj) (k g : string) :
  In (k, g) trait_fields ->
  (forall fs, prop data g = Some (VObj fs) -> prop fs k = None \/ prop fs k = Some VNull) ->
  written k (bulk_update_data data) = prop data k.
Proof.
  intros Hin Hnone. rewrite (bulk_written_trait data k g Hin).
  destruct (prop data g) as [[| | | | | |fs]|] eqn:Hg; try reflexivity.
  cbn [opt_prop]. fold (prop fs k).
  destruct (Hnone fs eq_refl) as [-> | ->]; reflexivity.
Qed.



(** ** The relationship routes *)

Lemma same_pair_sym (x y : string) (r : Relationship) :
  same_pair x y r = same_pair y x r.
Proof. unfold same_pair. apply orb_comm. Qed.

Lemma pair_taken_sym (x y : string) (rels : list Relationship) :
  pair_taken x y rels = pair_taken y x rels.
Proof.
  unfold pair_taken. induction rels as [|r rels IH]; simpl; [reflexivity|].
  now rewrite IH, same_pair_sym.
Qed.

Lemma find_first_pair_strings (x y : string) (d : DB) :
  find_first_pair (str x) (str y) d = find (same_pair x y) (relationships d).
Proof. reflexivity. Qed.

Lemma find_same_pair_sym (x y : string) (rels : list Relationship) :
  find (same_pair x y) rels = find (same_pair y x) rels.
Proof.
  induction rels as [|r rels IH]; simpl; [reflexivity|].
  now rewrite IH, same_pair_sym.
Qed.

Lemma pair_taken_find (x y : string) (rels : list Relationship) :
  pair_taken x y rels = true ->
  exists r, find (same_pair x y) rels = Some r /\ same_pair x y r = true.
Proof.
  unfold pair_taken. induction rels as [|r rels IH]; simpl; [discriminate|].
  destruct (same_pair x y r) eqn:Hr; [eauto|]. exact IH.
Qed.

Lemma pair_free_find (x y : string) (rels : list Relationship) (r : Relationship) :
  pair_taken x y rels = false -> same_pair x y r = true ->
  find (same_pair x y) (rels ++ [r]) = Some r.
Proof.
  unfold pair_taken. induction rels as [|r' rels IH]; simpl; intros Hfree Hr.
  - now rewrite Hr.
  - apply orb_false_iff in Hfree. destruct Hfree as [Hr' Hfree].
    rewrite Hr'. now apply IH.
Qed.

Lemma pair_taken_app (x y : string) (l1 l2 : list Relationship) :
  pair_taken x y (l1 ++ l2) = pair_taken x y l1 || pair_taken x y l2.
Proof. unfold pair_taken. apply existsb_app. Qed.

(** What the handler does with a body whose pair is given as two strings
    and whose options are fine. *)
Lemma post_relationships_unfold
    (schema : Schema) (now : Z) (fresh : string) (body : obj) (d : DB) (x y : string) :
  prop body "agent1Id" = str x -> prop body "agent2Id" = str y ->
  rel_options_ok body = true ->
  is_Some (agents d !! x) -> is_Some (agents d !! y) ->
  exists score st,
    js_or (prop body "compatibilityScore") (num 50) = Some (VNum score)
    /\ js_or (prop body "status") (str "talking") = Some (VStr st)
    /\ post_relationships schema now fresh body d =
       if pair_taken x y (relationships d) then
         (Json (option_map (include_agents d) (find (same_pair x y) (relationships d))), d)
       else
         let r := new_relationship schema now fresh x y score st in
         let d' := set_relationships d (relationships d ++ [r]) in
         (Json (Some (include_agents d' r)), d').
Proof.
  intros H1 H2 Hopt [a1 Ha1] [a2 Ha2]. unfold rel_options_ok in Hopt.
  destruct (js_or (prop body "compatibilityScore") (num 50))
    as [[| |score| | | |]|] eqn:Hscore; try discriminate.
  destruct (js_or (prop body "status") (str "talking"))
    as [[| | |st| | |]|] eqn:Hst; try discriminate.
  exists score, st. split; [reflexivity|]. split; [reflexivity|].
  unfold post_relationships. rewrite Hscore, Hst, H1, H2.
  unfold relationship_create, agent_exists, str.
  destruct (pair_taken x y (relationships d)); cbn [is_P2002].
  - reflexivity.
  - now rewrite Ha1, Ha2.
Qed.

(** C3. With the uniqueness constraint over the unordered pair
    ([pair_taken]): for two agents [x] and [y] that exist, a
    [POST /api/relationships] for the pair ([x], [y]) followed by one for
    ([y], [x]) are both answered with the same relationship, so with the
    same id, and the second writes nothing.  The relationship is the stored
    one of the pair, in either order: the one that was there (the constraint
    fired, nothing is written) or the one the first request creates, which
    has the given compatibility score, 50 when the body has none, and the
    given status, "talking" when the body has none. *)
Theorem post_relationships_create_or_fetch
    (schema : Schema) (now1 now2 : Z) (fresh1 fresh2 : string) (body1 body2 : obj)
    (d : DB) (x y : string) :
  prop body1 "agent1Id" = str x -> prop body1 "agent2Id" = str y ->
  prop body2 "agent1Id" = str y -> prop body2 "agent2Id" = str x ->
  rel_options_ok body1 = true -> rel_options_ok body2 = true ->
  is_Some (agents d !! x) -> is_Some (agents d !! y) ->
  exists r1 r2 d1,
    post_relationships schema now1 fresh1 body1 d = (Json (Some r1), d1)
    /\ post_relationships schema now2 fresh2 body2 d1 = (Json (Some r2), d1)
    /\ rel_id (rwa_relationship r1) = rel_id (rwa_relationship r2)
    /\ r2 = r1
    /\ r1 = include_agents d1 (rwa_relationship r1)
    /\ find (same_pair x y) (relationships d1) = Some (rwa_relationship r1)
    /\ (pair_taken x y (relationships d) = true -> d1 = d)
    /\ (pair_taken x y (relationships d) = false ->
        d1 = set_relationships d (relationships d ++ [rwa_relationship r1])
        /\ rel_id (rwa_relationship r1) = fresh1
        /\ rel_agent1Id (rwa_relationship r1) = x
        /\ rel_agent2Id (rwa_relationship r1) = y
        /\ Some (VNum (rel_compatibilityScore (rwa_relationship r1)))
           = js_or (prop body1 "compatibilityScore") (num 50)
        /\ (prop body1 "compatibilityScore" = None ->
            rel_compatibilityScore (rwa_relationship r1) = inject_Z 50)
        /\ Some (VStr (rel_status (rwa_relationship r1)))
           = js_or (prop body1 "status") (str "talking")
        /\ (prop body1 "status" = None -> rel_status (rwa_relationship r1) = "talking")).
Proof.
  intros H11 H12 H21 H22 Ho1 Ho2 Hx Hy.
  destruct (post_relationships_unfold schema now1 fresh1 body1 d x y H11 H12 Ho1 Hx Hy)
    as (score & st & Hscore & Hst & Hpost1).
  destruct (pair_taken x y (relationships d)) eqn:Htaken.
  - destruct (pair_taken_find x y _ Htaken) as (r & Hfind & Hr).
    rewrite Hfind in Hpost1. simpl in Hpost1.
    destruct (post_relationships_unfold schema now2 fresh2 body2 d y x H21 H22 Ho2 Hy Hx)
      as (score2 & st2 & _ & _ & Hpost2).
    rewrite <- pair_taken_sym, Htaken, <- find_same_pair_sym, Hfind in Hpost2.
    simpl in Hpost2.
    exists (include_agents d r), (include_agents d r), d.
    split; [exact Hpost1|]. split; [exact Hpost2|].
    split; [reflexivity|]. split; [reflexivity|]. split; [reflexivity|].
    split; [exact Hfind|]. split; [reflexivity|discriminate].
  - set (r := new_relationship schema now1 fresh1 x y score st) in *.
    set (d1 := set_relationships d (relationships d ++ [r])) in *.
    assert (Hr : same_pair x y r = true).
    { unfold same_pair, r. simpl. now rewrite !String.eqb_refl. }
    assert (Hfind : find (same_pair x y) (relationships d1) = Some r)
      by (now apply pair_free_find).
    destruct (post_relationships_unfold schema now2 fresh2 body2 d1 y x H21 H22 Ho2 Hy Hx)
      as (score2 & st2 & _ & _ & Hpost2).
    assert (Htaken1 : pair_taken y x (relationships d1) = true).
    { unfold d1. cbn [relationships set_relationships].
      rewrite pair_taken_app. apply orb_true_iff. right.
      unfold pair_taken. cbn [existsb]. now rewrite same_pair_sym, Hr. }
    rewrite Htaken1, <- find_same_pair_sym, Hfind in Hpost2. simpl in Hpost2.
    exists (include_agents d1 r), (include_agents d1 r), d1.
    split; [exact Hpost1|]. split; [exact Hpost2|].
    split; [reflexivity|]. split; [reflexivity|]. split; [reflexivity|].
    split; [exact Hfind|]. split; [discriminate|].
    intros _. simpl.
    split; [reflexivity|]. split; [reflexivity|]. split; [reflexivity|].
    split; [reflexivity|]. split; [now rewrite Hscore|].
    split; [intros Habs; rewrite Habs in Hscore; now inversion Hscore|].
    split; [now rewrite Hst|].
    intros Habs. rewrite Habs in Hst. now inversion Hst.
Qed.

Lemma post_relationships_create_or_fetch_witness :
  (is_Some (agents sample_db !! "ada") /\ is_Some (agents sample_db !! "eve")
   /\ pair_taken "ada" "eve" (relationships sample_db) = false)
  /\ exists r1 r2 d1,
       post_relationships sample_schema 9000 "r4"
         [("agent1Id", VStr "ada"); ("agent2Id", VStr "eve")] sample_db
         = (Json (Some r1), d1)
       /\ post_relationships sample_schema 9500 "r5"
            [("agent1Id", VStr "eve"); ("agent2Id", VStr "ada"); ("status", VStr "coupled")] d1
          = (Json (Some r2), d1)
       /\ rel_id (rwa_relationship r1) = rel_id (rwa_relationship r2)
       /\ rel_id (rwa_relationship r1) = "r4"
       /\ rel_compatibilityScore (rwa_relationship r1) = inject_Z 50
       /\ rel_status (rwa_relationship r1) = "talking".
Proof.
  assert (Hada : is_Some (agents sample_db !! "ada")) by (eexists; reflexivity).
  assert (Heve : is_Some (agents sample_db !! "eve")) by (eexists; reflexivity).
  split; [repeat split; assumption || reflexivity|].
  destruct (post_relationships_create_or_fetch sample_schema 9000 9500 "r4" "r5"
              [("agent1Id", VStr "ada"); ("agent2Id", VStr "eve")]
              [("agent1Id", VStr "eve"); ("agent2Id", VStr "ada"); ("status", VStr "coupled")]
              sample_db "ada" "eve" eq_refl eq_refl eq_refl eq_refl eq_refl eq_refl Hada Heve)
    as (r1 & r2 & d1 & Hp1 & Hp2 & Hid & _ & _ & _ & _ & Hnew).
  destruct (Hnew eq_refl) as (_ & Hfresh & _ & _ & _ & Hscore & _ & Hstatus).
  exists r1, r2, d1.
  split; [exact Hp1|]. split; [exact Hp2|]. split; [exact Hid|].
  split; [exact Hfresh|]. split; [now apply Hscore | now apply Hstatus].
Defined.

Lemma find_update_first {A : Type} (p : A -> bool) (f : A -> A) (l : list A) (x : A) :
  find p l = Some x -> p (f x) = true -> find p (update_first p f l) = Some (f x).
Proof.
  induction l as [|y l IH]; simpl; [discriminate|].
  destruct (p y) eqn:Hy.
  - intros [= ->] Hfx. simpl. now rewrite Hfx.
  - intros Hx Hfx. simpl. rewrite Hy. now apply IH.
Qed.

Lemma find_update_first_other {A : Type} (p q : A -> bool) (f : A -> A) (l : list A) :
  (forall y, p y = true -> q y = false /\ q (f y) = false) ->
  find q (update_first p f l) = find q l.
Proof.
  intros Hpq. induction l as [|y l IH]; simpl; [reflexivity|].
  destruct (p y) eqn:Hy.
  - destruct (Hpq y Hy) as [H1 H2]. simpl. now rewrite H1, H2.
  - simpl. now rewrite IH.
Qed.

Lemma find_relationship_id (id : string) (d : DB) (r : Relationship) :
  find_relationship id d = Some r -> rel_id r = id.
Proof.
  unfold find_relationship. intros H. apply find_some in H.
  now apply String.eqb_eq.
Qed.

Lemma relationship_update_data_keys (new_Date : value -> option Z) (body : obj) :
  relationship_update_data new_Date body
  = mkRelationshipUpdateData (prop body "status") (prop body "healthScore")
      (option_map new_Date (prop body "endedAt")).
Proof.
  unfold relationship_update_data.
  destruct (prop body "status"), (prop body "healthScore"), (prop body "endedAt");
    reflexivity.
Qed.

Lemma update_first_same {A : Type} (p : A -> bool) (l : list A) (x : A) :
  find p l = Some x -> update_first p (fun _ => x) l = l.
Proof.
  induction l as [|y l IH]; simpl; [reflexivity|].
  destruct (p y); [now intros [= ->] | intros H; now rewrite IH].
Qed.

(** What the handler does with a body the store takes, for a relationship
    that exists. *)
Lemma put_relationship_result
    (new_Date : value -> option Z) (now : Z) (id : string) (body : obj)
    (w : World) (old : Relationship) :
  find_relationship id (db w) = Some old ->
  rel_update_ok new_Date body = true ->
  let row :=
    mkRelationship (rel_id old) (rel_agent1Id old) (rel_agent2Id old)
      (rel_compatibilityScore old)
      (match prop body "status" with Some (VStr s) => s | _ => rel_status old end)
      (match prop body "healthScore" with Some (VNum q) => q | _ => rel_healthScore old end)
      (rel_createdAt old)
      (match prop body "status", prop body "healthScore", prop body "endedAt" with
       | None, None, None => rel_updatedAt old
       | _, _, _ => now
       end)
      (match prop body "endedAt" with Some v => new_Date v | None => rel_endedAt old end) in
  let d' :=
    set_relationships (db w)
      (update_first (fun x => String.eqb (rel_id x) id) (fun _ => row) (relationships (db w))) in
  let r :=
    mkRelationshipWithAgents row
      (agents (db w) !! rel_agent1Id old) (agents (db w) !! rel_agent2Id old) in
  put_relationship new_Date now id body w
  = (Json r,
     mkWorld d' (emitted w ++ [mkEmission "/villa-feed" "relationship-update" (PRelationship r)])).
Proof.
  intros Hold Hok. unfold rel_update_ok in Hok.
  apply andb_true_iff in Hok. destruct Hok as [Hok Hended].
  apply andb_true_iff in Hok. destruct Hok as [Hstatus Hhealth].
  unfold put_relationship, relationship_update.
  rewrite relationship_update_data_keys.
  cbn [rud_status rud_healthScore rud_endedAt rud_empty].
  destruct (prop body "status") as [[| | |s| | |]|]; try discriminate;
  destruct (prop body "healthScore") as [[| |q| | | |]|]; try discriminate;
  destruct (prop body "endedAt") as [v|];
  cbn [option_map andb] in *;
  try (destruct (new_Date v) as [t|]; [|discriminate]);
  cbn [andb]; rewrite Hold; reflexivity.
Qed.

(** C4, as stated, fails on the update time: no body can name it, and it
    changes whenever the body gives one of the three fields.  The
    relationship of Ada and Bob was last updated at 5000; ending it at 9000
    stores 9000 as its update time. *)
Lemma put_relationship_stamps_updatedAt :
  prop ending "updatedAt" = None
  /\ (exists old,
        find_relationship "r1" (db sample_world) = Some old /\ rel_updatedAt old = 5000)
  /\ exists r w',
       put_relationship sample_Date 9000 "r1" ending sample_world = (Json r, w')
       /\ find_relationship "r1" (db w') = Some (rwa_relationship r)
       /\ rel_updatedAt (rwa_relationship r) = 9000.
Proof.
  split; [reflexivity|]. split; [eexists; split; reflexivity|].
  eexists. eexists. repeat split; vm_compute; reflexivity.
Qed.

(** C4, amended. [PUT /api/relationships/:id] for a relationship that
    exists, with a body whose [status], [healthScore] and [endedAt], where
    present, are a string, a number and a date the [Date] constructor
    accepts: each of the three columns takes the value of the body when the
    body has the property ([endedAt] the date made from it) and keeps its
    stored value when it has not; the id, the pair, the compatibility score
    and the creation time are never written; the update time is the time
    of the request when the body has one of the three properties, and with
    none of them the store is left as it was.  The answer is the updated
    row together with the stored rows of its two agents, and the same value
    goes out on "/villa-feed" as "relationship-update". *)
Theorem put_relationship_partial
    (new_Date : value -> option Z) (now : Z) (id : string) (body : obj)
    (w : World) (old : Relationship) :
  find_relationship id (db w) = Some old ->
  rel_update_ok new_Date body = true ->
  exists r w',
    put_relationship new_Date now id body w = (Json r, w')
    /\ find_relationship id (db w') = Some (rwa_relationship r)
    /\ rwa_agent1 r = agents (db w) !! rel_agent1Id old
    /\ rwa_agent2 r = agents (db w) !! rel_agent2Id old
    /\ emitted w'
       = emitted w ++ [mkEmission "/villa-feed" "relationship-update" (PRelationship r)]
    /\ (forall s, prop body "status" = Some (VStr s) -> rel_status (rwa_relationship r) = s)
    /\ (forall q, prop body "healthScore" = Some (VNum q) ->
          rel_healthScore (rwa_relationship r) = q)
    /\ (forall v, prop body "endedAt" = Some v ->
          rel_endedAt (rwa_relationship r) = new_Date v)
    /\ (prop body "status" = None -> rel_status (rwa_relationship r) = rel_status old)
    /\ (prop body "healthScore" = None ->
          rel_healthScore (rwa_relationship r) = rel_healthScore old)
    /\ (prop body "endedAt" = None -> rel_endedAt (rwa_relationship r) = rel_endedAt old)
    /\ rel_id (rwa_relationship r) = rel_id old
    /\ rel_agent1Id (rwa_relationship r) = rel_agent1Id old
    /\ rel_agent2Id (rwa_relationship r) = rel_agent2Id old
    /\ rel_compatibilityScore (rwa_relationship r) = rel_compatibilityScore old
    /\ rel_createdAt (rwa_relationship r) = rel_createdAt old
    /\ (prop body "status" <> None \/ prop body "healthScore" <> None
        \/ prop body "endedAt" <> None ->
        rel_updatedAt (rwa_relationship r) = now)
    /\ (prop body "status" = None -> prop body "healthScore" = None ->
        prop body "endedAt" = None ->
        rwa_relationship r = old /\ db w' = db w)
    /\ (forall id', id' <> id ->
          find_relationship id' (db w') = find_relationship id' (db w))
    /\ agents (db w') = agents (db w)
    /\ conversations (db w') = conversations (db w)
    /\ messages (db w') = messages (db w)
    /\ events (db w') = events (db w)
    /\ waitlist (db w') = waitlist (db w).
Proof.
  intros Hold Hok.
  pose proof (put_relationship_result new_Date now id body w old Hold Hok) as Hput.
  cbv zeta in Hput.
  pose proof (find_relationship_id id (db w) old Hold) as Hid.
  eexists. eexists. split; [exact Hput|].
  cbn [db emitted rwa_relationship rwa_agent1 rwa_agent2 set_relationships relationships
       agents conversations messages events waitlist
       rel_id rel_agent1Id rel_agent2Id rel_compatibilityScore rel_status
       rel_healthScore rel_createdAt rel_updatedAt rel_endedAt].
  split.
  { unfold find_relationship. cbn [relationships set_relationships].
    erewrite find_update_first;
      [reflexivity | exact Hold | cbn [rel_id]; rewrite Hid; apply String.eqb_refl]. }
  do 3 (split; [reflexivity|]).
  split; [intros s ->; reflexivity|].
  split; [intros q ->; reflexivity|].
  split; [intros v ->; reflexivity|].
  split; [intros ->; reflexivity|].
  split; [intros ->; reflexivity|].
  split; [intros ->; reflexivity|].
  do 5 (split; [reflexivity|]).
  split.
  { intros Hsome.
    destruct (prop body "status"); [reflexivity|].
    destruct (prop body "healthScore"); [reflexivity|].
    destruct (prop body "endedAt"); [reflexivity|].
    destruct Hsome as [H | [H | H]]; now destruct H. }
  split.
  { intros -> -> ->.
    assert (Hrow : mkRelationship (rel_id old) (rel_agent1Id old) (rel_agent2Id old)
                     (rel_compatibilityScore old) (rel_status old) (rel_healthScore old)
                     (rel_createdAt old) (rel_updatedAt old) (rel_endedAt old) = old)
      by now destruct old.
    rewrite Hrow. split; [reflexivity|].
    unfold find_relationship in Hold. rewrite (update_first_same _ _ _ Hold).
    now destruct (db w). }
  split; [|repeat split].
  intros id' Hne. unfold find_relationship. cbn [relationships set_relationships].
  apply find_update_first_other. intros y Hy. apply String.eqb_eq in Hy.
  cbn [rel_id]. rewrite Hid, Hy.
  split; apply String.eqb_neq; congruence.
Qed.

Lemma put_relationship_partial_witness :
  (find_relationship "r1" (db sample_world)
     = Some (mkRelationship "r1" "ada" "bob" (inject_Z 90) "coupled" (inject_Z 70) 2000 5000 None)
   /\ rel_update_ok sample_Date ending = true)
  /\ exists r w',
       put_relationship sample_Date 9000 "r1" ending sample_world = (Json r, w')
       /\ find_relationship "r1" (db w') = Some (rwa_relationship r)
       /\ rwa_agent1 r = Some ada
       /\ rwa_agent2 r = Some bob
       /\ emitted w' = [mkEmission "/villa-feed" "relationship-update" (PRelationship r)]
       /\ rwa_relationship r
          = mkRelationship "r1" "ada" "bob" (inject_Z 90) "ended" (inject_Z 70) 2000 9000
              (Some 1772323200000).
Proof.
  split; [split; reflexivity|].
  destruct (put_relationship_partial sample_Date 9000 "r1" ending sample_world
              (mkRelationship "r1" "ada" "bob" (inject_Z 90) "coupled" (inject_Z 70) 2000 5000 None)
              eq_refl eq_refl)
    as (r & w' & Hput & Hfind & H1 & H2 & Hem & Hst & _ & Hend & _ & Hhealth & _
        & Hid & Ha1 & Ha2 & Hscore & Hcreated & Hupdated & _).
  exists r, w'.
  split; [exact Hput|]. split; [exact Hfind|].
  split; [exact H1|]. split; [exact H2|]. split; [exact Hem|].
  clear Hput Hfind H1 H2 Hem.
  assert (Hs : prop ending "status" <> None) by discriminate.
  destruct r as [[rid a1 a2 score st health created updated ended] ag1 ag2].
  cbn [rwa_relationship rel_id rel_agent1Id rel_agent2Id rel_compatibilityScore rel_status
       rel_healthScore rel_createdAt rel_updatedAt rel_endedAt] in *.
  rewrite Hid, Ha1, Ha2, Hscore, Hcreated, (Hst "ended" eq_refl), (Hhealth eq_refl),
    (Hend _ eq_refl), (Hupdated (or_introl Hs)).
  reflexivity.
Defined.

(** A pair with an agent that is not stored is no conflict and cannot be
    created: the answer is 500. *)
Remark post_relationships_unknown_agent
    (schema : Schema) (now : Z) (fresh : string) (body : obj) (d : DB) (x y : string) :
  prop body "agent1Id" = str x -> prop body "agent2Id" = str y ->
  pair_taken x y (relationships d) = false ->
  agents d !! x = None ->
  post_relationships schema now fresh body d = (Status 500 "Failed to create relationship", d).
Proof.
  intros H1 H2 Hfree Hx. unfold post_relationships, relationship_create, agent_exists.
  rewrite H1, H2. unfold str.
  destruct (js_or (prop body "compatibilityScore") (num 50)) as [[| |q| | | |]|];
    try reflexivity;
    destruct (js_or (prop body "status") (Some (VStr "talking"))) as [[| | |s| | |]|];
    try reflexivity.
  now rewrite Hfree, Hx.
Qed.

(** ** Messages *)

Lemma find_conversation_id (id : string) (d : DB) (c : Conversation) :
  find_conversation id d = Some c -> conv_id c = id.
Proof.
  unfold find_conversation. intros H. apply find_some in H.
  now apply String.eqb_eq.
Qed.

Lemma message_create_ok
    (created : Z) (fresh : string) (c f t text : string) (sentiment : jsval) (d : DB) :
  match sentiment with Some VNull | Some (VStr _) => true | _ => false end = true ->
  is_Some (find_conversation c d) ->
  is_Some (agents d !! f) ->
  is_Some (agents d !! t) ->
  exists label,
    message_create created fresh (str c) (str f) (str t) (str text) sentiment d
    = (Ok (mkMessage fresh c f t text label created),
       set_messages d (messages d ++ [mkMessage fresh c f t text label created])).
Proof.
  intros Hsent [conv Hconv] [af Haf] [at_ Hat].
  unfold message_create, conversation_exists, agent_exists, str. rewrite Hconv, Haf, Hat.
  destruct sentiment as [[| | |s| | |]|]; try discriminate; eauto.
Qed.

Lemma conversation_touch_ok (c : string) (now : Z) (d : DB) (conv : Conversation) :
  find_conversation c d = Some conv ->
  let conv' :=
    mkConversation (conv_id conv) (conv_relationshipId conv) now
      (conv_dramaScore conv) (conv_viralPotential conv) in
  conversation_touch (str c) now d
  = (Ok conv',
     set_conversations d
       (update_first (fun x => String.eqb (conv_id x) c) (fun _ => conv') (conversations d)))
  /\ find_conversation c
       (set_conversations d
          (update_first (fun x => String.eqb (conv_id x) c) (fun _ => conv') (conversations d)))
     = Some conv'.
Proof.
  intros Hconv conv'. split.
  - unfold conversation_touch, str. now rewrite Hconv.
  - unfold find_conversation. cbn [conversations set_conversations].
    apply (find_update_first _ (fun _ => conv') _ conv Hconv).
    unfold conv'. cbn [conv_id].
    rewrite (find_conversation_id c d conv Hconv). apply String.eqb_refl.
Qed.

Lemma read_clock_later (c : Clock) : clock_time c <= second_reading c.
Proof.
  unfold second_reading, read_clock. cbn [fst snd].
  destruct (clock_waits c) as [|wait rest]; cbn [clock_time]; lia.
Qed.

(** The handler in terms of the two readings of the clock. *)
Lemma post_messages_readings (clock : Clock) (fresh : string) (body : obj) (w : World) :
  post_messages clock fresh body w
  = match message_create (clock_time clock) fresh (prop body "conversationId")
            (prop body "fromId") (prop body "toId") (prop body "content")
            (js_or (prop body "sentiment") null) (db w) with
    | (Ok m, d1) =>
        match conversation_touch (prop body "conversationId") (second_reading clock) d1 with
        | (Ok _, d2) =>
            (Json (mkMessageWithAgents m (agents d1 !! msg_fromId m) (agents d1 !! msg_toId m)),
             mkWorld d2
               (emitted w ++
                [mkEmission "/villa-feed" "new-message"
                   (PMessage
                      (mkEnvelope "message"
                         (mkMessageWithAgents m (agents d1 !! msg_fromId m)
                            (agents d1 !! msg_toId m))
                         (msg_createdAt m)))]))
        | (Throw _, d2) => (Status 500 "Failed to create message", mkWorld d2 (emitted w))
        end
    | (Throw _, d1) => (Status 500 "Failed to create message", mkWorld d1 (emitted w))
    end.
Proof. reflexivity. Qed.

(** C9. [POST /api/messages] with a body of four strings and a fine
    sentiment, for a conversation and two agents that exist: the message is
    appended with the time the clock shows when the store creates it; the
    handler reads the clock again after that and gives this second reading
    to the conversation of the message as [lastMessageAt], so the stored
    conversation shows a last-message time that is not before the creation
    time of the message; then the message, with both agents, goes out on
    "/villa-feed" as "new-message" in the envelope of type "message" stamped
    with its creation time, and is the answer. *)
Theorem post_messages_touches_conversation
    (clock : Clock) (fresh : string) (body : obj) (w : World) (c f t text : string) :
  prop body "conversationId" = str c ->
  prop body "fromId" = str f ->
  prop body "toId" = str t ->
  prop body "content" = str text ->
  sentiment_ok body = true ->
  is_Some (find_conversation c (db w)) ->
  is_Some (agents (db w) !! f) ->
  is_Some (agents (db w) !! t) ->
  exists m w' conv,
    post_messages clock fresh body w = (Json m, w')
    /\ messages (db w') = messages (db w) ++ [mwa_message m]
    /\ msg_id (mwa_message m) = fresh
    /\ msg_conversationId (mwa_message m) = c
    /\ msg_fromId (mwa_message m) = f
    /\ msg_toId (mwa_message m) = t
    /\ msg_content (mwa_message m) = text
    /\ msg_createdAt (mwa_message m) = clock_time clock
    /\ mwa_from m = agents (db w) !! f
    /\ mwa_to m = agents (db w) !! t
    /\ find_conversation c (db w') = Some conv
    /\ conv_id conv = c
    /\ conv_lastMessageAt conv = second_reading clock
    /\ msg_createdAt (mwa_message m) <= conv_lastMessageAt conv
    /\ emitted w'
       = emitted w ++
         [mkEmission "/villa-feed" "new-message"
            (PMessage (mkEnvelope "message" m (msg_createdAt (mwa_message m))))].
Proof.
  intros Hc Hf Ht Htext Hsent [conv Hconv] Hfrom Hto.
  destruct (message_create_ok (clock_time clock) fresh c f t text
              (js_or (prop body "sentiment") null) (db w) Hsent
              (ex_intro _ conv Hconv) Hfrom Hto) as (label & Hcreate).
  set (m := mkMessage fresh c f t text label (clock_time clock)) in *.
  set (d1 := set_messages (db w) (messages (db w) ++ [m])) in *.
  destruct (conversation_touch_ok c (second_reading clock) d1 conv Hconv) as [Htouch Hfind].
  rewrite post_messages_readings, Hc, Hf, Ht, Htext, Hcreate, Htouch.
  eexists. eexists. eexists.
  split; [reflexivity|].
  cbn [db emitted mwa_message mwa_from mwa_to].
  repeat (split; [reflexivity|]).
  split; [exact Hfind|].
  split; [cbn [conv_id]; exact (find_conversation_id c (db w) conv Hconv)|].
  split; [reflexivity|].
  split; [cbn [conv_lastMessageAt msg_createdAt m]; apply read_clock_later | reflexivity].
Qed.

Lemma post_messages_touches_conversation_witness :
  (sentiment_ok see_you = true
   /\ is_Some (find_conversation "c1" (db sample_world))
   /\ is_Some (agents (db sample_world) !! "ada")
   /\ is_Some (agents (db sample_world) !! "bob"))
  /\ exists m w' conv,
       post_messages sample_clock "m3" see_you sample_world = (Json m, w')
       /\ messages (db w') = messages (db sample_world) ++ [mwa_message m]
       /\ mwa_message m = mkMessage "m3" "c1" "ada" "bob" "see you" (Some "fond") 9000
       /\ find_conversation "c1" (db w') = Some conv
       /\ conv_lastMessageAt conv = 9002
       /\ msg_createdAt (mwa_message m) <= conv_lastMessageAt conv
       /\ emitted w'
          = [mkEmission "/villa-feed" "new-message"
               (PMessage (mkEnvelope "message" m (msg_createdAt (mwa_message m))))].
Proof.
  assert (Hconv : is_Some (find_conversation "c1" (db sample_world)))
    by (eexists; reflexivity).
  assert (Hada : is_Some (agents (db sample_world) !! "ada")) by (eexists; reflexivity).
  assert (Hbob : is_Some (agents (db sample_world) !! "bob")) by (eexists; reflexivity).
  split; [repeat split; assumption || reflexivity|].
  destruct (post_messages_touches_conversation sample_clock "m3" see_you sample_world
              "c1" "ada" "bob" "see you" eq_refl eq_refl eq_refl eq_refl eq_refl
              Hconv Hada Hbob)
    as (m & w' & conv & Hpost & Hmsgs & _ & _ & _ & _ & _ & _ & _ & _
        & Hfind & _ & Hlast & Hle & Hem).
  assert (Hm : match post_messages sample_clock "m3" see_you sample_world with
               | (Json x, _) => Some (mwa_message x)
               | _ => None
               end = Some (mkMessage "m3" "c1" "ada" "bob" "see you" (Some "fond") 9000))
    by (vm_compute; reflexivity).
  rewrite Hpost in Hm. injection Hm as Hm.
  exists m, w', conv. repeat (split; [assumption|]). exact Hem.
Defined.

(** ** The socket namespaces *)

Lemma socket_run_app (c : Clients) (es1 es2 : list SocketEvent) :
  socket_run c (es1 ++ es2)
  = (fst (socket_run (fst (socket_run c es1)) es2),
     snd (socket_run c es1) ++ snd (socket_run (fst (socket_run c es1)) es2)).
Proof.
  revert c. induction es1 as [|e es1 IH]; intros c.
  - simpl. now destruct (socket_run c es2).
  - cbn [app socket_run]. destruct (socket_step c e) as [c1 out1].
    rewrite IH. destruct (socket_run c1 es1) as [c2 out2]. cbn [fst snd].
    now rewrite app_assoc.
Qed.

Lemma socket_run_counts (es : list SocketEvent) (c : Clients) :
  villaFeedClients (fst (socket_run c es))
  = villaFeedClients c + Z.of_nat (occurrences (Connection VillaFeed) es)
    - Z.of_nat (occurrences (Disconnect VillaFeed) es)
  /\ conversationsClients (fst (socket_run c es))
     = conversationsClients c + Z.of_nat (occurrences (Connection Conversations) es)
       - Z.of_nat (occurrences (Disconnect Conversations) es).
Proof.
  unfold occurrences. revert c. induction es as [|e es IH]; intros c.
  - simpl. lia.
  - cbn [socket_run]. destruct (socket_step c e) as [c1 out1] eqn:Hstep.
    specialize (IH c1). destruct (socket_run c1 es) as [c2 out2]. cbn [fst] in *.
    destruct e as [[|]|[|]]; cbn in Hstep; inversion Hstep; subst c1; clear Hstep;
      cbn [List.filter is_event length villaFeedClients conversationsClients] in *; lia.
Qed.

(** X1. Whatever the order in which sockets connect and disconnect, each
    counter is where it started plus the connections minus the
    disconnections of its own namespace, and [GET /api/ws-status] after a
    run from the start of the process reports these two numbers and their
    sum. *)
Theorem ws_status_after_run (es : list SocketEvent) :
  get_ws_status (fst (socket_run clients_start es))
  = Json (mkWsStatus
            (Z.of_nat (occurrences (Connection VillaFeed) es)
             - Z.of_nat (occurrences (Disconnect VillaFeed) es))
            (Z.of_nat (occurrences (Connection Conversations) es)
             - Z.of_nat (occurrences (Disconnect Conversations) es))
            (Z.of_nat (occurrences (Connection VillaFeed) es)
             - Z.of_nat (occurrences (Disconnect VillaFeed) es)
             + (Z.of_nat (occurrences (Connection Conversations) es)
                - Z.of_nat (occurrences (Disconnect Conversations) es)))).
Proof.
  destruct (socket_run_counts es clients_start) as [Hv Hc].
  unfold get_ws_status. rewrite Hv, Hc. reflexivity.
Qed.

Lemma socket_run_only_villa_feed (es : list SocketEvent) (c : Clients) :
  Forall (fun b => bc_namespace b = "/villa-feed" /\ bc_event b = "client-count"
                   /\ exists n, bc_payload b = NClientCount n)
    (snd (socket_run c es))
  /\ length (snd (socket_run c es)) = length (List.filter on_villa_feed es).
Proof.
  revert c. induction es as [|e es IH]; intros c.
  - simpl. split; [constructor | reflexivity].
  - cbn [socket_run]. destruct (socket_step c e) as [c1 out1] eqn:Hstep.
    destruct (IH c1) as [Hall Hlen]. destruct (socket_run c1 es) as [c2 out2].
    cbn [snd] in *.
    destruct e as [[|]|[|]]; cbn in Hstep; inversion Hstep; subst; clear Hstep;
      cbn [app List.filter on_villa_feed length];
      (split; [|now rewrite ?Hlen]);
      try exact Hall; (constructor; [|exact Hall]); cbn; eauto.
Qed.

(** X2. Every connection to and disconnection from the villa-feed namespace
    sends one "client-count" on "/villa-feed" that carries the counter as it
    is right after that event; the events of the conversations namespace
    send nothing, so a run sends as many broadcasts as it has villa-feed
    events. *)
Theorem client_count_follows_counter (c : Clients) (es1 es2 : list SocketEvent) (e : SocketEvent) :
  on_villa_feed e = true ->
  exists before after,
    snd (socket_run c (es1 ++ e :: es2))
    = before
      ++ [mkBroadcast "/villa-feed" "client-count"
            (NClientCount (villaFeedClients (fst (socket_run c (es1 ++ [e])))))]
      ++ after
    /\ length before = length (List.filter on_villa_feed es1)
    /\ length after = length (List.filter on_villa_feed es2)
    /\ Forall (fun b => bc_namespace b = "/villa-feed" /\ bc_event b = "client-count")
         (snd (socket_run c (es1 ++ e :: es2))).
Proof.
  intros He.
  exists (snd (socket_run c es1)).
  exists (snd (socket_run (fst (socket_run c (es1 ++ [e]))) es2)).
  assert (Hsplit : es1 ++ e :: es2 = (es1 ++ [e]) ++ es2) by now rewrite <- app_assoc.
  split; [|split; [|split]].
  - rewrite Hsplit, socket_run_app. cbn [snd].
    rewrite (socket_run_app c es1 [e]). cbn [fst snd].
    rewrite <- app_assoc. f_equal. f_equal.
    cbn [socket_run]. destruct (socket_step (fst (socket_run c es1)) e) as [c1 out1] eqn:Hstep.
    cbn [fst snd]. rewrite app_nil_r.
    destruct e as [[|]|[|]]; try discriminate; cbn in Hstep; inversion Hstep; reflexivity.
  - apply socket_run_only_villa_feed.
  - apply socket_run_only_villa_feed.
  - eapply Forall_impl; [apply socket_run_only_villa_feed|].
    intros b (H1 & H2 & _). now split.
Qed.

Lemma client_count_follows_counter_witness :
  on_villa_feed (Disconnect VillaFeed) = true
  /\ exists before after,
       snd (socket_run clients_start
              ([Connection VillaFeed; Connection Conversations; Connection VillaFeed]
               ++ Disconnect VillaFeed :: [Disconnect Conversations]))
       = before
         ++ [mkBroadcast "/villa-feed" "client-count"
               (NClientCount
                  (villaFeedClients
                     (fst (socket_run clients_start
                             ([Connection VillaFeed; Connection Conversations;
                               Connection VillaFeed] ++ [Disconnect VillaFeed])))))]
         ++ after
       /\ length before
          = length (List.filter on_villa_feed
                      [Connection VillaFeed; Connection Conversations; Connection VillaFeed])
       /\ length after = length (List.filter on_villa_feed [Disconnect Conversations])
       /\ Forall (fun b => bc_namespace b = "/villa-feed" /\ bc_event b = "client-count")
            (snd (socket_run clients_start
                    ([Connection VillaFeed; Connection Conversations; Connection VillaFeed]
                     ++ Disconnect VillaFeed :: [Disconnect Conversations]))).
Proof.
  split; [reflexivity|].
  apply (client_count_follows_counter clients_start
           [Connection VillaFeed; Connection Conversations; Connection VillaFeed]
           [Disconnect Conversations] (Disconnect VillaFeed)).
  reflexivity.
Defined.

Lemma balanced_counts (es : list SocketEvent) (vf cv : nat) (c : Clients) :
  balanced vf cv es = true ->
  villaFeedClients c = Z.of_nat vf ->
  conversationsClients c = Z.of_nat cv ->
  0 <= villaFeedClients (fst (socket_run c es))
  /\ 0 <= conversationsClients (fst (socket_run c es))
  /\ Forall (fun b => exists n, client_count b = Some n /\ 0 <= n) (snd (socket_run c es)).
Proof.
  revert vf cv c. induction es as [|e es IH]; intros vf cv c Hbal Hvf Hcv.
  - simpl. repeat split; [lia | lia | constructor].
  - cbn [socket_run]. destruct (socket_step c e) as [c1 out1] eqn:Hstep.
    destruct e as [[|]|[|]]; cbn in Hstep; inversion Hstep; subst c1 out1; clear Hstep;
      cbn [balanced] in Hbal.
    + destruct (IH (S vf) cv (mkClients (villaFeedClients c + 1) (conversationsClients c)) Hbal)
        as (H1 & H2 & H3); [cbn; lia | exact Hcv |].
      destruct (socket_run _ es) as [c2 out2]. cbn [fst snd app] in *.
      repeat split; try assumption. constructor; [|exact H3].
      eexists. split; [reflexivity|]. lia.
    + destruct (IH vf (S cv) (mkClients (villaFeedClients c) (conversationsClients c + 1)) Hbal)
        as (H1 & H2 & H3); [exact Hvf | cbn; lia |].
      destruct (socket_run _ es) as [c2 out2]. cbn [fst snd app] in *.
      repeat split; assumption.
    + destruct vf as [|n]; [discriminate|].
      destruct (IH n cv (mkClients (villaFeedClients c - 1) (conversationsClients c)) Hbal)
        as (H1 & H2 & H3); [cbn; lia | exact Hcv |].
      destruct (socket_run _ es) as [c2 out2]. cbn [fst snd app] in *.
      repeat split; try assumption. constructor; [|exact H3].
      eexists. split; [reflexivity|]. lia.
    + destruct cv as [|n]; [discriminate|].
      destruct (IH vf n (mkClients (villaFeedClients c) (conversationsClients c - 1)) Hbal)
        as (H1 & H2 & H3); [exact Hvf | cbn; lia |].
      destruct (socket_run _ es) as [c2 out2]. cbn [fst snd app] in *.
      repeat split; assumption.
Qed.

(** X3. From the start of the process, as long as only sockets that are
    connected disconnect, neither counter goes below 0 and no "client-count"
    that is sent is negative. *)
Theorem counters_never_negative (es : list SocketEvent) :
  balanced 0 0 es = true ->
  0 <= villaFeedClients (fst (socket_run clients_start es))
  /\ 0 <= conversationsClients (fst (socket_run clients_start es))
  /\ Forall (fun b => exists n, client_count b = Some n /\ 0 <= n)
       (snd (socket_run clients_start es)).
Proof. intros Hbal. now apply (balanced_counts es 0 0 clients_start Hbal). Qed.

Lemma counters_never_negative_witness :
  balanced 0 0 sample_run = true
  /\ 0 <= villaFeedClients (fst (socket_run clients_start sample_run))
  /\ 0 <= conversationsClients (fst (socket_run clients_start sample_run))
  /\ Forall (fun b => exists n, client_count b = Some n /\ 0 <= n)
       (snd (socket_run clients_start sample_run)).
Proof.
  split; [reflexivity|].
  apply (counters_never_negative sample_run). reflexivity.
Defined.

(** ** More on the agent routes *)

(** X4. [GET /api/agents] answers with every stored agent row and nothing
    else, as many rows as there are agents, the most recently created
    first. *)
Theorem get_agents_lists_all (d : DB) :
  exists l,
    get_agents d = Json l
    /\ (forall a, In a l <-> exists id, agents d !! id = Some a)
    /\ length l = size (agents d)
    /\ StronglySorted (fun a b => agent_createdAt b <= agent_createdAt a) l.
Proof.
  eexists. split; [reflexivity|].
  set (rows := map snd (map_to_list (agents d))).
  assert (Hperm : Permutation (order_by_desc agent_createdAt rows) rows)
    by apply sort_by_perm.
  split; [|split].
  - intros a. split.
    + intros Ha. apply (Permutation_in _ Hperm) in Ha.
      apply in_map_iff in Ha. destruct Ha as ([id a'] & <- & Hin).
      exists id. apply elem_of_map_to_list. now apply list_elem_of_In.
    + intros (id & Hid). apply (Permutation_in _ (Permutation_sym Hperm)).
      apply in_map_iff. exists (id, a). split; [reflexivity|].
      apply list_elem_of_In. now apply elem_of_map_to_list.
  - rewrite (Permutation_length Hperm). unfold rows.
    rewrite length_map. apply length_map_to_list.
  - eapply sorted_impl; [|apply sort_by_sorted].
    + intros a b Hab. simpl in Hab. now apply Z.leb_le.
    + intros a b. apply date_order_total.
    + intros a b c. apply date_order_trans.
Qed.

Lemma written_id_update (data : obj) : written "id" (agent_update_data data) = None.
Proof. reflexivity. Qed.

Lemma post_agents_existing
    (schema : Schema) (now : Z) (data : obj) (d : DB) (id : string) (old : gmap string value) :
  prop data "id" = str id ->
  agent_create_ok schema (strip (agent_create_data data)) = true ->
  agent_update_ok schema (strip (agent_update_data data)) = true ->
  agents d !! id = Some old ->
  post_agents schema now data d
  = (Json (strip (agent_update_data data) ∪ old),
     set_agents d (<[id := strip (agent_update_data data) ∪ old]> (agents d))).
Proof.
  intros Hid Hc Hu Hold. unfold post_agents, agent_upsert.
  rewrite Hid. unfold str. now rewrite Hc, Hu, Hold.
Qed.

(** X5. [POST /api/agents] is idempotent: a request the schema accepts,
    sent a second time right after the first, is answered with the same row
    and leaves the store as the first left it. *)
Theorem post_agents_idempotent
    (schema : Schema) (now1 now2 : Z) (data : obj) (d : DB) (id : string) :
  prop data "id" = str id ->
  agent_create_ok schema (strip (agent_create_data data)) = true ->
  agent_update_ok schema (strip (agent_update_data data)) = true ->
  exists agent d1,
    post_agents schema now1 data d = (Json agent, d1)
    /\ post_agents schema now2 data d1 = (Json agent, d1).
Proof.
  intros Hid Hc Hu.
  destruct (post_agents_result schema now1 data d id Hid Hc Hu) as (agent & Hpost & Hcols).
  set (d1 := set_agents d (<[id := agent]> (agents d))) in *.
  assert (Hstored : agents d1 !! id = Some agent) by apply lookup_insert_eq.
  assert (Hsame : strip (agent_update_data data) ∪ agent = agent).
  { apply map_eq. intros k. rewrite written_lookup.
    destruct (written k (agent_update_data data)) as [v|] eqn:Hw; [|reflexivity].
    destruct (String.eqb_spec k "id") as [->|Hk].
    - rewrite written_id_update in Hw. discriminate.
    - now rewrite (Hcols k Hk), Hw. }
  exists agent, d1. split; [exact Hpost|].
  rewrite (post_agents_existing schema now2 data d1 id agent Hid Hc Hu Hstored), Hsame.
  f_equal. unfold d1, set_agents. cbn [agents relationships conversations messages events waitlist].
  now rewrite insert_insert_eq.
Qed.

Lemma post_agents_idempotent_witness :
  (prop dee_profile "id" = str "dee"
   /\ agent_create_ok sample_schema (strip (agent_create_data dee_profile)) = true
   /\ agent_update_ok sample_schema (strip (agent_update_data dee_profile)) = true)
  /\ exists agent d1,
       post_agents sample_schema 9000 dee_profile sample_db = (Json agent, d1)
       /\ post_agents sample_schema 9500 dee_profile d1 = (Json agent, d1).
Proof.
  split; [repeat split; vm_compute; reflexivity|].
  apply (post_agents_idempotent sample_schema 9000 9500 dee_profile sample_db "dee");
    vm_compute; reflexivity.
Defined.

Lemma bulk_loop_app (schema : Schema) (now : Z) (l1 l2 : list value) :
  forall (results : list (gmap string value)) (d : DB),
  bulk_loop schema now (l1 ++ l2) results d
  = match bulk_loop schema now l1 results d with
    | (Ok results1, d1) => bulk_loop schema now l2 results1 d1
    | (Throw e, d1) => (Throw e, d1)
    end.
Proof.
  induction l1 as [|item l1 IH]; intros results d; cbn [app bulk_loop]; [reflexivity|].
  destruct (item_fields item) as [data|e]; [|reflexivity].
  destruct (agent_upsert schema now (prop data "id") (bulk_update_data data)
              (bulk_create_data data) d) as [[agent|e] d']; [apply IH | reflexivity].
Qed.

Lemma bulk_loop_stops (schema : Schema) (now : Z) (item : value) (rest : list value)
    (results : list (gmap string value)) (d : DB) :
  bulk_item_ok schema item = false ->
  exists e, bulk_loop schema now (item :: rest) results d = (Throw e, d).
Proof.
  unfold bulk_item_ok. intros Hbad. cbn [bulk_loop].
  destruct (item_fields item) as [data|e]; [|eauto].
  unfold agent_upsert.
  destruct (prop data "id") as [[| | |id| | |]|]; eauto.
  rewrite Hbad. eauto.
Qed.

(** X6. [POST /api/agents/bulk] is not atomic: when the items in front of
    one that cannot be upserted are all fine, the answer is 500 and the
    store is the one a bulk request of just those items in front leaves. *)
Theorem post_agents_bulk_keeps_prefix
    (schema : Schema) (now : Z) (body1 body : obj) (d : DB)
    (front rest : list value) (bad : value) :
  prop body1 "agents" = Some (VArr front) ->
  prop body "agents" = Some (VArr (front ++ bad :: rest)) ->
  forallb (bulk_item_ok schema) front = true ->
  bulk_item_ok schema bad = false ->
  exists results d1,
    post_agents_bulk schema now body1 d = (Json (mkBulkResult true (length front) results), d1)
    /\ post_agents_bulk schema now body d = (Status 500 "Failed to bulk sync agents", d1).
Proof.
  intros Hb1 Hb Hfront Hbad. unfold post_agents_bulk. rewrite Hb1, Hb.
  destruct (bulk_loop_spec schema now front Hfront [] d) as (added & d1 & Hloop & Hrows & _).
  rewrite bulk_loop_app, Hloop.
  destruct (bulk_loop_stops schema now bad rest ([] ++ added) d1 Hbad) as (e & ->).
  exists added, d1. cbn [app]. now rewrite (Forall2_length _ _ _ Hrows).
Qed.

Lemma post_agents_bulk_keeps_prefix_witness :
  (forallb (bulk_item_ok sample_schema) [VObj dee_profile] = true
   /\ bulk_item_ok sample_schema (VObj [("name", VStr "Nobody")]) = false)
  /\ exists results d1,
       post_agents_bulk sample_schema 9000 [("agents", VArr [VObj dee_profile])] sample_db
         = (Json (mkBulkResult true (length [VObj dee_profile]) results), d1)
       /\ post_agents_bulk sample_schema 9000 broken_bulk sample_db
          = (Status 500 "Failed to bulk sync agents", d1).
Proof.
  split; [split; vm_compute; reflexivity|].
  apply (post_agents_bulk_keeps_prefix sample_schema 9000
           [("agents", VArr [VObj dee_profile])] broken_bulk sample_db
           [VObj dee_profile] [VObj ada_profile] (VObj [("name", VStr "Nobody")]));
    vm_compute; reflexivity.
Defined.

Lemma agent_upsert_frame
    (schema : Schema) (now : Z) (data : obj) (update create : list (string * jsval))
    (d d' : DB) (o : outcome (gmap string value)) (id : string) :
  agent_upsert schema now (prop data "id") update create d = (o, d') ->
  prop data "id" <> str id ->
  agents d' !! id = agents d !! id
  /\ relationships d' = relationships d /\ conversations d' = conversations d
  /\ messages d' = messages d /\ events d' = events d /\ waitlist d' = waitlist d.
Proof.
  unfold agent_upsert. intros Hup Hid.
  destruct (prop data "id") as [[| | |key| | |]|];
    try (inversion Hup; subst; repeat split; reflexivity).
  assert (key <> id) by (intros ->; now apply Hid).
  destruct (agent_create_ok schema (strip create) && agent_update_ok schema (strip update));
    [|inversion Hup; subst; repeat split; reflexivity].
  destruct (agents d !! key); inversion Hup; subst; cbn;
    (split; [now apply lookup_insert_ne | repeat split]).
Qed.

Lemma bulk_loop_frame (schema : Schema) (now : Z) (items : list value) (id : string) :
  (forall item, In item items -> item_id item <> Some id) ->
  forall (results : list (gmap string value)) (d d' : DB) (o : outcome (list (gmap string value))),
  bulk_loop schema now items results d = (o, d') ->
  agents d' !! id = agents d !! id
  /\ relationships d' = relationships d /\ conversations d' = conversations d
  /\ messages d' = messages d /\ events d' = events d /\ waitlist d' = waitlist d.
Proof.
  induction items as [|item rest IH]; intros Hids results d d' o Hloop.
  - cbn in Hloop. inversion Hloop; subst. repeat split.
  - cbn [bulk_loop] in Hloop.
    assert (Hitem : item_id item <> Some id) by (apply Hids; now left).
    unfold item_id in Hitem.
    destruct (item_fields item) as [data|e];
      [|inversion Hloop; subst; repeat split; reflexivity].
    destruct (agent_upsert schema now (prop data "id") (bulk_update_data data)
                (bulk_create_data data) d) as [[agent|e] d1] eqn:Hup.
    + assert (Hne : prop data "id" <> str id).
      { intros Heq. rewrite Heq in Hitem. now apply Hitem. }
      destruct (agent_upsert_frame _ _ _ _ _ _ _ _ _ Hup Hne)
        as (Ha & Hr & Hc & Hm & He & Hw).
      destruct (IH (fun i Hi => Hids i (or_intror Hi)) _ _ _ _ Hloop)
        as (Ha' & Hr' & Hc' & Hm' & He' & Hw').
      repeat split; congruence.
    + inversion Hloop; subst.
      apply (agent_upsert_frame _ _ _ _ _ _ _ _ _ Hup).
      intros Heq. rewrite Heq in Hitem. now apply Hitem.
Qed.

(** X7. Whether it succeeds or stops halfway, [POST /api/agents/bulk]
    touches no agent but those its items name: the row of an id that no
    item names is as it was (there or not there), and the other five tables
    are as they were. *)
Theorem post_agents_bulk_frame
    (schema : Schema) (now : Z) (body : obj) (d d' : DB) (r : response BulkResult)
    (items : list value) (id : string) :
  prop body "agents" = Some (VArr items) ->
  (forall item, In item items -> item_id item <> Some id) ->
  post_agents_bulk schema now body d = (r, d') ->
  agents d' !! id = agents d !! id
  /\ relationships d' = relationships d /\ conversations d' = conversations d
  /\ messages d' = messages d /\ events d' = events d /\ waitlist d' = waitlist d.
Proof.
  intros Hbody Hids. unfold post_agents_bulk. rewrite Hbody.
  destruct (bulk_loop schema now items [] d) as [[results|e] d1] eqn:Hloop;
    intros Hpost; inversion Hpost; subst;
    apply (bulk_loop_frame schema now items id Hids _ _ _ _ Hloop).
Qed.

Lemma post_agents_bulk_frame_witness :
  (prop sample_bulk "agents"
     = Some (VArr [ VObj dee_profile;
                    VObj [("id", VStr "ada"); ("name", VStr "Ada L.");
                          ("status", VStr "single")] ])
   /\ agents sample_db !! "bob" = Some bob)
  /\ agents (snd (post_agents_bulk sample_schema 9000 sample_bulk sample_db)) !! "bob"
     = agents sample_db !! "bob".
Proof.
  split; [split; reflexivity|].
  refine (proj1 (post_agents_bulk_frame sample_schema 9000 sample_bulk sample_db
                   (snd (post_agents_bulk sample_schema 9000 sample_bulk sample_db))
                   (fst (post_agents_bulk sample_schema 9000 sample_bulk sample_db))
                   [ VObj dee_profile;
                     VObj [("id", VStr "ada"); ("name", VStr "Ada L.");
                           ("status", VStr "single")] ]
                   "bob" eq_refl _ _)).
  - intros item [<-|[<-|[]]]; vm_compute; discriminate.
  - now destruct (post_agents_bulk sample_schema 9000 sample_bulk sample_db).
Defined.

(** ** More on the relationship routes *)

Lemma post_relationships_store
    (schema : Schema) (now : Z) (fresh : string) (body : obj) (d d' : DB)
    (r : response (option RelationshipWithAgents)) :
  post_relationships schema now fresh body d = (r, d') ->
  d' = d
  \/ exists a1 a2 score st,
       pair_taken a1 a2 (relationships d) = false
       /\ agent_exists a1 d = true /\ agent_exists a2 d = true
       /\ d' = set_relationships d
                 (relationships d ++ [new_relationship schema now fresh a1 a2 score st]).
Proof.
  unfold post_relationships, relationship_create.
  destruct (prop body "agent1Id") as [[| | |a1| | |]|];
    try (intros [= <- <-]; now left);
  destruct (prop body "agent2Id") as [[| | |a2| | |]|];
    try (intros [= <- <-]; now left);
  destruct (js_or (prop body "compatibilityScore") (num 50)) as [[| |score| | | |]|];
    try (intros [= <- <-]; now left);
  destruct (js_or (prop body "status") (str "talking")) as [[| | |st| | |]|];
    try (intros [= <- <-]; now left).
  destruct (pair_taken a1 a2 (relationships d)) eqn:Htaken;
    [intros [= <- <-]; now left|].
  destruct (agent_exists a1 d) eqn:H1; [|intros [= <- <-]; now left].
  destruct (agent_exists a2 d) eqn:H2; [|intros [= <- <-]; now left].
  cbn [andb]. intros [= <- <-]. right. exists a1, a2, score, st. now repeat split.
Qed.

Lemma same_pair_rows (r x : Relationship) :
  same_pair (rel_agent1Id x) (rel_agent2Id x) r
  = same_pair (rel_agent1Id r) (rel_agent2Id r) x.
Proof.
  unfold same_pair.
  rewrite (String.eqb_sym (rel_agent1Id r) (rel_agent1Id x)).
  rewrite (String.eqb_sym (rel_agent2Id r) (rel_agent2Id x)).
  rewrite (String.eqb_sym (rel_agent1Id r) (rel_agent2Id x)).
  rewrite (String.eqb_sym (rel_agent2Id r) (rel_agent1Id x)).
  f_equal. apply andb_comm.
Qed.

Lemma pairs_unique_snoc (rels : list Relationship) (r : Relationship) :
  pairs_unique rels = true ->
  pair_taken (rel_agent1Id r) (rel_agent2Id r) rels = false ->
  pairs_unique (rels ++ [r]) = true.
Proof.
  induction rels as [|x rels IH]; cbn [app pairs_unique]; intros Hu Hfree.
  - reflexivity.
  - apply andb_true_iff in Hu. destruct Hu as [Hx Hu].
    unfold pair_taken in Hfree. cbn [existsb] in Hfree.
    apply orb_false_iff in Hfree. destruct Hfree as [Hrx Hfree].
    apply andb_true_iff. split; [|now apply IH].
    rewrite pair_taken_app. unfold pair_taken at 2. cbn [existsb].
    rewrite same_pair_rows, Hrx. apply negb_true_iff in Hx. now rewrite Hx.
Qed.

Lemma pairs_unique_update (rels : list Relationship) (p : Relationship -> bool)
    (f : Relationship -> Relationship) (old : Relationship) :
  find p rels = Some old ->
  rel_agent1Id (f old) = rel_agent1Id old ->
  rel_agent2Id (f old) = rel_agent2Id old ->
  map (fun x => (rel_agent1Id x, rel_agent2Id x)) (update_first p f rels)
  = map (fun x => (rel_agent1Id x, rel_agent2Id x)) rels.
Proof.
  intros Hfind H1 H2. induction rels as [|x rels IH]; cbn in *; [reflexivity|].
  destruct (p x); cbn.
  - injection Hfind as ->. now rewrite H1, H2.
  - now rewrite IH.
Qed.

Lemma pairs_unique_by_pairs (l1 l2 : list Relationship) :
  map (fun x => (rel_agent1Id x, rel_agent2Id x)) l1
  = map (fun x => (rel_agent1Id x, rel_agent2Id x)) l2 ->
  pairs_unique l1 = pairs_unique l2.
Proof.
  revert l2. induction l1 as [|x l1 IH]; intros [|y l2] Hmap; try discriminate; cbn in *.
  - reflexivity.
  - injection Hmap as H1 H2 Hrest. rewrite (IH l2 Hrest), H1, H2. f_equal. f_equal.
    clear IH. revert l2 Hrest. induction l1 as [|a l1 IHl]; intros [|b l2] Hrest;
      try discriminate; cbn in *; [reflexivity|].
    injection Hrest as Ha Hb Hrest. unfold pair_taken in *. cbn [existsb].
    rewrite (IHl l2 Hrest). f_equal. unfold same_pair. now rewrite Ha, Hb.
Qed.

(** X8. The two relationship writes keep the pairs unique: if no two stored
    relationships are of the same pair (in either order), this is still so
    after any [POST /api/relationships] and after any
    [PUT /api/relationships/:id], whatever the body and the answer. *)
Theorem pairs_stay_unique
    (schema : Schema) (new_Date : value -> option Z) (now : Z) (fresh id : string)
    (body1 body2 : obj) (w : World) :
  pairs_unique (relationships (db w)) = true ->
  pairs_unique (relationships (snd (post_relationships schema now fresh body1 (db w)))) = true
  /\ pairs_unique (relationships (db (snd (put_relationship new_Date now id body2 w)))) = true.
Proof.
  intros Hu. split.
  - destruct (post_relationships schema now fresh body1 (db w)) as [r d'] eqn:Hpost.
    destruct (post_relationships_store _ _ _ _ _ _ _ Hpost)
      as [-> | (a1 & a2 & score & st & Hfree & _ & _ & ->)]; [exact Hu|].
    cbn [snd relationships set_relationships]. now apply pairs_unique_snoc.
  - unfold put_relationship, relationship_update.
    destruct (_ && _); [|exact Hu].
    destruct (find_relationship id (db w)) as [old|] eqn:Hold; [|exact Hu].
    cbn [snd db relationships set_relationships].
    rewrite <- Hu. apply pairs_unique_by_pairs.
    apply (pairs_unique_update _ _ _ old Hold); destruct (rud_empty _); reflexivity.
Qed.

Lemma pairs_stay_unique_witness :
  pairs_unique (relationships (db sample_world)) = true
  /\ pairs_unique
       (relationships (snd (post_relationships sample_schema 9000 "r4" ada_eve (db sample_world))))
     = true
  /\ pairs_unique
       (relationships (db (snd (put_relationship sample_Date 9000 "r1" ending sample_world))))
     = true.
Proof.
  split; [reflexivity|].
  apply (pairs_stay_unique sample_schema sample_Date 9000 "r4" "r1" ada_eve ending).
  reflexivity.
Defined.

Lemma agents_referenced_expand (d : DB) (r : Relationship) :
  agents_referenced d = true -> In r (relationships d) ->
  is_Some (agents d !! rel_agent1Id r) /\ is_Some (agents d !! rel_agent2Id r).
Proof.
  unfold agents_referenced, agent_exists. intros Hall Hin.
  rewrite forallb_forall in Hall. specialize (Hall r Hin).
  apply andb_true_iff in Hall. destruct Hall as [H1 H2].
  destruct (agents d !! rel_agent1Id r), (agents d !! rel_agent2Id r);
    try discriminate; split; eauto.
Qed.

(** X9. When every stored relationship names two stored agents, every
    relationship in the answer of [GET /api/relationships] carries both
    agent rows: neither [agent1] nor [agent2] is missing. *)
Theorem get_relationships_with_agents (d : DB) :
  agents_referenced d = true ->
  exists rs,
    get_relationships d = Json rs
    /\ Forall (fun r => is_Some (rwa_agent1 r) /\ is_Some (rwa_agent2 r)) rs.
Proof.
  intros Href. eexists. split; [reflexivity|].
  apply List.Forall_forall. intros r Hr. apply in_map_iff in Hr.
  destruct Hr as (x & <- & Hx). cbn [include_agents rwa_agent1 rwa_agent2].
  apply agents_referenced_expand; [exact Href|].
  apply (Permutation_in _ (sort_by_perm _ _)) in Hx.
  apply filter_In in Hx. tauto.
Qed.

Lemma get_relationships_with_agents_witness :
  agents_referenced sample_db = true
  /\ exists rs,
       get_relationships sample_db = Json rs
       /\ Forall (fun r => is_Some (rwa_agent1 r) /\ is_Some (rwa_agent2 r)) rs.
Proof.
  split; [reflexivity|].
  apply (get_relationships_with_agents sample_db). reflexivity.
Defined.

Lemma agent_exists_insert (id key : string) (a : gmap string value) (d : DB) :
  agent_exists id d = true ->
  agent_exists id (set_agents d (<[key := a]> (agents d))) = true.
Proof.
  unfold agent_exists. cbn [agents set_agents]. rewrite lookup_insert.
  destruct (decide (key = id)); [reflexivity|]. now destruct (agents d !! id).
Qed.

Lemma agents_referenced_insert (key : string) (a : gmap string value) (d : DB) :
  agents_referenced d = true ->
  agents_referenced (set_agents d (<[key := a]> (agents d))) = true.
Proof.
  unfold agents_referenced. cbn [relationships set_agents]. rewrite !forallb_forall.
  intros Hall r Hr. specialize (Hall r Hr). apply andb_true_iff in Hall.
  destruct Hall as [H1 H2]. apply andb_true_iff. split; now apply agent_exists_insert.
Qed.

(** X10. The writes keep the references of the relationships sound: if
    every stored relationship names two stored agents, this is still so
    after any [POST /api/agents], any [PUT /api/agents/:id/status] and any
    [POST /api/relationships], whatever the body and the answer. *)
Theorem references_stay_sound
    (schema : Schema) (now : Z) (fresh id : string) (body1 body2 body3 : obj) (d : DB) :
  agents_referenced d = true ->
  agents_referenced (snd (post_agents schema now body1 d)) = true
  /\ agents_referenced (snd (put_agent_status schema now id body2 d)) = true
  /\ agents_referenced (snd (post_relationships schema now fresh body3 d)) = true.
Proof.
  intros Href. split; [|split].
  - unfold post_agents, agent_upsert.
    destruct (prop body1 "id") as [[| | |key| | |]|]; try exact Href.
    destruct (_ && _); [|exact Href].
    destruct (agents d !! key); cbn [snd]; now apply agents_referenced_insert.
  - unfold put_agent_status, agent_update.
    destruct (agent_update_ok schema _); [|exact Href].
    destruct (agents d !! id); [|exact Href].
    cbn [snd]. now apply agents_referenced_insert.
  - destruct (post_relationships schema now fresh body3 d) as [r d'] eqn:Hpost.
    destruct (post_relationships_store _ _ _ _ _ _ _ Hpost)
      as [-> | (a1 & a2 & score & st & _ & H1 & H2 & ->)]; [exact Href|].
    cbn [snd]. unfold agents_referenced in *.
    cbn [relationships set_relationships]. rewrite forallb_app.
    apply andb_true_iff. split.
    + rewrite forallb_forall in *. intros x Hx. exact (Href x Hx).
    + cbn [forallb new_relationship rel_agent1Id rel_agent2Id].
      unfold agent_exists in *. cbn [agents set_relationships]. now rewrite H1, H2.
Qed.

Lemma references_stay_sound_witness :
  agents_referenced sample_db = true
  /\ agents_referenced (snd (post_agents sample_schema 9000 dee_profile sample_db)) = true
  /\ agents_referenced
       (snd (put_agent_status sample_schema 9000 "ada" [("status", VStr "single")] sample_db))
     = true
  /\ agents_referenced (snd (post_relationships sample_schema 9000 "r4" ada_eve sample_db))
     = true.
Proof.
  split; [reflexivity|].
  apply (references_stay_sound sample_schema 9000 "r4" "ada" dee_profile
           [("status", VStr "single")] ada_eve sample_db).
  reflexivity.
Defined.

(** X11. A relationship that [POST /api/relationships] creates with the
    status "talking" (the default) or "coupled" is in the next answer of
    [GET /api/relationships], and [GET /api/agents/:id] shows it among the
    relationships of its first agent as agent 1 and of its second agent as
    agent 2. *)
Theorem created_relationship_is_listed
    (schema : Schema) (now : Z) (fresh : string) (body : obj) (d : DB) (x y : string) :
  prop body "agent1Id" = str x -> prop body "agent2Id" = str y ->
  rel_options_ok body = true ->
  prop body "status" = None \/ prop body "status" = str "talking"
    \/ prop body "status" = str "coupled" ->
  is_Some (agents d !! x) -> is_Some (agents d !! y) ->
  pair_taken x y (relationships d) = false ->
  exists r d1 rs vx vy,
    post_relationships schema now fresh body d = (Json (Some r), d1)
    /\ get_relationships d1 = Json rs
    /\ In r rs
    /\ get_agent x d1 = Json vx
    /\ In (rwa_relationship r) (awr_relationshipsAsAgent1 vx)
    /\ get_agent y d1 = Json vy
    /\ In (rwa_relationship r) (awr_relationshipsAsAgent2 vy).
Proof.
  intros H1 H2 Hopt Hstatus Hx Hy Hfree.
  destruct (post_relationships_unfold schema now fresh body d x y H1 H2 Hopt Hx Hy)
    as (score & st & _ & Hst & Hpost).
  rewrite Hfree in Hpost. cbv zeta in Hpost.
  set (r := new_relationship schema now fresh x y score st) in *.
  set (d1 := set_relationships d (relationships d ++ [r])) in *.
  assert (Hactive : status_in ["talking"; "coupled"] r = true).
  { apply status_in_active. cbn [r new_relationship rel_status].
    destruct Hstatus as [Hs | [Hs | Hs]]; rewrite Hs in Hst; cbn in Hst;
      injection Hst as <-; auto. }
  assert (Hin : In r (relationships d1)).
  { unfold d1. cbn [relationships set_relationships]. apply in_or_app. right. now left. }
  destruct Hx as [ax Hax]. destruct Hy as [ay Hay].
  exists (include_agents d1 r), d1. eexists. eexists. eexists.
  split; [exact Hpost|]. split; [reflexivity|]. split; [|split; [|split; [|split]]].
  - apply in_map.
    apply (Permutation_in _ (Permutation_sym (sort_by_perm _ _))).
    apply filter_In. now split.
  - unfold get_agent. cbn [agents d1 set_relationships]. rewrite Hax. reflexivity.
  - cbn [awr_relationshipsAsAgent1 include_agents rwa_relationship].
    apply filter_In. split; [exact Hin|]. apply String.eqb_refl.
  - unfold get_agent. cbn [agents d1 set_relationships]. rewrite Hay. reflexivity.
  - cbn [awr_relationshipsAsAgent2 include_agents rwa_relationship].
    apply filter_In. split; [exact Hin|]. apply String.eqb_refl.
Qed.

Lemma created_relationship_is_listed_witness :
  (rel_options_ok ada_eve = true
   /\ is_Some (agents sample_db !! "ada") /\ is_Some (agents sample_db !! "eve")
   /\ pair_taken "ada" "eve" (relationships sample_db) = false)
  /\ exists r d1 rs vx vy,
       post_relationships sample_schema 9000 "r4" ada_eve sample_db = (Json (Some r), d1)
       /\ get_relationships d1 = Json rs
       /\ In r rs
       /\ get_agent "ada" d1 = Json vx
       /\ In (rwa_relationship r) (awr_relationshipsAsAgent1 vx)
       /\ get_agent "eve" d1 = Json vy
       /\ In (rwa_relationship r) (awr_relationshipsAsAgent2 vy).
Proof.
  assert (Hada : is_Some (agents sample_db !! "ada")) by (eexists; reflexivity).
  assert (Heve : is_Some (agents sample_db !! "eve")) by (eexists; reflexivity).
  split; [repeat split; assumption || reflexivity|].
  apply (created_relationship_is_listed sample_schema 9000 "r4" ada_eve sample_db "ada" "eve");
    try reflexivity; try assumption.
  now left.
Defined.

Lemma put_relationship_ok
    (new_Date : value -> option Z) (now : Z) (id : string) (body : obj)
    (w : World) (old : Relationship) :
  find_relationship id (db w) = Some old ->
  rel_update_ok new_Date body = true ->
  exists r,
    rel_id r = rel_id old
    /\ (forall s, prop body "status" = str s -> rel_status r = s)
    /\ put_relationship new_Date now id body w
       = (Json (include_agents
                  (set_relationships (db w)
                     (update_first (fun x => String.eqb (rel_id x) id) (fun _ => r)
                        (relationships (db w)))) r),
          mkWorld
            (set_relationships (db w)
               (update_first (fun x => String.eqb (rel_id x) id) (fun _ => r)
                  (relationships (db w))))
            (emitted w ++
             [mkEmission "/villa-feed" "relationship-update"
                (PRelationship
                   (include_agents
                      (set_relationships (db w)
                         (update_first (fun x => String.eqb (rel_id x) id) (fun _ => r)
                            (relationships (db w)))) r))])).
Proof.
  intros Hold Hok. unfold rel_update_ok in Hok.
  unfold put_relationship, relationship_update.
  rewrite relationship_update_data_keys.
  cbn [rud_status rud_healthScore rud_endedAt].
  assert (Hvalid :
            match prop body "status" with None | Some (VStr _) => true | Some _ => false end
            && match prop body "healthScore" with None | Some (VNum _) => true | Some _ => false end
            && match option_map new_Date (prop body "endedAt") with
               | Some None => false
               | _ => true
               end = true).
  { apply andb_true_iff in Hok. destruct Hok as [Hok Hended]. rewrite Hok. cbn [andb].
    destruct (prop body "endedAt") as [v|]; [|reflexivity].
    cbn [option_map]. now destruct (new_Date v). }
  rewrite Hvalid, Hold.
  destruct (rud_empty _); (eexists; split; [|split; [|reflexivity]]);
    try reflexivity; intros s Hs; cbn [rel_status stamp_updatedAt]; rewrite Hs; reflexivity.
Qed.

Lemma update_first_unique (rels : list Relationship) (id : string) (r x : Relationship) :
  List.NoDup (map rel_id rels) ->
  In x (update_first (fun y => String.eqb (rel_id y) id) (fun _ => r) rels) ->
  rel_id x = id -> x = r.
Proof.
  induction rels as [|y rels IH]; cbn; intros Hnd Hin Hid; [contradiction|].
  apply List.NoDup_cons_iff in Hnd. destruct Hnd as [Hy Hnd].
  destruct (String.eqb_spec (rel_id y) id) as [Heq|Hne].
  - destruct Hin as [<-|Hin]; [reflexivity|].
    exfalso. apply Hy. rewrite Heq, <- Hid. now apply in_map.
  - destruct Hin as [<-|Hin]; [contradiction|]. now apply IH.
Qed.

(** X12. Once [PUT /api/relationships/:id] has given a relationship a status
    other than "talking" and "coupled" ("ended", say), the next answer of
    [GET /api/relationships] has no relationship of that id (the ids of the
    stored relationships being distinct). *)
Theorem ended_relationship_is_not_listed
    (new_Date : value -> option Z) (now : Z) (id : string) (body : obj)
    (w : World) (old : Relationship) (st : string) :
  find_relationship id (db w) = Some old ->
  List.NoDup (map rel_id (relationships (db w))) ->
  rel_update_ok new_Date body = true ->
  prop body "status" = str st -> st <> "talking" -> st <> "coupled" ->
  exists r w' rs,
    put_relationship new_Date now id body w = (Json r, w')
    /\ get_relationships (db w') = Json rs
    /\ Forall (fun x => rel_id (rwa_relationship x) <> id) rs.
Proof.
  intros Hold Hnd Hok Hst Hne1 Hne2.
  destruct (put_relationship_ok new_Date now id body w old Hold Hok)
    as (r & Hid & Hstatus & Hput).
  eexists. eexists. eexists. split; [exact Hput|]. split; [reflexivity|].
  apply List.Forall_forall. intros x Hx. apply in_map_iff in Hx.
  destruct Hx as (y & <- & Hy). cbn [include_agents rwa_relationship].
  apply (Permutation_in _ (sort_by_perm _ _)) in Hy.
  apply filter_In in Hy. destruct Hy as [Hy Hactive].
  cbn [db relationships set_relationships] in Hy.
  intros Hyid. rewrite (update_first_unique _ id r y Hnd Hy Hyid) in Hactive.
  apply status_in_active in Hactive. rewrite (Hstatus st Hst) in Hactive.
  destruct Hactive; contradiction.
Qed.

Lemma ended_relationship_is_not_listed_witness :
  (find_relationship "r1" (db sample_world)
     = Some (mkRelationship "r1" "ada" "bob" (inject_Z 90) "coupled" (inject_Z 70) 2000 5000 None)
   /\ List.NoDup (map rel_id (relationships (db sample_world)))
   /\ rel_update_ok sample_Date ending = true
   /\ prop ending "status" = str "ended")
  /\ exists r w' rs,
       put_relationship sample_Date 9000 "r1" ending sample_world = (Json r, w')
       /\ get_relationships (db w') = Json rs
       /\ Forall (fun x => rel_id (rwa_relationship x) <> "r1") rs.
Proof.
  assert (Hnd : List.NoDup (map rel_id (relationships (db sample_world)))).
  { cbn. repeat constructor; cbn; intuition discriminate. }
  split; [repeat split; assumption || reflexivity|].
  apply (ended_relationship_is_not_listed sample_Date 9000 "r1" ending sample_world
           (mkRelationship "r1" "ada" "bob" (inject_Z 90) "coupled" (inject_Z 70) 2000 5000 None)
           "ended"); try reflexivity; try assumption; discriminate.
Defined.

(** X13. [PUT /api/relationships/:id] broadcasts exactly when it answers
    with the updated relationship: either it answers 200 and one
    "relationship-update" carrying the answer is added to what went out on
    "/villa-feed", or it answers 500 and neither the store nor what went out
    has changed. *)
Theorem put_relationship_emits_on_success
    (new_Date : value -> option Z) (now : Z) (id : string) (body : obj) (w : World) :
  (exists r w',
     put_relationship new_Date now id body w = (Json r, w')
     /\ emitted w'
        = emitted w ++ [mkEmission "/villa-feed" "relationship-update" (PRelationship r)])
  \/ put_relationship new_Date now id body w
     = (Status 500 "Failed to update relationship", w).
Proof.
  unfold put_relationship, relationship_update.
  destruct (_ && _).
  - destruct (find_relationship id (db w)) as [old|].
    + left. eexists. eexists. split; reflexivity.
    + right. now destruct w.
  - right. now destruct w.
Qed.

(** ** Conversations *)

Lemma find_app_none {A : Type} (p : A -> bool) (l1 l2 : list A) :
  find p l1 = None -> find p (l1 ++ l2) = find p l2.
Proof.
  induction l1 as [|x l1 IH]; cbn; [reflexivity|].
  destruct (p x); [discriminate | exact IH].
Qed.

(** X14. [POST /api/conversations] under a relationship that exists appends
    one conversation of that relationship, with the id of the store, and
    sends it as "new-conversation" on "/conversations"; when
    [relationshipId] is missing, is not a string or names no stored
    relationship, the answer is 500, nothing is written and nothing is
    sent. *)
Theorem post_conversations_creates
    (defaults : ConversationDefaults) (now : Z) (fresh : string) (body : obj) (d : DB) :
  (forall r,
     prop body "relationshipId" = str r -> relationship_exists r d = true ->
     exists c,
       post_conversations defaults now fresh body d
       = (Json c, set_conversations d (conversations d ++ [c]),
          [mkBroadcast "/conversations" "new-conversation" (NConversation c)])
       /\ conv_id c = fresh /\ conv_relationshipId c = r)
  /\ ((forall r, prop body "relationshipId" = str r -> relationship_exists r d = false) ->
      post_conversations defaults now fresh body d
      = (Status 500 "Failed to create conversation", d, [])).
Proof.
  split.
  - intros r Hr Hex. unfold post_conversations, conversation_create.
    rewrite Hr. unfold str. rewrite Hex. eexists. split; [reflexivity|]. split; reflexivity.
  - intros Hno. unfold post_conversations, conversation_create.
    destruct (prop body "relationshipId") as [[| | |r| | |]|]; try reflexivity.
    now rewrite (Hno r eq_refl).
Qed.

Lemma post_conversations_creates_witness :
  (relationship_exists "r3" sample_db = true
   /\ relationship_exists "r7" sample_db = false)
  /\ (exists c,
        post_conversations sample_conversation_defaults 9000 "c2"
          [("relationshipId", VStr "r3")] sample_db
        = (Json c, set_conversations sample_db (conversations sample_db ++ [c]),
           [mkBroadcast "/conversations" "new-conversation" (NConversation c)])
        /\ conv_id c = "c2" /\ conv_relationshipId c = "r3")
  /\ post_conversations sample_conversation_defaults 9000 "c2"
       [("relationshipId", VStr "r7")] sample_db
     = (Status 500 "Failed to create conversation", sample_db, []).
Proof.
  split; [split; reflexivity|]. split.
  - apply (proj1 (post_conversations_creates sample_conversation_defaults 9000 "c2"
                    [("relationshipId", VStr "r3")] sample_db) "r3"); reflexivity.
  - apply (proj2 (post_conversations_creates sample_conversation_defaults 9000 "c2"
                    [("relationshipId", VStr "r7")] sample_db)).
    intros r [= <-]. reflexivity.
Defined.

(** X15. A conversation that [POST /api/conversations] has just created
    (under an id that was not in use) can take a message: a well-formed
    [POST /api/messages] for its id between two stored agents succeeds, and
    the stored conversation, still of the same relationship, then has as
    its last-message time the time the handler read after creating the
    message. *)
Theorem new_conversation_takes_messages
    (defaults : ConversationDefaults) (now : Z) (clock : Clock) (fresh fresh' : string)
    (body body' : obj) (d : DB) (r f t text : string) :
  prop body "relationshipId" = str r -> relationship_exists r d = true ->
  find_conversation fresh d = None ->
  prop body' "conversationId" = str fresh ->
  prop body' "fromId" = str f -> prop body' "toId" = str t ->
  prop body' "content" = str text -> sentiment_ok body' = true ->
  is_Some (agents d !! f) -> is_Some (agents d !! t) ->
  exists c d1 out m w2 conv,
    post_conversations defaults now fresh body d = (Json c, d1, out)
    /\ post_messages clock fresh' body' (mkWorld d1 []) = (Json m, w2)
    /\ find_conversation fresh (db w2) = Some conv
    /\ conv_relationshipId conv = r
    /\ conv_lastMessageAt conv = second_reading clock
    /\ msg_conversationId (mwa_message m) = conv_id conv.
Proof.
  intros Hr Hex Hfresh Hc Hf Ht Htext Hsent Hfrom Hto.
  set (c := mkConversation fresh r (lastMessageAt_default defaults now)
              (dramaScore_default defaults) (viralPotential_default defaults)).
  set (d1 := set_conversations d (conversations d ++ [c])).
  assert (Hpost : post_conversations defaults now fresh body d
                  = (Json c, d1,
                     [mkBroadcast "/conversations" "new-conversation" (NConversation c)])).
  { unfold post_conversations, conversation_create. rewrite Hr. unfold str. now rewrite Hex. }
  assert (Hfind : find_conversation fresh d1 = Some c).
  { unfold find_conversation, d1 in *. cbn [conversations set_conversations].
    rewrite (find_app_none _ _ _ Hfresh). cbn [find conv_id c]. now rewrite String.eqb_refl. }
  destruct (message_create_ok (clock_time clock) fresh' fresh f t text
              (js_or (prop body' "sentiment") null) d1 Hsent
              (ex_intro _ c Hfind) Hfrom Hto) as (label & Hcreate).
  set (m := mkMessage fresh' fresh f t text label (clock_time clock)) in *.
  set (d2 := set_messages d1 (messages d1 ++ [m])) in *.
  destruct (conversation_touch_ok fresh (second_reading clock) d2 c Hfind) as [Htouch Hfind2].
  exists c, d1. eexists. eexists. eexists. eexists.
  split; [exact Hpost|]. split.
  - rewrite post_messages_readings. cbn [db emitted].
    rewrite Hc, Hf, Ht, Htext, Hcreate, Htouch. reflexivity.
  - cbn [db]. split; [exact Hfind2|]. repeat split.
Qed.

Lemma new_conversation_takes_messages_witness :
  (relationship_exists "r3" sample_db = true
   /\ find_conversation "c2" sample_db = None
   /\ is_Some (agents sample_db !! "cyd") /\ is_Some (agents sample_db !! "ada"))
  /\ exists c d1 out m w2 conv,
       post_conversations sample_conversation_defaults 9000 "c2"
         [("relationshipId", VStr "r3")] sample_db = (Json c, d1, out)
       /\ post_messages (mkClock 9100 [1%N]) "m3"
            [ ("conversationId", VStr "c2"); ("fromId", VStr "cyd"); ("toId", VStr "ada");
              ("content", VStr "hey") ] (mkWorld d1 []) = (Json m, w2)
       /\ find_conversation "c2" (db w2) = Some conv
       /\ conv_relationshipId conv = "r3"
       /\ conv_lastMessageAt conv = 9101
       /\ msg_conversationId (mwa_message m) = conv_id conv.
Proof.
  assert (Hcyd : is_Some (agents sample_db !! "cyd")) by (eexists; reflexivity).
  assert (Hada : is_Some (agents sample_db !! "ada")) by (eexists; reflexivity).
  split; [repeat split; assumption || reflexivity|].
  apply (new_conversation_takes_messages sample_conversation_defaults 9000 (mkClock 9100 [1%N])
           "c2" "m3" [("relationshipId", VStr "r3")]
           [ ("conversationId", VStr "c2"); ("fromId", VStr "cyd"); ("toId", VStr "ada");
             ("content", VStr "hey") ] sample_db "r3" "cyd" "ada" "hey");
    try reflexivity; assumption.
Defined.

(** X16. [PUT /api/conversations/:id/drama] for a conversation that exists,
    with scores that are numbers where given: a score the body gives as a
    number is stored; a score the body leaves out or gives as null keeps its
    stored value (null does not clear it); the relationship and the
    last-message time of the conversation are never written, and no message
    is touched. *)
Theorem put_conversation_drama_partial (id : string) (body : obj) (d : DB) (old : Conversation) :
  find_conversation id d = Some old ->
  drama_ok body = true ->
  exists c d',
    put_conversation_drama id body d = (Json c, d')
    /\ find_conversation id d' = Some c
    /\ (forall q, prop body "dramaScore" = Some (VNum q) -> conv_dramaScore c = q)
    /\ (nullish (prop body "dramaScore") = true -> conv_dramaScore c = conv_dramaScore old)
    /\ (forall q, prop body "viralPotential" = Some (VNum q) -> conv_viralPotential c = q)
    /\ (nullish (prop body "viralPotential") = true ->
        conv_viralPotential c = conv_viralPotential old)
    /\ conv_id c = conv_id old
    /\ conv_relationshipId c = conv_relationshipId old
    /\ conv_lastMessageAt c = conv_lastMessageAt old
    /\ messages d' = messages d
    /\ relationships d' = relationships d.
Proof.
  intros Hold Hok. unfold drama_ok in Hok.
  apply andb_true_iff in Hok. destruct Hok as [Hd Hv].
  pose proof (find_conversation_id id d old Hold) as Hid.
  unfold put_conversation_drama, conversation_update_drama, js_coalesce.
  destruct (prop body "dramaScore") as [[| |q1| | | |]|] eqn:Ed; try discriminate;
  destruct (prop body "viralPotential") as [[| |q2| | | |]|] eqn:Ev; try discriminate;
  cbn [nullish andb]; rewrite Hold;
  (eexists; eexists; split; [reflexivity|]);
  (split; [unfold find_conversation; cbn [conversations set_conversations];
           erewrite find_update_first;
           [reflexivity | exact Hold | cbn [conv_id]; rewrite Hid; apply String.eqb_refl]|]);
  cbn [conv_id conv_relationshipId conv_lastMessageAt conv_dramaScore conv_viralPotential
       messages relationships set_conversations];
  repeat split; intros; congruence.
Qed.

Lemma put_conversation_drama_partial_witness :
  (find_conversation "c1" sample_db
     = Some (mkConversation "c1" "r1" 3000 (inject_Z 10) (inject_Z 5))
   /\ drama_ok rating = true)
  /\ exists c d',
       put_conversation_drama "c1" rating sample_db = (Json c, d')
       /\ find_conversation "c1" d' = Some c
       /\ conv_dramaScore c = inject_Z 88
       /\ conv_viralPotential c = inject_Z 5
       /\ conv_lastMessageAt c = 3000.
Proof.
  split; [split; reflexivity|].
  destruct (put_conversation_drama_partial "c1" rating sample_db
              (mkConversation "c1" "r1" 3000 (inject_Z 10) (inject_Z 5)) eq_refl eq_refl)
    as (c & d' & Hput & Hfind & Hd & _ & _ & Hv & _ & _ & Hl & _).
  exists c, d'. split; [exact Hput|]. split; [exact Hfind|].
  split; [now apply Hd|]. split; [now apply Hv|exact Hl].
Defined.

(** ** Events *)

(** What [POST /api/events] can do to the store: nothing, with a 500 and
    nothing sent, or append the one event it answers with and sends. *)
Lemma post_events_store (now : Z) (fresh : string) (body : obj) (d d' : DB)
    (r : response Event) (out : list Broadcast) :
  post_events now fresh body d = (r, d', out) ->
  (r = Status 500 "Failed to create event" /\ d' = d /\ out = [])
  \/ exists e,
       r = Json e
       /\ d' = set_events d (events d ++ [e])
       /\ out = [mkBroadcast "/villa-feed" "new-event"
                   (NEvent (mkEnvelope "event" e (ev_createdAt e)))]
       /\ ev_id e = fresh /\ ev_createdAt e = now.
Proof.
  unfold post_events, event_create.
  repeat match goal with
         | |- context [match ?x with _ => _ end] =>
             match type of x with
             | prod _ _ => fail 1
             | _ => destruct x
             end
         end;
    intros [= <- <- <-]; solve [left; repeat split | right; eexists; repeat split].
Qed.

Lemma js_or_falsy (a b : jsval) : truthy a = false -> js_or a b = b.
Proof. unfold js_or. now intros ->. Qed.

Lemma js_or_truthy (a b : jsval) : truthy a = true -> js_or a b = a.
Proof. unfold js_or. now intros ->. Qed.

Lemma event_flag_public (isPublic : jsval) :
  match isPublic with None | Some (VBool _) => true | Some _ => false end = true ->
  exists b,
    match isPublic with Some _ => isPublic | None => Some (VBool true) end = Some (VBool b)
    /\ (b = false <-> isPublic = Some (VBool false)).
Proof.
  destruct isPublic as [[|b| | | | |]|]; try discriminate; intros _.
  - exists b. split; [reflexivity|]. split; [now intros ->|now intros [= ->]].
  - exists true. split; [reflexivity|]. split; discriminate.
Qed.

Lemma event_flag_featured (isFeatured : jsval) :
  match js_or isFeatured (Some (VBool false)) with Some (VBool _) => true | _ => false end
  = true ->
  exists b,
    js_or isFeatured (Some (VBool false)) = Some (VBool b)
    /\ (b = true <-> isFeatured = Some (VBool true)).
Proof.
  unfold js_or. destruct (truthy isFeatured) eqn:Ht.
  - destruct isFeatured as [[|b| | | | |]|]; try discriminate. intros _.
    cbn in Ht. subst b. exists true. repeat split.
  - intros _. exists false. split; [reflexivity|]. split; [discriminate|].
    intros ->. discriminate.
Qed.

Lemma event_agents (d : DB) (agentsInvolved : jsval) :
  (if truthy agentsInvolved then
     match agentsInvolved with
     | Some (VArr items) =>
         match strings_of items with
         | Some ids => forallb (fun id => agent_exists id d) ids
         | None => false
         end
     | _ => false
     end
   else true) = true ->
  exists items names,
    connect_agents agentsInvolved = Ok items
    /\ js_or agentsInvolved (Some (VArr [])) = Some (VArr items)
    /\ strings_of items = Some names
    /\ forallb (fun id => agent_exists id d) names = true
    /\ (truthy agentsInvolved = false -> names = []).
Proof.
  unfold connect_agents, js_or. destruct (truthy agentsInvolved) eqn:Ht.
  - destruct agentsInvolved as [[| | | | |items|]|]; try discriminate.
    destruct (strings_of items) as [names|] eqn:Hnames; [|discriminate].
    intros Hall. exists items, names. repeat split; try assumption. discriminate.
  - intros _. exists [], []. repeat split.
Qed.

(** X17. [POST /api/events] with a body the store takes appends one event
    with the id and the creation time of the store, answers with it and
    sends it as "new-event" on "/villa-feed" in the envelope of type "event"
    stamped with its creation time.  The event has the drama score of the
    body, and 50 when the body has none or gives 0; it is public unless the
    body says [isPublic: false]; it is featured only when the body says
    [isFeatured: true]; it involves no agent and has no relationship when
    the body names none. *)
Theorem post_events_defaults (now : Z) (fresh : string) (body : obj) (d : DB) :
  event_body_ok d body = true ->
  exists e,
    post_events now fresh body d
    = (Json e, set_events d (events d ++ [e]),
       [mkBroadcast "/villa-feed" "new-event"
          (NEvent (mkEnvelope "event" e (ev_createdAt e)))])
    /\ ev_id e = fresh
    /\ ev_createdAt e = now
    /\ Some (VStr (ev_type e)) = prop body "type"
    /\ Some (VStr (ev_description e)) = prop body "description"
    /\ Some (VNum (ev_dramaScore e)) = js_or (prop body "dramaScore") (num 50)
    /\ (truthy (prop body "dramaScore") = false -> ev_dramaScore e = inject_Z 50)
    /\ (ev_isPublic e = false <-> prop body "isPublic" = Some (VBool false))
    /\ (ev_isFeatured e = true <-> prop body "isFeatured" = Some (VBool true))
    /\ (truthy (prop body "agentsInvolved") = false -> ev_agentsInvolved e = [])
    /\ (truthy (prop body "relationshipId") = false -> ev_relationshipId e = None).
Proof.
  unfold event_body_ok. intros Hok.
  destruct (prop body "type") as [[| | |ty| | |]|] eqn:Hty; try discriminate.
  destruct (prop body "description") as [[| | |text| | |]|] eqn:Htext; try discriminate.
  apply andb_true_iff in Hok. destruct Hok as [Hok Hagents].
  apply andb_true_iff in Hok. destruct Hok as [Hok Hrel].
  apply andb_true_iff in Hok. destruct Hok as [Hok Hfeat].
  apply andb_true_iff in Hok. destruct Hok as [Hscore Hpub].
  destruct (js_or (prop body "dramaScore") (num 50)) as [[| |score| | | |]|] eqn:Escore;
    try discriminate.
  destruct (event_flag_public _ Hpub) as (public & Epub & Hpublic).
  destruct (event_flag_featured _ Hfeat) as (featured & Efeat & Hfeatured).
  destruct (event_agents d _ Hagents) as (items & names & Econn & Einv & Enames & Hall & Hnone).
  unfold post_events, event_create.
  rewrite Hty, Htext, Econn, Einv, Escore, Epub, Efeat, Enames.
  destruct (js_or (prop body "relationshipId") null) as [[| | |r| | |]|] eqn:Erel;
    try discriminate; rewrite Hall; try rewrite Hrel;
    (eexists; split; [reflexivity|]);
    cbn [ev_id ev_createdAt ev_type ev_description ev_dramaScore ev_isPublic ev_isFeatured
         ev_agentsInvolved ev_relationshipId];
    (split; [reflexivity|]); (split; [reflexivity|]); (split; [reflexivity|]);
    (split; [reflexivity|]); (split; [reflexivity|]);
    (split; [intros Hf; rewrite (js_or_falsy _ _ Hf) in Escore; now injection Escore as <-|]);
    (split; [exact Hpublic|]); (split; [exact Hfeatured|]);
    (split; [exact Hnone|]).
  - reflexivity.
  - intros Hf. rewrite (js_or_falsy _ _ Hf) in Erel. discriminate.
Qed.

Lemma post_events_defaults_witness :
  event_body_ok sample_db whisper = true
  /\ exists e,
       post_events 9000 "e4" whisper sample_db
       = (Json e, set_events sample_db (events sample_db ++ [e]),
          [mkBroadcast "/villa-feed" "new-event"
             (NEvent (mkEnvelope "event" e (ev_createdAt e)))])
       /\ ev_dramaScore e = inject_Z 50
       /\ ev_isPublic e = false
       /\ ev_isFeatured e = false
       /\ ev_relationshipId e = None.
Proof.
  split; [reflexivity|].
  destruct (post_events_defaults 9000 "e4" whisper sample_db eq_refl)
    as (e & Hpost & _ & _ & _ & _ & _ & Hscore & Hpub & Hfeat & _ & Hrel).
  exists e. split; [exact Hpost|]. split; [now apply Hscore|].
  split; [now apply Hpub|]. split; [|now apply Hrel].
  destruct (ev_isFeatured e) eqn:Hf; [|reflexivity].
  destruct Hfeat as [Hfeat _]. discriminate (Hfeat eq_refl).
Defined.

(** ** What a write shows in the feed and in the highlights *)

(** X18. An event that [POST /api/events] stores as not public changes no
    answer of [GET /api/villa-feed], whatever the limit. *)
Theorem private_event_leaves_feed
    (now : Z) (fresh : string) (body : obj) (d d' : DB) (e : Event) (out : list Broadcast) :
  post_events now fresh body d = (Json e, d', out) ->
  ev_isPublic e = false ->
  forall take_ok q, get_villa_feed take_ok q d' = get_villa_feed take_ok q d.
Proof.
  intros Hpost Hprivate take_ok q.
  destruct (post_events_store _ _ _ _ _ _ _ Hpost) as [(Hr & _) | (e' & Hr & -> & _)];
    [discriminate|].
  injection Hr as <-.
  unfold get_villa_feed.
  destruct (number_or (parseInt q) 50) as [|limit|]; try reflexivity.
  destruct (take_ok limit); [|reflexivity].
  cbn [events set_events messages].
  rewrite List.filter_app. cbn [List.filter]. rewrite Hprivate, app_nil_r.
  reflexivity.
Qed.

Lemma private_event_leaves_feed_witness :
  (exists e d' out,
     post_events 9000 "e4" whisper sample_db = (Json e, d', out)
     /\ ev_isPublic e = false)
  /\ forall take_ok q,
       get_villa_feed take_ok q (snd (fst (post_events 9000 "e4" whisper sample_db)))
       = get_villa_feed take_ok q sample_db.
Proof.
  split; [eexists; eexists; eexists; split; reflexivity|].
  eapply (private_event_leaves_feed 9000 "e4" whisper sample_db); reflexivity.
Defined.

(** X19. An event that [POST /api/events] stores as not featured and with a
    drama score below 75 does not change the answer of
    [GET /api/highlights]. *)
Theorem plain_event_leaves_highlights
    (now : Z) (fresh : string) (body : obj) (d d' : DB) (e : Event) (out : list Broadcast) :
  post_events now fresh body d = (Json e, d', out) ->
  ev_isFeatured e = false ->
  (ev_dramaScore e < 75)%Q ->
  get_highlights d' = get_highlights d.
Proof.
  intros Hpost Hplain Hlow.
  destruct (post_events_store _ _ _ _ _ _ _ Hpost) as [(Hr & _) | (e' & Hr & -> & _)];
    [discriminate|].
  injection Hr as <-.
  assert (Hno : is_highlight e = false).
  { unfold is_highlight. rewrite Hplain. cbn [orb].
    destruct (Qle_bool 75 (ev_dramaScore e)) eqn:Hle; [|reflexivity].
    apply Qle_bool_iff in Hle. exfalso. now apply (Qlt_not_le _ _ Hlow). }
  unfold get_highlights. cbn [events set_events].
  rewrite List.filter_app. cbn [List.filter]. rewrite Hno, app_nil_r.
  reflexivity.
Qed.

Lemma plain_event_leaves_highlights_witness :
  (exists e d' out,
     post_events 9000 "e4" whisper sample_db = (Json e, d', out)
     /\ ev_isFeatured e = false /\ (ev_dramaScore e < 75)%Q)
  /\ get_highlights (snd (fst (post_events 9000 "e4" whisper sample_db)))
     = get_highlights sample_db.
Proof.
  split; [eexists; eexists; eexists; repeat split|].
  eapply (plain_event_leaves_highlights 9000 "e4" whisper sample_db); reflexivity.
Defined.

Lemma sort_by_newest {A : Type} (ok : A -> A -> bool) (l1 l2 : list A) (x : A) :
  (forall y, In y (l1 ++ l2) -> ok y x = false /\ ok x y = true) ->
  sort_by ok (l1 ++ x :: l2) = x :: sort_by ok (l1 ++ l2).
Proof.
  induction l1 as [|y l1 IH]; intros Hx.
  - cbn [app sort_by] in *.
    destruct (sort_by ok l2) as [|z t] eqn:Hs; [reflexivity|].
    cbn [insert_by]. assert (Hz : In z l2).
    { apply (Permutation_in _ (sort_by_perm ok l2)). rewrite Hs. now left. }
    now rewrite (proj2 (Hx z Hz)).
  - cbn [app sort_by]. rewrite IH by (intros z Hz; apply Hx; now right).
    cbn [insert_by]. now rewrite (proj1 (Hx y (or_introl eq_refl))).
Qed.

Lemma take_head {A : Type} (n : Z) (x : A) (l : list A) :
  0 < n -> exists rest, prisma_take n (x :: l) = x :: rest /\ js_slice0 n (x :: l) = x :: rest
                        /\ forall y, In y rest -> In y l.
Proof.
  intros Hn. rewrite prisma_take_pos, js_slice0_pos by lia.
  destruct (Z.to_nat n) as [|k] eqn:Hk; [lia|].
  exists (firstn k l). cbn [firstn]. repeat split.
  intros y Hy. rewrite <- (firstn_skipn k l). apply in_or_app. now left.
Qed.

Lemma feed_head (limit : Z) (d : DB) (item : Envelope FeedData)
    (front back : list (Envelope FeedData)) :
  0 < limit ->
  (forall y, In y (front ++ back) -> env_timestamp y < env_timestamp item) ->
  exists rest,
    js_slice0 limit
      (js_sort (fun a b => env_timestamp b - env_timestamp a) (front ++ item :: back))
    = item :: rest.
Proof.
  intros Hlimit Holder. unfold js_sort. rewrite sort_by_newest.
  - destruct (take_head limit item
                (sort_by (fun a b => env_timestamp b - env_timestamp a <=? 0) (front ++ back))
                Hlimit) as (rest & _ & Hslice & _).
    eauto.
  - intros y Hy. specialize (Holder y Hy). split; [apply Z.leb_gt | apply Z.leb_le]; lia.
Qed.

Lemma get_villa_feed_taken (take_ok : Z -> bool) (q : option string) (limit : Z) (d : DB) :
  number_or (parseInt q) 50 = Finite limit ->
  take_ok limit = true ->
  get_villa_feed take_ok q d
  = Json (js_slice0 limit
            (js_sort (fun a b => env_timestamp b - env_timestamp a)
               (map event_item
                  (map (include_relationship d)
                     (prisma_take limit
                        (order_by_desc ev_createdAt (List.filter ev_isPublic (events d)))))
                ++ map message_item
                     (map (include_context d)
                        (prisma_take limit (order_by_desc msg_createdAt (messages d))))))).
Proof. intros Hlimit Htake. unfold get_villa_feed. now rewrite Hlimit, Htake. Qed.

(** X20. A public event that [POST /api/events] stores at a time later than
    every stored event and message is the first item of the next
    [GET /api/villa-feed], tagged "event", for every limit that counts as a
    positive number which the ORM takes as [take] (the absent limit, which
    counts as 50, included when the ORM takes 50). *)
Theorem new_public_event_heads_feed
    (take_ok : Z -> bool) (now : Z) (fresh : string) (body : obj) (d d' : DB) (e : Event)
    (out : list Broadcast) (q : option string) (limit : Z) :
  post_events now fresh body d = (Json e, d', out) ->
  ev_isPublic e = true ->
  (forall x, In x (events d) -> ev_createdAt x < now) ->
  (forall m, In m (messages d) -> msg_createdAt m < now) ->
  number_or (parseInt q) 50 = Finite limit ->
  0 < limit ->
  take_ok limit = true ->
  exists rest,
    get_villa_feed take_ok q d' = Json (event_item (include_relationship d' e) :: rest)
    /\ env_type (event_item (include_relationship d' e)) = "event".
Proof.
  intros Hpost Hpublic Hevents Hmessages Hnumber Hlimit Htake.
  destruct (post_events_store _ _ _ _ _ _ _ Hpost)
    as [(Hr & _) | (e' & Hr & -> & _ & _ & Hcreated)]; [discriminate|].
  injection Hr as <-.
  rewrite (get_villa_feed_taken take_ok q limit _ Hnumber Htake).
  cbn [events set_events messages].
  rewrite List.filter_app. cbn [List.filter]. rewrite Hpublic.
  unfold order_by_desc at 1. rewrite sort_by_newest.
  2:{ intros y Hy. rewrite app_nil_r in Hy. apply List.filter_In in Hy.
      destruct Hy as [Hy _]. specialize (Hevents y Hy).
      split; [apply Z.leb_gt | apply Z.leb_le]; lia. }
  destruct (take_head limit e
              (sort_by (fun a b => ev_createdAt b <=? ev_createdAt a)
                 (List.filter ev_isPublic (events d) ++ [])) Hlimit)
    as (evs & Htaken & _ & Hevs).
  rewrite Htaken. cbn [map app].
  destruct (feed_head limit d
              (event_item (include_relationship (set_events d (events d ++ [e])) e))
              []
              (map event_item (map (include_relationship (set_events d (events d ++ [e]))) evs)
               ++ map message_item
                    (map (include_context (set_events d (events d ++ [e])))
                       (prisma_take limit (order_by_desc msg_createdAt (messages d)))))
              Hlimit) as (rest & Hrest).
  - intros y Hy. cbn [app] in Hy. cbn [event_item env_timestamp ewr_event include_relationship].
    rewrite Hcreated. apply in_app_or in Hy. destruct Hy as [Hy|Hy].
    + apply in_map_iff in Hy. destruct Hy as (x & <- & Hx).
      apply in_map_iff in Hx. destruct Hx as (x0 & <- & Hx0).
      cbn. apply Hevents. apply Hevs in Hx0.
      apply (Permutation_in _ (sort_by_perm _ _)) in Hx0.
      rewrite app_nil_r in Hx0. apply List.filter_In in Hx0. tauto.
    + apply in_map_iff in Hy. destruct Hy as (x & <- & Hx).
      apply in_map_iff in Hx. destruct Hx as (m & <- & Hm).
      cbn. apply Hmessages.
      unfold prisma_take in Hm.
      assert (Hin : In m (order_by_desc msg_createdAt (messages d))).
      { destruct (0 <=? limit).
        - rewrite <- (firstn_skipn (Z.to_nat limit) (order_by_desc msg_createdAt (messages d))).
          apply in_or_app. now left.
        - rewrite <- (firstn_skipn
                        (length (order_by_desc msg_createdAt (messages d))
                         - Z.to_nat (- limit))
                        (order_by_desc msg_createdAt (messages d))).
          apply in_or_app. now right. }
      apply (Permutation_in _ (sort_by_perm _ _)) in Hin. exact Hin.
  - cbn [app] in Hrest. exists rest. split; [now rewrite Hrest | reflexivity].
Qed.

Lemma new_public_event_heads_feed_witness :
  (exists e d' out,
     post_events 9000 "e4" breakup sample_db = (Json e, d', out) /\ ev_isPublic e = true)
  /\ number_or (parseInt (Some "2")) 50 = Finite 2
  /\ sample_take_ok 2 = true
  /\ exists e d' out rest,
       post_events 9000 "e4" breakup sample_db = (Json e, d', out)
       /\ ev_id e = "e4"
       /\ get_villa_feed sample_take_ok (Some "2") d'
          = Json (event_item (include_relationship d' e) :: rest)
       /\ env_type (event_item (include_relationship d' e)) = "event".
Proof.
  split; [eexists; eexists; eexists; split; reflexivity|].
  split; [reflexivity|]. split; [reflexivity|].
  eexists. eexists. eexists.
  destruct (new_public_event_heads_feed sample_take_ok 9000 "e4" breakup sample_db _ _ _
              (Some "2") 2 eq_refl eq_refl) as (rest & Hfeed & Htag).
  - intros x [<-|[<-|[<-|[]]]]; cbn; lia.
  - intros m [<-|[<-|[]]]; cbn; lia.
  - reflexivity.
  - lia.
  - reflexivity.
  - exists rest. split; [reflexivity|]. split; [reflexivity|].
    split; [exact Hfeed | exact Htag].
Defined.

Lemma prisma_take_In {A : Type} (n : Z) (l : list A) (x : A) :
  In x (prisma_take n l) -> In x l.
Proof.
  unfold prisma_take. destruct (0 <=? n); intros H.
  - rewrite <- (firstn_skipn (Z.to_nat n) l). apply in_or_app. now left.
  - rewrite <- (firstn_skipn (length l - Z.to_nat (- n)) l). apply in_or_app. now right.
Qed.

Lemma message_create_store
    (created : Z) (fresh : string) (c f t text sentiment : jsval) (d d1 : DB) (m : Message) :
  message_create created fresh c f t text sentiment d = (Ok m, d1) ->
  d1 = set_messages d (messages d ++ [m]) /\ msg_createdAt m = created /\ msg_id m = fresh.
Proof.
  unfold message_create.
  destruct c as [[| | |c| | |]|]; try discriminate;
  destruct f as [[| | |f| | |]|]; try discriminate;
  destruct t as [[| | |t| | |]|]; try discriminate;
  destruct text as [[| | |text| | |]|]; try discriminate.
  destruct sentiment as [[| | |s| | |]|]; try discriminate;
    destruct (conversation_exists c d && agent_exists f d && agent_exists t d);
    try discriminate; intros [= <- <-]; now repeat split.
Qed.

Lemma conversation_touch_store (id : jsval) (now : Z) (d d2 : DB) (c : Conversation) :
  conversation_touch id now d = (Ok c, d2) ->
  messages d2 = messages d /\ events d2 = events d.
Proof.
  unfold conversation_touch.
  destruct id as [[| | |key| | |]|]; try discriminate.
  destruct (find_conversation key d); try discriminate.
  intros [= <- <-]. now split.
Qed.

Lemma post_messages_store
    (clock : Clock) (fresh : string) (body : obj) (w w' : World) (m : MessageWithAgents) :
  post_messages clock fresh body w = (Json m, w') ->
  messages (db w') = messages (db w) ++ [mwa_message m]
  /\ events (db w') = events (db w)
  /\ msg_createdAt (mwa_message m) = clock_time clock.
Proof.
  rewrite post_messages_readings.
  destruct (message_create (clock_time clock) fresh (prop body "conversationId")
              (prop body "fromId") (prop body "toId") (prop body "content")
              (js_or (prop body "sentiment") null) (db w)) as [[m1|e1] d1] eqn:Hcreate;
    [|discriminate].
  destruct (conversation_touch (prop body "conversationId") (second_reading clock) d1)
    as [[c|e2] d2] eqn:Htouch; [|discriminate].
  intros [= <- <-]. cbn [db mwa_message].
  destruct (message_create_store _ _ _ _ _ _ _ _ _ _ Hcreate) as (-> & Hat & _).
  destruct (conversation_touch_store _ _ _ _ _ Htouch) as (Hm & He).
  rewrite Hm, He. now repeat split.
Qed.

(** X21. A message that [POST /api/messages] stores at a time later than
    every stored event and message is the first item of the next
    [GET /api/villa-feed], tagged "message" and carrying the message that was
    answered, for every limit that counts as a positive number which the
    ORM takes as [take] (the absent limit, which counts as 50, included
    when the ORM takes 50). *)
Theorem new_message_heads_feed
    (take_ok : Z -> bool) (clock : Clock) (fresh : string) (body : obj) (w w' : World)
    (m : MessageWithAgents) (q : option string) (limit : Z) :
  post_messages clock fresh body w = (Json m, w') ->
  (forall x, In x (events (db w)) -> ev_createdAt x < clock_time clock) ->
  (forall x, In x (messages (db w)) -> msg_createdAt x < clock_time clock) ->
  number_or (parseInt q) 50 = Finite limit ->
  0 < limit ->
  take_ok limit = true ->
  exists rest,
    get_villa_feed take_ok q (db w')
    = Json (message_item (include_context (db w') (mwa_message m)) :: rest)
    /\ env_type (message_item (include_context (db w') (mwa_message m))) = "message".
Proof.
  intros Hpost Hevents Hmessages Hnumber Hlimit Htake.
  destruct (post_messages_store _ _ _ _ _ _ Hpost) as (Hm & He & Hcreated).
  rewrite (get_villa_feed_taken take_ok q limit _ Hnumber Htake). rewrite Hm, He.
  unfold order_by_desc at 2. rewrite sort_by_newest.
  2:{ intros y Hy. rewrite app_nil_r in Hy. specialize (Hmessages y Hy).
      rewrite Hcreated. split; [apply Z.leb_gt | apply Z.leb_le]; lia. }
  destruct (take_head limit (mwa_message m)
              (sort_by (fun a b => msg_createdAt b <=? msg_createdAt a) (messages (db w) ++ []))
              Hlimit) as (msgs & Htaken & _ & Hmsgs).
  rewrite Htaken. cbn [map].
  destruct (feed_head limit (db w')
              (message_item (include_context (db w') (mwa_message m)))
              (map event_item
                 (map (include_relationship (db w'))
                    (prisma_take limit
                       (order_by_desc ev_createdAt (List.filter ev_isPublic (events (db w)))))))
              (map message_item (map (include_context (db w')) msgs))
              Hlimit) as (rest & Hrest).
  - intros y Hy. cbn [message_item env_timestamp mwc_message include_context].
    rewrite Hcreated. apply in_app_or in Hy. destruct Hy as [Hy|Hy].
    + apply in_map_iff in Hy. destruct Hy as (x & <- & Hx).
      apply in_map_iff in Hx. destruct Hx as (x0 & <- & Hx0).
      cbn. apply Hevents. apply prisma_take_In in Hx0.
      apply (Permutation_in _ (sort_by_perm _ _)) in Hx0.
      apply List.filter_In in Hx0. tauto.
    + apply in_map_iff in Hy. destruct Hy as (x & <- & Hx).
      apply in_map_iff in Hx. destruct Hx as (x0 & <- & Hx0).
      cbn. apply Hmessages. apply Hmsgs in Hx0.
      apply (Permutation_in _ (sort_by_perm _ _)) in Hx0.
      now rewrite app_nil_r in Hx0.
  - exists rest. split; [now rewrite Hrest | reflexivity].
Qed.

Lemma new_message_heads_feed_witness :
  number_or (parseInt None) 50 = Finite 50
  /\ sample_take_ok 50 = true
  /\ exists m w' rest,
       post_messages sample_clock "m3" see_you sample_world = (Json m, w')
       /\ msg_id (mwa_message m) = "m3"
       /\ get_villa_feed sample_take_ok None (db w')
          = Json (message_item (include_context (db w') (mwa_message m)) :: rest)
       /\ env_type (message_item (include_context (db w') (mwa_message m))) = "message".
Proof.
  split; [reflexivity|]. split; [reflexivity|].
  eexists. eexists.
  destruct (new_message_heads_feed sample_take_ok sample_clock "m3" see_you sample_world _ _
              None 50 eq_refl) as (rest & Hfeed & Htag).
  - intros x [<-|[<-|[<-|[]]]]; cbn; lia.
  - intros x [<-|[<-|[]]]; cbn; lia.
  - reflexivity.
  - lia.
  - reflexivity.
  - exists rest. split; [reflexivity|]. split; [reflexivity|].
    split; [exact Hfeed | exact Htag].
Defined.

(** ** More on the waitlist *)

Lemma email_free_not_in (e : string) (l : list WaitlistEntry) :
  email_taken e l = false -> ~ In e (map wl_email l).
Proof.
  unfold email_taken. intros Hfree Hin.
  apply in_map_iff in Hin. destruct Hin as (x & <- & Hx).
  assert (Htaken : existsb (fun w => String.eqb (wl_email w) (wl_email x)) l = true).
  { apply existsb_exists. exists x. split; [exact Hx | apply String.eqb_refl]. }
  congruence.
Qed.

Lemma nodup_snoc {A : Type} (l : list A) (x : A) :
  List.NoDup l -> ~ In x l -> List.NoDup (l ++ [x]).
Proof.
  induction l as [|y l IH]; intros Hl Hx; cbn [app].
  - constructor; [intros [] | constructor].
  - apply List.NoDup_cons_iff in Hl. destruct Hl as [Hy Hl].
    constructor.
    + intros Hin. apply in_app_or in Hin. destruct Hin as [Hin | [<- | []]].
      * now apply Hy.
      * apply Hx. now left.
    + apply IH; [exact Hl|]. intros Hin. apply Hx. now right.
Qed.

(** X22. [POST /api/waitlist] keeps the waitlist sound: starting from a
    waitlist without a repeated email in which every email has an "@", any
    request leaves such a waitlist; the stored entries stay as they are, in
    place; a row is added exactly when the answer is a success, with the id
    that is answered and the time of the request; and no other table
    changes. *)
Theorem post_waitlist_keeps_sound
    (now : Z) (fresh : string) (body : obj) (d d' : DB) (r : response WaitlistResult) :
  post_waitlist now fresh body d = (r, d') ->
  waitlist_sound d ->
  waitlist_sound d'
  /\ ((exists e, r = Json (mkWaitlistResult true fresh)
                 /\ prop body "email" = str e
                 /\ waitlist d' = waitlist d ++ [mkWaitlistEntry fresh e now])
      \/ ((exists code text, r = Status code text) /\ d' = d))
  /\ agents d' = agents d /\ relationships d' = relationships d
  /\ conversations d' = conversations d /\ messages d' = messages d
  /\ events d' = events d.
Proof.
  intros Hpost [Hnodup Hat].
  assert (Hsame : forall code text,
            waitlist_sound d
            /\ ((exists e, Status code text = Json (mkWaitlistResult true fresh)
                           /\ prop body "email" = str e
                           /\ waitlist d = waitlist d ++ [mkWaitlistEntry fresh e now])
                \/ ((exists code' text', @Status WaitlistResult code text = Status code' text')
                    /\ d = d))
            /\ agents d = agents d /\ relationships d = relationships d
            /\ conversations d = conversations d /\ messages d = messages d
            /\ events d = events d).
  { intros code text. split; [now split|]. split; [right; eauto|]. now repeat split. }
  revert Hpost. unfold post_waitlist, waitlist_create, waitlist_catch.
  destruct (prop body "email") as [v|] eqn:Hemail; [|intros [= <- <-]; apply Hsame].
  destruct (truthy (Some v)); [|intros [= <- <-]; apply Hsame].
  destruct v as [| | |e|items| |]; cbn [includes_at is_P2002];
    try (intros [= <- <-]; apply Hsame).
  - destruct (string_includes "@" e) eqn:Hincl; [|intros [= <- <-]; apply Hsame].
    destruct (email_taken e (waitlist d)) eqn:Htaken; cbn [is_P2002].
    + intros [= <- <-]. apply Hsame.
    + intros [= <- <-]. cbn [wl_id waitlist set_waitlist agents relationships conversations
                               messages events].
      split; [|split; [left; exists e; now repeat split | now repeat split]].
      split; cbn [waitlist set_waitlist].
      * rewrite List.map_app. cbn [map wl_email].
        apply nodup_snoc; [exact Hnodup | now apply email_free_not_in].
      * apply List.Forall_app. split; [exact Hat|]. constructor; [exact Hincl | constructor].
  - destruct (existsb _ items); intros [= <- <-]; apply Hsame.
Qed.

Lemma post_waitlist_keeps_sound_witness :
  waitlist_sound sample_db
  /\ waitlist_sound (snd (post_waitlist 9000 "w2" amy sample_db))
  /\ waitlist (snd (post_waitlist 9000 "w2" amy sample_db))
     = waitlist sample_db ++ [mkWaitlistEntry "w2" "amy@example.org" 9000].
Proof.
  assert (Hsound : waitlist_sound sample_db).
  { split; [constructor; [intros [] | constructor] | repeat constructor]. }
  split; [exact Hsound|]. split; [|reflexivity].
  exact (proj1 (post_waitlist_keeps_sound 9000 "w2" amy sample_db
                  (snd (post_waitlist 9000 "w2" amy sample_db))
                  (fst (post_waitlist 9000 "w2" amy sample_db))
                  eq_refl Hsound)).
Defined.

(** ** More on the status route *)

(** X23. [PUT /api/agents/:id/status] writes to one agent row at most: every
    other agent row (the partner that the body names included) and every
    other table stay as they are, and no agent row is created or removed;
    for an id that is not stored the answer is 500 and nothing is written;
    and when it succeeds with a body that names a partner (a truthy
    [currentPartner]), the answered row, which is the stored one, holds
    that partner. *)
Theorem put_agent_status_one_row
    (schema : Schema) (now : Z) (id : string) (body : obj) (d d' : DB) (r : response Agent) :
  put_agent_status schema now id body d = (r, d') ->
  (forall k, k <> id -> agents d' !! k = agents d !! k)
  /\ (is_Some (agents d' !! id) <-> is_Some (agents d !! id))
  /\ relationships d' = relationships d /\ conversations d' = conversations d
  /\ messages d' = messages d /\ events d' = events d /\ waitlist d' = waitlist d
  /\ (agents d !! id = None -> r = Status 500 "Failed to update agent status" /\ d' = d)
  /\ (forall agent p,
        r = Json agent -> prop body "currentPartner" = Some p -> truthy (Some p) = true ->
        agents d' !! id = Some agent /\ agent !! "currentPartner" = Some p).
Proof.
  unfold put_agent_status, agent_update.
  destruct (agent_update_ok schema _).
  - destruct (agents d !! id) as [old|] eqn:Hold.
    + intros [= <- <-]. cbn [agents set_agents relationships conversations messages events waitlist].
      split; [intros k Hk; now apply lookup_insert_ne|].
      split; [rewrite lookup_insert_eq; split; eauto|].
      do 5 (split; [reflexivity|]).
      split; [discriminate|].
      intros agent p [= <-] Hp Htruthy.
      split; [apply lookup_insert_eq|].
      rewrite written_lookup, !written_cons. cbn [String.eqb Ascii.eqb Bool.eqb].
      rewrite Hp, (js_or_truthy (Some p) null Htruthy).
      now destruct (prop body "status").
    + intros [= <- <-]. rewrite Hold.
      split; [reflexivity|]. split; [reflexivity|].
      do 5 (split; [reflexivity|]).
      split; [now split|]. discriminate.
  - intros [= <- <-].
    split; [reflexivity|]. split; [reflexivity|].
    do 5 (split; [reflexivity|]).
    split; [now split|]. discriminate.
Qed.

Lemma put_agent_status_one_row_witness :
  (exists agent,
     fst (put_agent_status sample_schema 9000 "eve" coupled_with_cyd sample_db) = Json agent
     /\ agent !! "currentPartner" = Some (VStr "cyd"))
  /\ agents (snd (put_agent_status sample_schema 9000 "eve" coupled_with_cyd sample_db)) !! "cyd"
     = agents sample_db !! "cyd"
  /\ relationships (snd (put_agent_status sample_schema 9000 "eve" coupled_with_cyd sample_db))
     = relationships sample_db.
Proof.
  pose proof (put_agent_status_one_row sample_schema 9000 "eve" coupled_with_cyd sample_db
                (snd (put_agent_status sample_schema 9000 "eve" coupled_with_cyd sample_db))
                (fst (put_agent_status sample_schema 9000 "eve" coupled_with_cyd sample_db))
                eq_refl) as (Hframe & _ & Hrels & _ & _ & _ & _ & _ & Hpartner).
  split; [|split; [apply Hframe; discriminate | exact Hrels]].
  eexists. split; [vm_compute; reflexivity|].
  eapply Hpartner; vm_compute; reflexivity.
Defined.
